(** * MusicBrain: query interpretation and candidate resolution

    A shallow embedding of the decision logic of [test.py] (the MusicBrainz
    retriever) and [test3.py] (the chooser, the deterministic producer check
    and the context builder), with the properties of the design document
    stated and settled against it.

    Conventions of the embedding.
    - A Python [str] is a Rocq [string]; a character is a code point below
      256 (Latin-1).  [str.lower], [str.strip], [in], [str.split] and
      [str.join] are the functions [py_lower], [py_strip], [py_in],
      [py_split1] and [py_join] below.
    - A value decoded from JSON is a [json]; a JSON number is an integer.
    - A Python exception is the outcome [Raise]; the few library behaviours
      that the embedding does not follow (printing or comparing arrays and
      objects) end in the outcome [Unmodelled], never in a made-up value. *)

From Stdlib Require Import Bool Arith ZArith QArith Lia Lqa List.
From Stdlib Require Import Ascii String DecimalString.
Import ListNotations.

Local Close Scope Q_scope.
Local Open Scope nat_scope.
Local Open Scope string_scope.
Local Open Scope bool_scope.

(* ================================================================== *)
(** * Python strings *)
(* ================================================================== *)

Module PyStr.

(** [str.isspace] on one character: TAB, LF, VT, FF, CR, FS, GS, RS, US,
    SPACE, NEL and NBSP. *)
Definition isspace (c : ascii) : bool :=
  let n := nat_of_ascii c in
  (((9 <=? n) && (n <=? 13)) || ((28 <=? n) && (n <=? 32))
   || (n =? 133) || (n =? 160))%nat.

(** [str.lower] on one character: A-Z and the Latin-1 capitals. *)
Definition lower_char (c : ascii) : ascii :=
  let n := nat_of_ascii c in
  if (((65 <=? n) && (n <=? 90))
      || ((192 <=? n) && (n <=? 222) && negb (n =? 215)))%nat
  then ascii_of_nat (n + 32) else c.

Fixpoint py_lower (s : string) : string :=
  match s with
  | EmptyString => EmptyString
  | String c s' => String (lower_char c) (py_lower s')
  end.

Fixpoint py_lstrip (s : string) : string :=
  match s with
  | EmptyString => EmptyString
  | String c s' => if isspace c then py_lstrip s' else s
  end.

Fixpoint py_rstrip (s : string) : string :=
  match s with
  | EmptyString => EmptyString
  | String c s' =>
      match py_rstrip s' with
      | EmptyString => if isspace c then EmptyString else String c EmptyString
      | r => String c r
      end
  end.

(** [s.strip()] *)
Definition py_strip (s : string) : string := py_rstrip (py_lstrip s).

(** [needle in hay] *)
Fixpoint py_in (needle hay : string) : bool :=
  prefix needle hay
  || match hay with
     | EmptyString => false
     | String _ hay' => py_in needle hay'
     end.

Fixpoint drop (n : nat) (s : string) : string :=
  match n, s with
  | O, _ => s
  | S n', String _ s' => drop n' s'
  | S _, EmptyString => EmptyString
  end.

(** [s.split(sep, 1)] for a non-empty [sep]: [Some (a, b)] is the list
    [[a, b]], [None] is the one-element list [[s]]. *)
Fixpoint py_split1 (sep s : string) : option (string * string) :=
  if prefix sep s then Some (EmptyString, drop (length sep) s)
  else match s with
       | EmptyString => None
       | String c s' =>
           match py_split1 sep s' with
           | Some (a, b) => Some (String c a, b)
           | None => None
           end
       end.

(** [sep.join(parts)] *)
Definition py_join (sep : string) (parts : list string) : string :=
  concat sep parts.

(** Truth value of a string: non-empty. *)
Definition nonempty (s : string) : bool :=
  match s with EmptyString => false | String _ _ => true end.

(** All characters are white space (true of the empty string). *)
Fixpoint blank (s : string) : bool :=
  match s with
  | EmptyString => true
  | String c s' => isspace c && blank s'
  end.

End PyStr.
Import PyStr.

(* ================================================================== *)
(** * Outcomes of a Python call *)
(* ================================================================== *)

Inductive exn : Type := AttributeError | TypeError | IndexError.

Inductive result (A : Type) : Type :=
| Ok (a : A)
| Raise (e : exn)
| Unmodelled.
Arguments Ok {A} a.
Arguments Raise {A} e.
Arguments Unmodelled {A}.

Definition bind {A B : Type} (m : result A) (k : A -> result B) : result B :=
  match m with
  | Ok a => k a
  | Raise e => Raise e
  | Unmodelled => Unmodelled
  end.

Notation "x <- m ;; k" := (bind m (fun x => k))
  (at level 61, m at next level, right associativity).

Fixpoint mapM {A B : Type} (f : A -> result B) (l : list A) : result (list B) :=
  match l with
  | [] => Ok []
  | a :: l' => b <- f a ;; bs <- mapM f l' ;; Ok (b :: bs)
  end.

(* ================================================================== *)
(** * The regular expressions of the query parser *)
(* ================================================================== *)

Module Re.

(** One-character classes of the patterns: a literal under [re.IGNORECASE],
    [.] (anything but a line feed), [\s], and a bracket set. *)
Inductive cclass : Type :=
| Lit (c : ascii)
| Dot
| Space
| OneOf (cs : list ascii).

Definition accepts (k : cclass) (c : ascii) : bool :=
  match k with
  | Lit l => Ascii.eqb (lower_char c) (lower_char l)
  | Dot => negb (Ascii.eqb c "010"%char)
  | Space => isspace c
  | OneOf cs => existsb (Ascii.eqb c) cs
  end.

(** Quantifiers: exactly one, [?], [+] and [+?]. *)
Inductive quant : Type := Once | Opt | Plus | PlusLazy.

(** A pattern is a sequence of quantified classes; [Group] is a named group
    around one quantified class, which is the only form of group in the
    source. *)
Inductive item : Type :=
| Atom (q : quant) (k : cclass)
| Group (name : string) (q : quant) (k : cclass).

Definition pattern : Type := list item.

(** A match object, reduced to its named groups. *)
Definition captures : Type := list (string * string).

Section Matcher.
Variable k : cclass.
(** What follows the class: given the text it consumed and the rest. *)
Variable next : string -> string -> option captures.

Definition m_once (s : string) : option captures :=
  match s with
  | String c s' =>
      if accepts k c then next (String c EmptyString) s' else None
  | EmptyString => None
  end.

(** Greedy [?]: take the character first, give it back on failure. *)
Definition m_opt (s : string) : option captures :=
  match m_once s with
  | Some r => Some r
  | None => next EmptyString s
  end.

(** Greedy [+]: the longest run first, shortened on failure. *)
Fixpoint m_plus (taken s : string) : option captures :=
  match s with
  | String c s' =>
      if accepts k c then
        let taken' := taken ++ String c EmptyString in
        match m_plus taken' s' with
        | Some r => Some r
        | None => next taken' s'
        end
      else None
  | EmptyString => None
  end.

(** Lazy [+?]: one character first, lengthened on failure. *)
Fixpoint m_plus_lazy (taken s : string) : option captures :=
  match s with
  | String c s' =>
      if accepts k c then
        let taken' := taken ++ String c EmptyString in
        match next taken' s' with
        | Some r => Some r
        | None => m_plus_lazy taken' s'
        end
      else None
  | EmptyString => None
  end.

Definition m_quant (q : quant) (s : string) : option captures :=
  match q with
  | Once => m_once s
  | Opt => m_opt s
  | Plus => m_plus EmptyString s
  | PlusLazy => m_plus_lazy EmptyString s
  end.
End Matcher.

(** Backtracking match of a pattern at the start of [s]. *)
Fixpoint match_here (p : pattern) (s : string) : option captures :=
  match p with
  | [] => Some []
  | Atom q k :: p' => m_quant k (fun _ rest => match_here p' rest) q s
  | Group name q k :: p' =>
      m_quant k
        (fun taken rest =>
           match match_here p' rest with
           | Some caps => Some ((name, taken) :: caps)
           | None => None
           end)
        q s
  end.

(** [re.search(p, s, flags=re.IGNORECASE)]: the first start position, from
    the left, at which the pattern matches. *)
Fixpoint search (p : pattern) (s : string) : option captures :=
  match match_here p s with
  | Some caps => Some caps
  | None =>
      match s with
      | EmptyString => None
      | String _ s' => search p s'
      end
  end.

(** [m.group(name)] *)
Fixpoint group (caps : captures) (name : string) : result string :=
  match caps with
  | [] => Raise IndexError
  | (n, v) :: caps' => if String.eqb n name then Ok v else group caps' name
  end.

(** The characters of a literal word, each matched once. *)
Fixpoint word (w : string) : pattern :=
  match w with
  | EmptyString => []
  | String c w' => Atom Once (Lit c) :: word w'
  end.

End Re.

(* ================================================================== *)
(** * Query Parser ([test.py], [parse_query]) *)
(* ================================================================== *)

Record query_hypothesis : Type := {
  title : string;
  artist : option string
}.

(** The bracket set of the two quote characters, ['] and the double quote
    (code 34). *)
Definition quotes : Re.cclass := Re.OneOf ["'"%char; "034"%char].

(** The tail shared by the first three patterns: white space, an optional
    quote, the lazy group <title>, an optional quote, white space, the word
    by, white space and the greedy group <artist>. *)
Definition quoted_title_by_artist : Re.pattern :=
  ([ Re.Atom Re.Plus Re.Space;
     Re.Atom Re.Opt quotes;
     Re.Group "title" Re.PlusLazy Re.Dot;
     Re.Atom Re.Opt quotes;
     Re.Atom Re.Plus Re.Space ]
   ++ Re.word "by"
   ++ [ Re.Atom Re.Plus Re.Space;
        Re.Group "artist" Re.Plus Re.Dot ])%list.

(** The generic fallback: <title> by <artist>. *)
Definition title_by_artist : Re.pattern :=
  ([ Re.Group "title" Re.PlusLazy Re.Dot; Re.Atom Re.Plus Re.Space ]
   ++ Re.word "by"
   ++ [ Re.Atom Re.Plus Re.Space; Re.Group "artist" Re.Plus Re.Dot ])%list.

Definition patterns : list Re.pattern :=
  [ (Re.word "tell me about" ++ quoted_title_by_artist)%list;
    (Re.word "about" ++ quoted_title_by_artist)%list;
    (Re.word "what can you tell me about" ++ quoted_title_by_artist)%list;
    title_by_artist ].

(** The [for p in patterns] loop: the first pattern that matches decides. *)
Fixpoint first_match (ps : list Re.pattern) (text : string)
  : option Re.captures :=
  match ps with
  | [] => None
  | p :: ps' =>
      match Re.search p text with
      | Some m => Some m
      | None => first_match ps' text
      end
  end.

(** The first assignment of the function, [t = text.strip().lower()], is
    never read and is left out. *)
Definition parse_query (text : string) : result query_hypothesis :=
  match first_match patterns text with
  | Some m =>
      t <- Re.group m "title" ;;
      a <- Re.group m "artist" ;;
      Ok {| title := py_strip t; artist := Some (py_strip a) |}
  | None =>
      if py_in " by " (py_lower text) then
        (* parts = text.split(" by ", 1); parts[0], parts[1] *)
        match py_split1 " by " text with
        | Some (p0, p1) =>
            Ok {| title := py_strip p0; artist := Some (py_strip p1) |}
        | None => Raise IndexError
        end
      else Ok {| title := py_strip text; artist := None |}
  end.


(* ================================================================== *)
(** * JSON values and the Python operations on them *)
(* ================================================================== *)

#[local] Set Warnings "-register-all".

Inductive json : Type :=
| JNull
| JBool (b : bool)
| JNum (n : Z)
| JStr (s : string)
| JArr (items : list json)
| JObj (fields : list (string * json)).

Module Py.

(** Truth value: [None], [False], [0], the empty string, list and dict are
    false. *)
Definition truthy (v : json) : bool :=
  match v with
  | JNull => false
  | JBool b => b
  | JNum n => negb (Z.eqb n 0)
  | JStr s => nonempty s
  | JArr l => match l with [] => false | _ => true end
  | JObj f => match f with [] => false | _ => true end
  end.

(** [a or b] *)
Definition or_ (a b : json) : json := if truthy a then a else b.

Fixpoint lookup (key : string) (fields : list (string * json)) : option json :=
  match fields with
  | [] => None
  | (k, v) :: fields' => if String.eqb k key then Some v else lookup key fields'
  end.

(** [d.get(key, default)]; only a dict has the method. *)
Definition get (d : json) (key : string) (default : json) : result json :=
  match d with
  | JObj fields =>
      Ok (match lookup key fields with Some v => v | None => default end)
  | _ => Raise AttributeError
  end.

Fixpoint chars (s : string) : list json :=
  match s with
  | EmptyString => []
  | String c s' => JStr (String c EmptyString) :: chars s'
  end.

(** [for x in v]: the elements of a list, the characters of a string, the
    keys of a dict. *)
Definition iter (v : json) : result (list json) :=
  match v with
  | JArr l => Ok l
  | JStr s => Ok (chars s)
  | JObj f => Ok (map (fun kv => JStr (fst kv)) f)
  | _ => Raise TypeError
  end.

(** [v.lower()]; only a string has the method. *)
Definition lower (v : json) : result string :=
  match v with
  | JStr s => Ok (py_lower s)
  | _ => Raise AttributeError
  end.

(** The elements of an iterable that [str.join] accepts. *)
Fixpoint strings (l : list json) : result (list string) :=
  match l with
  | [] => Ok []
  | JStr s :: l' => ss <- strings l' ;; Ok (s :: ss)
  | _ :: _ => Raise TypeError
  end.

(** [sep.join(v)] *)
Definition join (sep : string) (v : json) : result string :=
  l <- iter v ;; ss <- strings l ;; Ok (py_join sep ss).

Definition decimal (n : Z) : string := NilZero.string_of_int (Z.to_int n).

(** [str(v)] as an f-string prints it. *)
Definition str (v : json) : result string :=
  match v with
  | JNull => Ok "None"
  | JBool true => Ok "True"
  | JBool false => Ok "False"
  | JNum n => Ok (decimal n)
  | JStr s => Ok s
  | JArr _ | JObj _ => Unmodelled
  end.

(** [a < b] as [sorted] asks it of two keys. *)
Definition lt (a b : json) : result bool :=
  match a, b with
  | JStr x, JStr y => Ok (String.ltb x y)
  | JNum x, JNum y => Ok (Z.ltb x y)
  | JNum x, JBool y => Ok (Z.ltb x (Z.b2z y))
  | JBool x, JNum y => Ok (Z.ltb (Z.b2z x) y)
  | JBool x, JBool y => Ok (Z.ltb (Z.b2z x) (Z.b2z y))
  | JArr _, JArr _ => Unmodelled
  | _, _ => Raise TypeError
  end.

(** [a == b] *)
Definition eq (a b : json) : result bool :=
  match a, b with
  | JStr x, JStr y => Ok (String.eqb x y)
  | JNum x, JNum y => Ok (Z.eqb x y)
  | JNum x, JBool y => Ok (Z.eqb x (Z.b2z y))
  | JBool x, JNum y => Ok (Z.eqb (Z.b2z x) y)
  | JBool x, JBool y => Ok (Bool.eqb x y)
  | JNull, JNull => Ok true
  | JArr _, JArr _ | JObj _, JObj _ => Unmodelled
  | _, _ => Ok false
  end.

(** [v in seen] for a list [seen] *)
Fixpoint contains (seen : list json) (v : json) : result bool :=
  match seen with
  | [] => Ok false
  | x :: seen' => b <- eq x v ;; if b then Ok true else contains seen' v
  end.

(** [sorted(l, key=...)] on the pairs (key, element), keys already
    computed: a stable sort that asks only [<] of the keys. *)
Fixpoint insert (x : json * json) (l : list (json * json))
  : result (list (json * json)) :=
  match l with
  | [] => Ok [x]
  | y :: l' =>
      b <- lt (fst y) (fst x) ;;
      if b then r <- insert x l' ;; Ok (y :: r) else Ok (x :: y :: l')
  end.

Fixpoint sort (l : list (json * json)) : result (list (json * json)) :=
  match l with
  | [] => Ok []
  | x :: l' => r <- sort l' ;; insert x r
  end.

End Py.

(* ================================================================== *)
(** * Credit Normalizer ([test.py], [extract_credits]) *)
(* ================================================================== *)

(** [[ac.get("name") for ac in acs if ac.get("name")]] *)
Fixpoint credited_names (acs : list json) : result (list json) :=
  match acs with
  | [] => Ok []
  | ac :: acs' =>
      n <- Py.get ac "name" JNull ;;
      rest <- credited_names acs' ;;
      Ok (if Py.truthy n then n :: rest else rest)
  end.

Definition sentinel : string := "9999-99-99".

(** [lambda r: r.get("date") or "9999-99-99"] *)
Definition release_key (r : json) : result json :=
  d <- Py.get r "date" JNull ;; Ok (Py.or_ d (JStr sentinel)).

(** [sorted(releases, key=...)] *)
Definition sorted_releases (releases : json) : result (list json) :=
  l <- Py.iter releases ;;
  keyed <- mapM (fun r => k <- release_key r ;; Ok (k, r)) l ;;
  s <- Py.sort keyed ;;
  Ok (map snd s).

(** The [credits] dict while the relation loop fills it. *)
Record credits : Type := {
  composer : list json;
  lyricist : list json;
  producer : list json;
  performer : list json
}.

Definition no_credits : credits :=
  {| composer := []; lyricist := []; producer := []; performer := [] |}.

(** The [if]/[elif] chain that finds the name of a relation. *)
Definition relation_name (rel : json) : result json :=
  a <- Py.get rel "artist" JNull ;;
  if Py.truthy a then Py.get a "name" JNull
  else
    tc <- Py.get rel "target-credit" JNull ;;
    if Py.truthy tc then Ok tc
    else
      t <- Py.get rel "target" JNull ;;
      if Py.truthy t then Ok t else Ok JNull.

Definition is_composer (rtype : string) : bool :=
  py_in "compose" rtype || py_in "composer" rtype || py_in "written" rtype.
Definition is_lyricist (rtype : string) : bool := py_in "lyric" rtype.
Definition is_producer (rtype : string) : bool :=
  py_in "produce" rtype || py_in "producer" rtype.
Definition is_performer (rtype : string) : bool :=
  py_in "performer" rtype || py_in "perform" rtype.

Definition append_if (b : bool) (l : list json) (x : json) : list json :=
  if b then (l ++ [x])%list else l.

(** The four independent [if]s at the end of the loop body. *)
Definition classify (rtype : string) (name : json) (c : credits) : credits :=
  {| composer := append_if (is_composer rtype) (composer c) name;
     lyricist := append_if (is_lyricist rtype) (lyricist c) name;
     producer := append_if (is_producer rtype) (producer c) name;
     performer := append_if (is_performer rtype) (performer c) name |}.

(** One turn of [for rel in relations]. *)
Definition relation_step (c : credits) (rel : json) : result credits :=
  t <- Py.get rel "type" (JStr "") ;;
  rtype <- Py.lower t ;;
  name <- relation_name rel ;;
  if negb (Py.truthy name) then Ok c (* continue *)
  else Ok (classify rtype name c).

Fixpoint relation_loop (rels : list json) (c : credits) : result credits :=
  match rels with
  | [] => Ok c
  | rel :: rels' => c' <- relation_step c rel ;; relation_loop rels' c'
  end.

Definition credits_dict (c : credits) : json :=
  JObj [ ("composer", JArr (composer c));
         ("lyricist", JArr (lyricist c));
         ("producer", JArr (producer c));
         ("performer", JArr (performer c)) ].

(** [info["release_title"]] and [info["release_date"]]. *)
Definition release_fields (recording_json : json) : result (json * json) :=
  r0 <- Py.get recording_json "releases" (JArr []) ;;
  let releases := Py.or_ r0 (JArr []) in
  if Py.truthy releases then
    releases_sorted <- sorted_releases releases ;;
    match releases_sorted with
    | first :: _ =>
        t <- Py.get first "title" JNull ;;
        d <- Py.get first "date" JNull ;;
        Ok (t, d)
    | [] => Raise IndexError
    end
  else Ok (JNull, JNull).

(** [relations = ... .get("relations", []) or ... .get("relation-list", [])
    or []] *)
Definition relations_of (recording_json : json) : result json :=
  r1 <- Py.get recording_json "relations" (JArr []) ;;
  if Py.truthy r1 then Ok r1
  else
    r2 <- Py.get recording_json "relation-list" (JArr []) ;;
    Ok (Py.or_ r2 (JArr [])).

Definition extract_credits (recording_json : json) : result json :=
  title_ <- Py.get recording_json "title" JNull ;;
  length_ <- Py.get recording_json "length" JNull ;;
  ac <- Py.get recording_json "artist-credit" (JArr []) ;;
  acs <- Py.iter ac ;;
  artists <- credited_names acs ;;
  rel <- release_fields recording_json ;;
  relations <- relations_of recording_json ;;
  rels <- Py.iter relations ;;
  c <- relation_loop rels no_credits ;;
  Ok (JObj [ ("title", title_);
             ("length_ms", length_);
             ("artists", JArr artists);
             ("release_title", fst rel);
             ("release_date", snd rel);
             ("credits", credits_dict c) ]).


(* ================================================================== *)
(** * The similarity ratio of [difflib] *)
(* ================================================================== *)

(** [SequenceMatcher(None, a, b).ratio()] as Python's library documents it:
    the longest block common to [a] and [b] (the earliest in [a], then the
    earliest in [b], among the longest), the same to the left and to the
    right of it, and [2 * M / T] for [M] matched characters out of [T].
    The library's heuristic for sequences of 200 elements or more is left
    out.  The scorer below takes the ratio as a parameter; this instance
    runs it on concrete titles. *)
Module Difflib.

Fixpoint common_prefix (a b : list ascii) : nat :=
  match a, b with
  | x :: a', y :: b' => if Ascii.eqb x y then S (common_prefix a' b') else 0
  | _, _ => 0
  end.

(** The longest block that starts at the head of [a], over the starts [j],
    [j + 1], ... in [b]; [best] is the pair (start in [b], size) so far. *)
Fixpoint best_in_b (a b : list ascii) (j : nat) (best : nat * nat)
  : nat * nat :=
  let k := common_prefix a b in
  let best' := if (snd best <? k)%nat then (j, k) else best in
  match b with
  | [] => best'
  | _ :: b' => best_in_b a b' (S j) best'
  end.

(** [find_longest_match]: the triple (start in [a], start in [b], size). *)
Fixpoint best_in_a (a b : list ascii) (i : nat) (best : nat * nat * nat)
  : nat * nat * nat :=
  let '(j, k) := best_in_b a b 0 (0, 0) in
  let best' := if (snd best <? k)%nat then (i, j, k) else best in
  match a with
  | [] => best'
  | _ :: a' => best_in_a a' b (S i) best'
  end.

Definition find_longest_match (a b : list ascii) : nat * nat * nat :=
  best_in_a a b 0 (0, 0, 0).

(** The number of matched characters, [fuel] bounding the depth. *)
Fixpoint matched (fuel : nat) (a b : list ascii) : nat :=
  match fuel with
  | O => 0
  | S fuel' =>
      let '(i, j, k) := find_longest_match a b in
      if (k =? 0)%nat then 0
      else matched fuel' (firstn i a) (firstn j b) + k
           + matched fuel' (skipn (i + k) a) (skipn (j + k) b)
  end.

Definition ratio (a b : string) : Q :=
  let la := list_ascii_of_string a in
  let lb := list_ascii_of_string b in
  let t := (List.length la + List.length lb)%nat in
  if (t =? 0)%nat then 1%Q
  else (Z.of_nat (2 * matched (S (List.length la)) la lb) # Pos.of_nat t)%Q.

End Difflib.

(* ================================================================== *)
(** * Candidate Scorer ([test.py], [choose_best_recording]) *)
(* ================================================================== *)

Local Open Scope Q_scope.

(** [x > y] on scores.  The scores are exact rationals: the rounding of
    Python's floats is not part of the embedding.  Two scores that are
    equal as rationals can differ in the last bit as floats ([0.6 * (2/3)]
    is below [0.4 * 1.0] in binary64), so that a tie of the embedding need
    not be a tie of the code; a score of 0, a sum of products with 0, is
    exact, and the claims below rest on that case only. *)
Definition Qgtb (x y : Q) : bool := negb (Qle_bool x y).

Section Scorer.
(** [SequenceMatcher(None, a, b).ratio()] of Python's [difflib], which is
    not code of this repository. *)
Variable ratio : string -> string -> Q.

(** [_similar(a, b)] *)
Definition similar (a b : json) : result Q :=
  la <- Py.lower (Py.or_ a (JStr "")) ;;
  lb <- Py.lower (Py.or_ b (JStr "")) ;;
  Ok (ratio la lb).

(** The body of the loop up to the comparison: the score of [r]. *)
Definition candidate_score (title : string) (artist : option string)
    (r : json) : result Q :=
  rtitle <- Py.get r "title" (JStr "") ;;
  ac <- Py.get r "artist-credit" (JArr []) ;;
  acs <- Py.iter ac ;;
  names <- mapM (fun a => Py.get a "name" (JStr "")) acs ;;
  artist_names <- Py.join " " (JArr names) ;;
  let score := 0 in
  st <- similar (JStr title) rtitle ;;
  let score := score + (6 # 10) * st in
  match artist with
  | Some a =>
      if nonempty a then
        sa <- similar (JStr a) (JStr artist_names) ;;
        Ok (score + (4 # 10) * sa)
      else Ok score
  | None => Ok score
  end.

(** [for r in recordings], with the state ([best], [best_score]). *)
Fixpoint scan (title : string) (artist : option string)
    (recordings : list json) (best : option json) (best_score : Q)
  : result (option json) :=
  match recordings with
  | [] => Ok best
  | r :: recordings' =>
      score <- candidate_score title artist r ;;
      if Qgtb score best_score
      then scan title artist recordings' (Some r) score
      else scan title artist recordings' best best_score
  end.

Definition choose_best_recording (results : json) (title : string)
    (artist : option string) : result (option json) :=
  rs <- Py.get results "recordings" (JArr []) ;;
  recordings <- Py.iter rs ;;
  scan title artist recordings None 0.
End Scorer.

Local Close Scope Q_scope.

(* ================================================================== *)
(** * Deterministic Fact Checker ([test3.py]) *)
(* ================================================================== *)

(** First loop: [if p and p.lower().strip() == aq: return True]. *)
Fixpoint exact_pass (producers : list json) (aq : string) : result bool :=
  match producers with
  | [] => Ok false
  | p :: producers' =>
      if Py.truthy p then
        l <- Py.lower p ;;
        if String.eqb (py_strip l) aq then Ok true
        else exact_pass producers' aq
      else exact_pass producers' aq
  end.

(** Second loop: [if p and aq in p.lower(): return True]. *)
Fixpoint substring_pass (producers : list json) (aq : string) : result bool :=
  match producers with
  | [] => Ok false
  | p :: producers' =>
      if Py.truthy p then
        l <- Py.lower p ;;
        if py_in aq l then Ok true
        else substring_pass producers' aq
      else substring_pass producers' aq
  end.

(** The list [producers] of the function, before the loops. *)
Definition producers_of (info : json) : result json :=
  c <- Py.get info "credits" (JObj []) ;;
  p <- Py.get c "producer" (JArr []) ;;
  Ok (Py.or_ p (JArr [])).

(** The answer is [Some true], [Some false], or [None] for Python's [None]
    (indeterminate). *)
Definition deterministic_producer_check (info : json) (artist_query : string)
  : result (option bool) :=
  if negb (Py.truthy info) then Ok None
  else
    producers <- producers_of info ;;
    if negb (Py.truthy producers) then Ok None
    else
      let aq := py_strip (py_lower artist_query) in
      ps <- Py.iter producers ;;
      hit <- exact_pass ps aq ;;
      if hit then Ok (Some true)
      else
        hit <- substring_pass ps aq ;;
        if hit then Ok (Some true) else Ok (Some false).

(* ================================================================== *)
(** * Context Builder ([test3.py], [build_context_from_info]) *)
(* ================================================================== *)

Definition upper_char (c : ascii) : ascii :=
  let n := nat_of_ascii c in
  if ((97 <=? n) && (n <=? 122))%nat then ascii_of_nat (n - 32) else c.

(** [role.capitalize()] for the ASCII role names. *)
Definition py_capitalize (s : string) : string :=
  match s with
  | EmptyString => EmptyString
  | String c s' => String (upper_char c) (py_lower s')
  end.

Definition newline : string := String "010"%char EmptyString.

(** The de-duplication loop: [seen] and [out] hold the same elements. *)
Fixpoint dedupe (vals out : list json) : result (list json) :=
  match vals with
  | [] => Ok out
  | v :: vals' =>
      if Py.truthy v then
        dup <- Py.contains out v ;;
        if dup then dedupe vals' out else dedupe vals' (out ++ [v])%list
      else dedupe vals' out
  end.

(** The line of one role, if any. *)
Definition role_line (credits_ : json) (role : string) : result (list string) :=
  v <- Py.get credits_ role JNull ;;
  let vals := Py.or_ v (JArr []) in
  if Py.truthy vals then
    l <- Py.iter vals ;;
    out <- dedupe l [] ;;
    j <- Py.join ", " (JArr out) ;;
    Ok [py_capitalize role ++ ": " ++ j]
  else Ok [].

Definition roles : list string :=
  ["composer"; "lyricist"; "producer"; "performer"].

Fixpoint role_lines (credits_ : json) (rs : list string)
  : result (list string) :=
  match rs with
  | [] => Ok []
  | role :: rs' =>
      l <- role_line credits_ role ;;
      ls <- role_lines credits_ rs' ;;
      Ok (l ++ ls)%list
  end.

Definition title_line (info : json) : result (list string) :=
  t0 <- Py.get info "title" JNull ;;
  t <- Py.str (Py.or_ t0 (JStr "Unknown title")) ;;
  Ok ["Title: " ++ t].

Definition artists_line (info : json) : result (list string) :=
  a <- Py.get info "artists" JNull ;;
  let artists := Py.or_ a (JArr []) in
  if Py.truthy artists then
    j <- Py.join ", " artists ;; Ok ["Artist(s): " ++ j]
  else Ok [].

Definition release_line (info : json) : result (list string) :=
  rt <- Py.get info "release_title" JNull ;;
  rd <- Py.get info "release_date" JNull ;;
  if Py.truthy rt || Py.truthy rd then
    let rel := Py.or_ rt (JStr "") in
    let date := Py.or_ rd (JStr "") in
    if Py.truthy date then
      r <- Py.str rel ;; d <- Py.str date ;;
      Ok ["Release: " ++ r ++ " (" ++ d ++ ")"]
    else
      match rel with
      | JStr r => Ok ["Release: " ++ r]
      | _ => Raise TypeError
      end
  else Ok [].

(** [int(v // 1000)] *)
Definition whole_seconds (v : json) : result Z :=
  match v with
  | JNum n => Ok (n / 1000)%Z
  | JBool b => Ok (Z.b2z b / 1000)%Z
  | _ => Raise TypeError
  end.

Definition duration_line (info : json) : result (list string) :=
  l <- Py.get info "length_ms" JNull ;;
  if Py.truthy l then
    secs <- whole_seconds l ;;
    Ok ["Duration_seconds: " ++ Py.decimal secs]
  else Ok [].

Definition mbid_line (info : json) : result (list string) :=
  m <- Py.get info "_mbid" JNull ;;
  if Py.truthy m then s <- Py.str m ;; Ok ["MBID: " ++ s] else Ok [].

(** The list [lines] at the [return]. *)
Definition build_context_lines (info : json) : result (list string) :=
  l1 <- title_line info ;;
  l2 <- artists_line info ;;
  l3 <- release_line info ;;
  l4 <- duration_line info ;;
  c <- Py.get info "credits" (JObj []) ;;
  l5 <- role_lines (Py.or_ c (JObj [])) roles ;;
  l6 <- mbid_line info ;;
  Ok (l1 ++ l2 ++ l3 ++ l4 ++ l5 ++ l6)%list.

Definition build_context_from_info (info : json) : result string :=
  lines <- build_context_lines info ;;
  Ok (py_join newline lines).


(* ================================================================== *)
(** * The vocabulary of the claims *)
(* ================================================================== *)

(** The definitions below are not code of the repository: they name the
    shapes of the data, the quantities the claims speak of, and the sample
    inputs on which the functions are run. *)

(** The string is empty or starts with a character that is not white
    space. *)
Definition starts_nonspace (s : string) : bool :=
  match s with "" => true | String c _ => negb (isspace c) end.

(** No character of [s] is accepted by the literal [l]. *)
Fixpoint lacks (l : ascii) (s : string) : bool :=
  match s with
  | "" => true
  | String c s' => negb (Re.accepts (Re.Lit l) c) && lacks l s'
  end.

(** The pattern asks for the literal [l] exactly once somewhere. *)
Definition mentions (l : ascii) (p : Re.pattern) : bool :=
  existsb (fun it =>
             match it with
             | Re.Atom Re.Once (Re.Lit c) => Ascii.eqb c l
             | _ => false
             end) p.

(** The names of the groups of a pattern, in order. *)
Definition group_names (p : Re.pattern) : list string :=
  flat_map (fun it =>
              match it with
              | Re.Group name _ _ => [name]
              | Re.Atom _ _ => []
              end) p.

(** The character occurs in the string. *)
Fixpoint has_char (c : ascii) (s : string) : bool :=
  match s with
  | "" => false
  | String d s' => Ascii.eqb d c || has_char c s'
  end.

(** [v[key]] when [v] is an object that has the key. *)
Definition field (v : json) (key : string) : option json :=
  match v with
  | JObj f => Py.lookup key f
  | _ => None
  end.

(** The strings of a list whose elements are all strings. *)
Fixpoint all_strings (l : list json) : option (list string) :=
  match l with
  | [] => Some []
  | JStr s :: l' =>
      match all_strings l' with
      | Some ss => Some (s :: ss)
      | None => None
      end
  | _ :: _ => None
  end.

(** The producer-credit list of a record: the strings under
    [credits.producer], none when the key (or [credits]) is missing or null.
    [None] when [info] is not such a record. *)
Definition producer_credits (info : json) : option (list string) :=
  match info with
  | JObj f =>
      match Py.lookup "credits" f with
      | None => Some []
      | Some (JObj c) =>
          match Py.lookup "producer" c with
          | None | Some JNull => Some []
          | Some (JArr l) => all_strings l
          | Some _ => None
          end
      | Some _ => None
      end
  | _ => None
  end.

(** The tests of the two loops on one producer name. *)
Definition exact_match (aq p : string) : bool :=
  nonempty p && String.eqb (py_strip (py_lower p)) aq.
Definition substring_match (aq p : string) : bool :=
  nonempty p && py_in aq (py_lower p).

(** The record of the design document's example: one producer. *)
Definition skeletons : json :=
  JObj [ ("title", JStr "SKELETONS");
         ("length_ms", JNum 145000);
         ("artists", JArr [JStr "Travis Scott"]);
         ("release_title", JStr "ASTROWORLD");
         ("release_date", JStr "2018-08-03");
         ("credits", JObj [ ("composer", JArr []);
                            ("lyricist", JArr []);
                            ("producer", JArr [JStr "Tame Impala"]);
                            ("performer", JArr []) ]) ].

(** A record whose only producer name is the empty string. *)
Definition empty_name_record : json :=
  JObj [("credits", JObj [("producer", JArr [JStr ""])])].

(** The single-pass variant of the design document: the same function with
    the first loop (the exact test) left out. *)
Definition substring_only_check (info : json) (artist_query : string)
  : result (option bool) :=
  if negb (Py.truthy info) then Ok None
  else
    producers <- producers_of info ;;
    if negb (Py.truthy producers) then Ok None
    else
      let aq := py_strip (py_lower artist_query) in
      ps <- Py.iter producers ;;
      hit <- substring_pass ps aq ;;
      if hit then Ok (Some true) else Ok (Some false).

(** The shape of a raw recording entity.  Every field is optional.  What
    the code iterates over is an array, what it calls [.get] on is an
    object, a relation type is a string, and a release date is a string or
    null. *)
Definition is_obj (v : json) : bool :=
  match v with JObj _ => true | _ => false end.

Definition wf_release (r : json) : bool :=
  match r with
  | JObj f =>
      match Py.lookup "date" f with
      | None | Some JNull | Some (JStr _) => true
      | Some _ => false
      end
  | _ => false
  end.

Definition wf_relation (rel : json) : bool :=
  match rel with
  | JObj f =>
      match Py.lookup "type" f with
      | None | Some (JStr _) => true
      | Some _ => false
      end
      && match Py.lookup "artist" f with
         | None => true
         | Some a => negb (Py.truthy a) || is_obj a
         end
  | _ => false
  end.

(** An optional array whose elements satisfy [P]; null counts as absent. *)
Definition wf_array (P : json -> bool) (o : option json) : bool :=
  match o with
  | None | Some JNull => true
  | Some (JArr l) => forallb P l
  | Some _ => false
  end.

Definition wf_entity (e : json) : bool :=
  match e with
  | JObj f =>
      match Py.lookup "artist-credit" f with
      | None => true
      | Some (JArr l) => forallb is_obj l
      | Some _ => false
      end
      && wf_array wf_release (Py.lookup "releases" f)
      && wf_array wf_relation (Py.lookup "relations" f)
      && wf_array wf_relation (Py.lookup "relation-list" f)
  | _ => false
  end.

(** The elements of an optional array. *)
Definition elements (o : option json) : list json :=
  match o with
  | Some (JArr l) => l
  | _ => []
  end.

(** The value of an optional field, [None] as Python's [None]. *)
Definition value (o : option json) : json :=
  match o with Some v => v | None => JNull end.

Definition populated (o : option json) : bool := Py.truthy (value o).

(** The stable insertion sort on string keys. *)
Fixpoint insert_key (x : string * json) (l : list (string * json))
  : list (string * json) :=
  match l with
  | [] => [x]
  | y :: l' =>
      if String.ltb (fst y) (fst x) then y :: insert_key x l'
      else x :: y :: l'
  end.

Fixpoint sort_keys (l : list (string * json)) : list (string * json) :=
  match l with
  | [] => []
  | x :: l' => insert_key x (sort_keys l')
  end.

Definition jkey (kr : string * json) : json * json := (JStr (fst kr), snd kr).

(** A date as the catalog writes it: [YYYY], [YYYY-MM] or [YYYY-MM-DD] in
    decimal digits, the month starting with 0 or 1. *)
Definition is_digit (c : ascii) : bool :=
  let n := nat_of_ascii c in ((48 <=? n) && (n <=? 57))%nat.

Definition real_date (s : string) : bool :=
  match s with
  | String y1 (String y2 (String y3 (String y4 rest))) =>
      is_digit y1 && is_digit y2 && is_digit y3 && is_digit y4
      && match rest with
         | "" => true
         | String dash (String m1 (String m2 rest')) =>
             Ascii.eqb dash "-" && (Ascii.eqb m1 "0" || Ascii.eqb m1 "1")
             && is_digit m2
             && match rest' with
                | "" => true
                | String dash' (String d1 (String d2 "")) =>
                    Ascii.eqb dash' "-" && is_digit d1 && is_digit d2
                | _ => false
                end
         | _ => false
         end
  | _ => false
  end.

(** The sort key of a release: its date, the sentinel when the date is
    missing, null or empty. *)
Definition date_key (r : json) : string :=
  match field r "date" with
  | Some (JStr (String c d)) => String c d
  | _ => sentinel
  end.

Definition keyed (r : json) : string * json := (date_key r, r).

(** The type label of a relation, lower-cased. *)
Definition rel_type (rel : json) : string :=
  match field rel "type" with
  | Some (JStr t) => py_lower t
  | _ => ""
  end.

(** The name of a relation: that of the artist object when the object is
    populated, else the credited name when populated, else the target when
    populated, else none. *)
Definition rel_name (rel : json) : json :=
  if populated (field rel "artist")
  then value (field (value (field rel "artist")) "name")
  else if populated (field rel "target-credit")
       then value (field rel "target-credit")
       else if populated (field rel "target")
            then value (field rel "target")
            else JNull.

(** What a relation adds to the list of a role, [test] being the keyword
    test of the role. *)
Definition contribution (test : string -> bool) (rel : json) : list json :=
  if Py.truthy (rel_name rel) && test (rel_type rel) then [rel_name rel]
  else [].

(** The relation list that the function reads: [relations], or the legacy
    [relation-list] when the first is missing or empty. *)
Definition relation_list (e : json) : list json :=
  match elements (field e "relations") with
  | [] => elements (field e "relation-list")
  | l => l
  end.

Definition artist_name (ac : json) : json := value (field ac "name").

Definition add_contributions (rels : list json) (c : credits) : credits :=
  {| composer := composer c ++ flat_map (contribution is_composer) rels;
     lyricist := lyricist c ++ flat_map (contribution is_lyricist) rels;
     producer := producer c ++ flat_map (contribution is_producer) rels;
     performer :=
       performer c ++ flat_map (contribution is_performer) rels |}%list.

(** A recording as the catalog returns it. *)
Definition bohemian : json :=
  JObj [ ("id", JStr "b1a9c0e9");
         ("title", JStr "Bohemian Rhapsody");
         ("length", JNum 354000);
         ("artist-credit", JArr [ JObj [("name", JStr "Queen")];
                                  JObj [("name", JStr "")] ]);
         ("releases",
          JArr [ JObj [("title", JStr "Greatest Hits");
                       ("date", JStr "1981-10-26")];
                 JObj [("title", JStr "A Night at the Opera");
                       ("date", JStr "1975-11-21")];
                 JObj [("title", JStr "Promo")] ]);
         ("relations",
          JArr [ JObj [("type", JStr "producer");
                       ("artist", JObj [("name", JStr "Roy Thomas Baker")])];
                 JObj [("type", JStr "Composer and Lyricist");
                       ("target-credit", JStr "Freddie Mercury")];
                 JObj [("type", JStr "vocal");
                       ("target", JStr "Freddie Mercury")];
                 JObj [("type", JStr "performer")] ]) ].

(** A relation whose artist object has an identifier and no name. *)
Definition nameless_artist : json :=
  JObj [ ("type", JStr "producer");
         ("artist", JObj [("id", JStr "a74b1b7f")]);
         ("target-credit", JStr "George Martin") ].

(** An entity that has nothing but an identifier. *)
Definition bare_entity : json := JObj [("id", JStr "b1a9c0e9")].

(** The shape of a normalized record: every field optional (missing or
    null), titles, dates and the identifier strings, the length a number,
    the artists and every credit role a list of strings. *)
Definition is_str (v : json) : bool :=
  match v with JStr _ => true | _ => false end.

Definition opt_str (o : option json) : bool :=
  match o with
  | None | Some JNull | Some (JStr _) => true
  | Some _ => false
  end.

Definition opt_num (o : option json) : bool :=
  match o with
  | None | Some JNull | Some (JNum _) => true
  | Some _ => false
  end.

Definition opt_strings (o : option json) : bool := wf_array is_str o.

Definition wf_credits (o : option json) : bool :=
  match o with
  | None | Some JNull => true
  | Some (JObj c) => forallb (fun role => opt_strings (Py.lookup role c)) roles
  | Some _ => false
  end.

Definition wf_info (info : json) : bool :=
  match info with
  | JObj f =>
      opt_str (Py.lookup "title" f)
      && opt_strings (Py.lookup "artists" f)
      && opt_str (Py.lookup "release_title" f)
      && opt_str (Py.lookup "release_date" f)
      && opt_num (Py.lookup "length_ms" f)
      && wf_credits (Py.lookup "credits" f)
      && opt_str (Py.lookup "_mbid" f)
  | _ => false
  end.

(** The fields of the fact sheet and the labels of their lines. *)
Inductive sheet_field : Type :=
| FTitle | FArtists | FRelease | FDuration
| FComposer | FLyricist | FProducer | FPerformer | FMbid.

Definition label (f : sheet_field) : string :=
  match f with
  | FTitle => "Title: "
  | FArtists => "Artist(s): "
  | FRelease => "Release: "
  | FDuration => "Duration_seconds: "
  | FComposer => "Composer: "
  | FLyricist => "Lyricist: "
  | FProducer => "Producer: "
  | FPerformer => "Performer: "
  | FMbid => "MBID: "
  end.

Definition role_data (info : json) (role : string) : bool :=
  populated (field (value (field info "credits")) role).

(** The record has data for the field. *)
Definition has_data (f : sheet_field) (info : json) : bool :=
  match f with
  | FTitle => populated (field info "title")
  | FArtists => populated (field info "artists")
  | FRelease =>
      populated (field info "release_title")
      || populated (field info "release_date")
  | FDuration => populated (field info "length_ms")
  | FComposer => role_data info "composer"
  | FLyricist => role_data info "lyricist"
  | FProducer => role_data info "producer"
  | FPerformer => role_data info "performer"
  | FMbid => populated (field info "_mbid")
  end.

(** The sheet has a line for the field. *)
Definition has_line (f : sheet_field) (lines : list string) : bool :=
  existsb (prefix (label f)) lines.

Definition optional_fields : list sheet_field :=
  [FArtists; FRelease; FDuration; FComposer; FLyricist; FProducer;
   FPerformer; FMbid].

(** The line of a field, present when [b]. *)
Definition line_if (b : bool) (f : sheet_field) (text : string) : list string :=
  if b then [label f ++ text] else [].

Definition field_eqb (f g : sheet_field) : bool :=
  match f, g with
  | FTitle, FTitle | FArtists, FArtists | FRelease, FRelease
  | FDuration, FDuration | FComposer, FComposer | FLyricist, FLyricist
  | FProducer, FProducer | FPerformer, FPerformer | FMbid, FMbid => true
  | _, _ => false
  end.

Definition credits_fields (f : list (string * json)) : list (string * json) :=
  match Py.lookup "credits" f with
  | Some (JObj c) => c
  | _ => []
  end.

(** A record with a title, and the record of an entity that has none. *)
Definition bohemian_record : json :=
  JObj [ ("title", JStr "Bohemian Rhapsody");
         ("length_ms", JNum 354000);
         ("artists", JArr [JStr "Queen"]);
         ("release_title", JStr "A Night at the Opera");
         ("release_date", JStr "1975-11-21");
         ("credits",
          JObj [ ("composer", JArr [JStr "Freddie Mercury"]);
                 ("lyricist", JArr [JStr "Freddie Mercury"]);
                 ("producer", JArr [JStr "Roy Thomas Baker";
                                    JStr "Roy Thomas Baker"]);
                 ("performer", JArr []) ]);
         ("_mbid", JStr "b1a9c0e9") ].

Definition untitled_record : json :=
  JObj [ ("title", JNull);
         ("length_ms", JNull);
         ("artists", JArr []);
         ("release_title", JNull);
         ("release_date", JNull);
         ("credits",
          JObj [ ("composer", JArr []); ("lyricist", JArr []);
                 ("producer", JArr []); ("performer", JArr []) ]);
         ("_mbid", JStr "b1a9c0e9") ].

(** The scan on candidates whose scores are known: [best] changes on a
    strictly greater score only. *)
Fixpoint pick (l : list (json * Q)) (best : option json) (best_score : Q)
  : option json :=
  match l with
  | [] => best
  | (r, score) :: l' =>
      if Qgtb score best_score then pick l' (Some r) score
      else pick l' best best_score
  end.

(** A search result with one candidate, and the same with two candidates
    of the same title. *)
Definition spelled_out : json :=
  JObj [("id", JStr "c7a1d0f5"); ("title", JStr "Nineteen Seventy-Nine")].
Definition spelled_out' : json :=
  JObj [("id", JStr "e04b9d12"); ("title", JStr "Nineteen Seventy-Nine")].
Definition one_candidate : json := JObj [("recordings", JArr [spelled_out])].
Definition two_candidates : json :=
  JObj [("recordings", JArr [spelled_out; spelled_out'])].

(* ================================================================== *)
(** * Candidate Lister ([test3.py], [list_top_candidates]) *)
(* ================================================================== *)

(** [a == b] on decoded JSON values, as [list.remove] asks it of two
    recordings: two dicts are equal when they have the same number of keys
    and equal values under each key, whatever the order of the keys; two
    lists when they have equal elements at each position; [True] and
    [False] are the numbers 1 and 0. *)
Fixpoint equal (a b : json) : bool :=
  match a, b with
  | JNull, JNull => true
  | JBool x, JBool y => Bool.eqb x y
  | JBool x, JNum y => Z.eqb (Z.b2z x) y
  | JNum x, JBool y => Z.eqb x (Z.b2z y)
  | JNum x, JNum y => Z.eqb x y
  | JStr x, JStr y => String.eqb x y
  | JArr l, JArr m =>
      (fix elements_equal (l m : list json) : bool :=
         match l, m with
         | [], [] => true
         | x :: l', y :: m' => equal x y && elements_equal l' m'
         | _, _ => false
         end) l m
  | JObj f, JObj g =>
      Nat.eqb (List.length f) (List.length g)
      && (fix values_equal (f : list (string * json)) : bool :=
            match f with
            | [] => true
            | (k, v) :: f' =>
                match Py.lookup k g with
                | Some w => equal v w
                | None => false
                end
                && values_equal f'
            end) f
  | _, _ => false
  end.

Local Open Scope Q_scope.

(** [" ".join([ac.get("name","") for ac in r.get("artist-credit", [])])] *)
Definition artist_names (r : json) : result string :=
  ac <- Py.get r "artist-credit" (JArr []) ;;
  acs <- Py.iter ac ;;
  names <- mapM (fun a => Py.get a "name" (JStr "")) acs ;;
  Py.join " " (JArr names).

(** The [if title_query and rtitle:] block: what the title adds to the
    score. *)
Definition title_points (title_query : string) (rtitle : json) : result Q :=
  if nonempty title_query && Py.truthy rtitle then
    lt <- Py.lower rtitle ;;
    if String.eqb (py_lower title_query) lt then Ok (7 # 10)
    else if py_in (py_lower title_query) lt || py_in lt (py_lower title_query)
         then Ok (5 # 10)
         else Ok 0
  else Ok 0.

(** The [if artist_query:] block: what the artist adds to the score. *)
Definition artist_points (artist_query : option string) (names : string) : Q :=
  match artist_query with
  | Some a =>
      if nonempty a then
        if py_in (py_lower a) (py_lower names)
           || py_in (py_lower names) (py_lower a)
        then 3 # 10 else 0
      else 0
  | None => 0
  end.

(** The body of the inner loop up to the comparison: the score of [r].  The
    twelve sums that the three blocks can give are ordered as Python's
    floats order them. *)
Definition presentation_score (title_query : string)
    (artist_query : option string) (r : json) : result Q :=
  rtitle <- Py.get r "title" (JStr "") ;;
  names <- artist_names r ;;
  let score := 0 in
  tp <- title_points title_query rtitle ;;
  let score := score + tp in
  let score := score + artist_points artist_query names in
  rel <- Py.get r "releases" JNull ;;
  Ok (if Py.truthy rel then score + (1 # 100) else score).

(** [for r in rec_list] with the state ([best], [best_score]).  [best] is a
    reference to an element of the list: the element and its position
    ([i] is the position of the head of [rec_list]). *)
Fixpoint top_scan (title_query : string) (artist_query : option string)
    (rec_list : list json) (i : nat) (best : option (nat * json))
    (best_score : Q) : result (option (nat * json)) :=
  match rec_list with
  | [] => Ok best
  | r :: rec_list' =>
      score <- presentation_score title_query artist_query r ;;
      if Qgtb score best_score
      then top_scan title_query artist_query rec_list' (S i) (Some (i, r)) score
      else top_scan title_query artist_query rec_list' (S i) best best_score
  end.

(** [rec_list.remove(best)] for the element [best] at position [i]: the
    first element that is [best] itself or equal to it goes.  Without such
    an element Python raises ValueError, which cannot happen for a position
    of the list. *)
Fixpoint remove (i : nat) (best : json) (rec_list : list json)
  : result (list json) :=
  match rec_list with
  | [] => Unmodelled
  | x :: rec_list' =>
      match i with
      | O => Ok rec_list'
      | S i' =>
          if equal x best then Ok rec_list'
          else r <- remove i' best rec_list' ;; Ok (x :: r)
      end
  end.

(** [for _ in range(n)]: one scan, then [if best:]. *)
Fixpoint top_loop (title_query : string) (artist_query : option string)
    (n : nat) (rec_list candidates : list json) : result (list json) :=
  match n with
  | O => Ok candidates
  | S n' =>
      b <- top_scan title_query artist_query rec_list 0 None (-1) ;;
      match b with
      | Some (i, best) =>
          if Py.truthy best then
            rec_list' <- remove i best rec_list ;;
            top_loop title_query artist_query n' rec_list'
              (candidates ++ [best])%list
          else Ok candidates (* break *)
      | None => Ok candidates (* break *)
      end
  end.

Definition list_top_candidates (search_res : json) (title_query : string)
    (artist_query : option string) : result (list json) :=
  r0 <- Py.get search_res "recordings" (JArr []) ;;
  let recs := Py.or_ r0 (JArr []) in
  rec_list <- Py.iter recs ;;
  top_loop title_query artist_query (Nat.min 3 (List.length rec_list))
    rec_list [].

Local Close Scope Q_scope.

(* ================================================================== *)
(** * Candidate Chooser ([test3.py], [choose_candidate_interactively]) *)
(* ================================================================== *)

(** [len(v)] *)
Definition py_len (v : json) : result nat :=
  match v with
  | JArr l => Ok (List.length l)
  | JStr s => Ok (String.length s)
  | JObj f => Ok (List.length f)
  | _ => Raise TypeError
  end.

(** [v[0]].  A dict decoded from JSON has strings for keys, so that [v[0]]
    on a dict is a KeyError, which is not among the exceptions of the
    embedding. *)
Definition first_item (v : json) : result json :=
  match v with
  | JArr (x :: _) => Ok x
  | JArr [] => Raise IndexError
  | JStr (String c _) => Ok (JStr (String c EmptyString))
  | JStr EmptyString => Raise IndexError
  | JObj _ => Unmodelled
  | _ => Raise TypeError
  end.

(** The double quote (code 34). *)
Definition dquote : string := String "034"%char EmptyString.

(** The outcome of a function that reads the console: what it returns or
    raises, with the lines that it has left unread, or the EOFError of
    [input()] when no line is left, which the function does not catch. *)
Inductive console (A : Type) : Type :=
| Returned (r : result A) (unread : list string)
| EndOfInput.
Arguments Returned {A} r unread.
Arguments EndOfInput {A}.

(** A step that reads no line, then the rest of the function. *)
Definition run {A B : Type} (m : result A) (unread : list string)
    (k : A -> console B) : console B :=
  match m with
  | Ok a => k a
  | Raise e => Returned (Raise e) unread
  | Unmodelled => Returned Unmodelled unread
  end.

(** [int(choice) - 1] for the three choices; nothing for another line. *)
Definition choice_index (choice : string) : option nat :=
  if String.eqb choice "1" then Some 0%nat
  else if String.eqb choice "2" then Some 1%nat
  else if String.eqb choice "3" then Some 2%nat
  else None.

(** The [while True] loop, one line of the console per turn.  Python's
    [None] is the value [JNull]. *)
Fixpoint choice_loop (candidates : list json) (inputs : list string)
  : console json :=
  match inputs with
  | [] => EndOfInput
  | line :: inputs' =>
      let choice := py_lower (py_strip line) in
      if String.eqb choice "" then
        Returned (first_item (JArr candidates)) inputs'
      else if String.eqb choice "c" then Returned (Ok JNull) inputs'
      else
        match choice_index choice with
        | Some idx =>
            match nth_error candidates idx with
            | Some c => Returned (Ok c) inputs' (* idx < len(candidates) *)
            | None => choice_loop candidates inputs'
            end
        | None => choice_loop candidates inputs'
        end
  end.

Section Chooser.
(** The em dash of the menu, a character outside Latin-1. *)
Variable em_dash : string.

Definition pretty_candidate_line (idx : Z) (r : json) : result string :=
  title_ <- Py.get r "title" (JStr "Unknown") ;;
  ac <- Py.get r "artist-credit" (JArr []) ;;
  artists <- (if Py.truthy ac then
                acs <- Py.iter ac ;;
                names <- mapM (fun a => Py.get a "name" (JStr "")) acs ;;
                Py.join ", " (JArr names)
              else Ok "Unknown") ;;
  r0 <- Py.get r "releases" JNull ;;
  let rels := Py.or_ r0 (JArr []) in
  rel_str <- (if Py.truthy rels then
                rel <- first_item rels ;;
                t <- Py.get rel "title" JNull ;;
                let rel_title := Py.or_ t (JStr "") in
                d <- Py.get rel "date" JNull ;;
                let rel_date := Py.or_ d (JStr "") in
                ts <- Py.str rel_title ;;
                if Py.truthy rel_date then
                  ds <- Py.str rel_date ;; Ok (ts ++ " (" ++ ds ++ ")")
                else Ok ts
              else Ok "") ;;
  mbid <- Py.get r "id" JNull ;;
  ts <- Py.str title_ ;;
  ms <- Py.str mbid ;;
  Ok (Py.decimal idx ++ ". " ++ dquote ++ ts ++ dquote ++ " " ++ em_dash
      ++ " " ++ artists
      ++ (if nonempty rel_str then " | Release: " ++ rel_str else "")
      ++ " | MBID: " ++ ms).

(** [for i, c in enumerate(candidates, start=1)]: the lines of the menu. *)
Fixpoint menu_lines (i : Z) (candidates : list json) : result (list string) :=
  match candidates with
  | [] => Ok []
  | c :: candidates' =>
      l <- pretty_candidate_line i c ;;
      ls <- menu_lines (i + 1) candidates' ;;
      Ok (l :: ls)
  end.

(** What the function prints is left out; that the lines of the menu are
    computed before the first line is read is kept. *)
Definition choose_candidate_interactively (search_res : json)
    (title : string) (artist : option string) (inputs : list string)
  : console json :=
  run (Py.get search_res "recordings" (JArr [])) inputs (fun r0 =>
  let recs := Py.or_ r0 (JArr []) in
  if negb (Py.truthy recs) then Returned (Ok JNull) inputs
  else
    run (py_len recs) inputs (fun n =>
    if (n =? 1)%nat then Returned (first_item recs) inputs
    else
      run (list_top_candidates search_res title artist) inputs
        (fun candidates =>
      match candidates with
      | [] => Returned (first_item recs) inputs
      | _ :: _ =>
          run (menu_lines 1 candidates) inputs (fun _ =>
          choice_loop candidates inputs)
      end))).
End Chooser.

(* ================================================================== *)
(** * Retrieval ([test3.py], [retrieve_with_choice]) *)
(* ================================================================== *)

(** [d[key] = v] on the fields of a dict: the value of the key is replaced
    where the key stands, a new key goes to the end. *)
Fixpoint set_item (key : string) (v : json) (fields : list (string * json))
  : list (string * json) :=
  match fields with
  | [] => [(key, v)]
  | (k, x) :: fields' =>
      if String.eqb k key then (k, v) :: fields'
      else (k, x) :: set_item key v fields'
  end.

(** A step that reads the console, then the rest of the function. *)
Definition and_then {A B : Type} (m : console A)
    (k : A -> list string -> console B) : console B :=
  match m with
  | Returned (Ok a) unread => k a unread
  | Returned (Raise e) unread => Returned (Raise e) unread
  | Returned Unmodelled unread => Returned Unmodelled unread
  | EndOfInput => EndOfInput
  end.

Section Retriever.
Variable em_dash : string.
(** The two calls to the catalog, [search_recordings(title, artist, limit)]
    and [fetch_recording_relations(mbid)]: the decoded answer, or nothing
    when the call raises (a failure of the network, an HTTP error status,
    an answer that is not JSON), which [except Exception] catches. *)
Variable search_recordings : string -> option string -> nat -> option json.
Variable fetch_recording_relations : json -> option json.

(** From [mbid = chosen_recording.get("id")] to the end.  An exception of
    [extract_credits] is caught like one of the fetch. *)
Definition retrieve_chosen (chosen_recording : json) (unread : list string)
  : console json :=
  run (Py.get chosen_recording "id" JNull) unread (fun mbid =>
  match fetch_recording_relations mbid with
  | None => Returned (Ok JNull) unread
  | Some full =>
      match extract_credits full with
      | Ok (JObj info) => Returned (Ok (JObj (set_item "_mbid" mbid info))) unread
      | Ok _ => Returned (Ok JNull) unread (* TypeError, caught *)
      | Raise _ => Returned (Ok JNull) unread
      | Unmodelled => Returned Unmodelled unread
      end
  end).

Definition retrieve_with_choice (title : string) (artist : option string)
    (inputs : list string) : console json :=
  match search_recordings title artist 10 with
  | None => Returned (Ok JNull) inputs
  | Some search_res =>
      run (Py.get search_res "recordings" (JArr [])) inputs (fun r0 =>
      let recs := Py.or_ r0 (JArr []) in
      if negb (Py.truthy recs) then Returned (Ok JNull) inputs
      else
        run (py_len recs) inputs (fun n =>
        if (1 <? n)%nat then
          and_then
            (choose_candidate_interactively em_dash search_res title artist
               inputs)
            (fun chosen_recording unread =>
               if negb (Py.truthy chosen_recording)
               then Returned (Ok JNull) unread
               else retrieve_chosen chosen_recording unread)
        else
          run (first_item recs) inputs (fun chosen_recording =>
          retrieve_chosen chosen_recording inputs)))
  end.
End Retriever.

(* ================================================================== *)
(** * Response Formatter ([test.py], [format_response]) *)
(* ================================================================== *)

(** A value that can be the key of a dict: anything but a list or a
    dict. *)
Definition hashable (v : json) : bool :=
  match v with
  | JArr _ | JObj _ => false
  | _ => true
  end.

(** [dict.fromkeys(vals)], as the list of its keys in the order of
    insertion: every value once, where it first occurs. *)
Fixpoint fromkeys (vals keys : list json) : result (list json) :=
  match vals with
  | [] => Ok keys
  | v :: vals' =>
      if hashable v then
        dup <- Py.contains keys v ;;
        if dup then fromkeys vals' keys else fromkeys vals' (keys ++ [v])%list
      else Raise TypeError
  end.

(** One [if credits.get(role):] block: the line of the role, if any. *)
Definition credit_line (credits_ : json) (role label : string)
  : result (list string) :=
  v <- Py.get credits_ role JNull ;;
  if Py.truthy v then
    l <- Py.iter v ;;
    keys <- fromkeys l [] ;;
    j <- Py.join ", " (JArr keys) ;;
    Ok [label ++ j]
  else Ok [].

(** [f"{x:02d}"] *)
Definition pad2 (x : Z) : string :=
  let s := Py.decimal x in
  if (String.length s <? 2)%nat then "0" ++ s else s.

Section Formatter.
(** The em dash of the apology, a character outside Latin-1. *)
Variable em_dash : string.

Definition format_response (info : json) : result string :=
  if negb (Py.truthy info) then
    Ok ("Sorry " ++ em_dash ++ " I couldn't find details for that song.")
  else
    t <- Py.get info "title" (JStr "Unknown title") ;;
    ts <- Py.str t ;;
    let parts := ["**" ++ ts ++ "**"] in
    a <- Py.get info "artists" JNull ;;
    by_line <- (if Py.truthy a then
                  j <- Py.join ", " a ;; Ok ["by " ++ j]
                else Ok []) ;;
    rt <- Py.get info "release_title" JNull ;;
    rd <- Py.get info "release_date" JNull ;;
    released <- (if Py.truthy rt || Py.truthy rd then
                   let rel := Py.or_ rt (JStr "") in
                   let date := Py.or_ rd (JStr "") in
                   r <- Py.str rel ;;
                   if Py.truthy date then
                     d <- Py.str date ;;
                     Ok ["Released: " ++ r ++ " (" ++ d ++ ")"]
                   else Ok ["Released: " ++ r]
                 else Ok []) ;;
    credits_ <- Py.get info "credits" (JObj []) ;;
    c1 <- credit_line credits_ "composer" "Written by: " ;;
    c2 <- credit_line credits_ "producer" "Produced by: " ;;
    c3 <- credit_line credits_ "lyricist" "Lyrics: " ;;
    let credit_lines := (c1 ++ c2 ++ c3)%list in
    let credited :=
      match credit_lines with
      | [] => []
      | _ :: _ => [py_join " | " credit_lines]
      end in
    l <- Py.get info "length_ms" JNull ;;
    duration <- (if Py.truthy l then
                   secs <- whole_seconds l ;;
                   Ok ["Duration: " ++ Py.decimal (secs / 60) ++ ":"
                       ++ pad2 (secs mod 60)]
                 else Ok []) ;;
    Ok (py_join newline
          (parts ++ by_line ++ released ++ credited ++ duration)%list).
End Formatter.

(* ================================================================== *)
(** * The regular expressions of the question parsers *)
(* ================================================================== *)

(** The patterns of [parse_yesno_producer_question] and
    [split_title_and_perf] need more than those of the query parser: the
    anchors [^] and [$], the quantifier [*], an optional group around a
    sequence, and the place where a match ends.  The classes are those of
    [Re]. *)
Module Rx.

(** Quantifiers: exactly one, [?], [*], [+] and [+?]. *)
Inductive quant : Type := Once | Opt | Star | Plus | PlusLazy.

Section Quantified.
Variable R : Type.
Variable k : Re.cclass.
(** What follows the class: given the text it consumed and the rest. *)
Variable next : string -> string -> option R.

Definition q_once (s : string) : option R :=
  match s with
  | String c s' =>
      if Re.accepts k c then next (String c EmptyString) s' else None
  | EmptyString => None
  end.

(** Greedy [?]: take the character first, give it back on failure. *)
Definition q_opt (s : string) : option R :=
  match q_once s with
  | Some r => Some r
  | None => next EmptyString s
  end.

(** Greedy [+]: the longest run first, shortened on failure. *)
Fixpoint q_plus (taken s : string) : option R :=
  match s with
  | String c s' =>
      if Re.accepts k c then
        let taken' := taken ++ String c EmptyString in
        match q_plus taken' s' with
        | Some r => Some r
        | None => next taken' s'
        end
      else None
  | EmptyString => None
  end.

(** Greedy [*]: as [+], and the empty run last. *)
Definition q_star (s : string) : option R :=
  match q_plus EmptyString s with
  | Some r => Some r
  | None => next EmptyString s
  end.

(** Lazy [+?]: one character first, lengthened on failure. *)
Fixpoint q_plus_lazy (taken s : string) : option R :=
  match s with
  | String c s' =>
      if Re.accepts k c then
        let taken' := taken ++ String c EmptyString in
        match next taken' s' with
        | Some r => Some r
        | None => q_plus_lazy taken' s'
        end
      else None
  | EmptyString => None
  end.

Definition q_quant (q : quant) (s : string) : option R :=
  match q with
  | Once => q_once s
  | Opt => q_opt s
  | Star => q_star s
  | Plus => q_plus EmptyString s
  | PlusLazy => q_plus_lazy EmptyString s
  end.
End Quantified.

(** A pattern is a sequence of items: a quantified class, a named group
    around one, the anchors [^] and [$], and a greedy optional group
    [(...)?] around a sequence of quantified classes. *)
Inductive item : Type :=
| Atom (q : quant) (k : Re.cclass)
| Group (name : string) (q : quant) (k : Re.cclass)
| Bol
| Eol
| Maybe (atoms : list (quant * Re.cclass)).

Definition pattern : Type := list item.

(** A match: its named groups and the text that follows it. *)
Definition found : Type := Re.captures * string.

Definition is_empty (s : string) : bool :=
  match s with EmptyString => true | String _ _ => false end.

(** [$] without [re.MULTILINE]: at the end of the text, or before a line
    feed that ends it. *)
Definition at_end (s : string) : bool :=
  match s with
  | EmptyString => true
  | String c EmptyString => Ascii.eqb c "010"%char
  | _ => false
  end.

(** The sequence inside an optional group; [at_start] says that nothing
    of the text precedes. *)
Fixpoint match_atoms (atoms : list (quant * Re.cclass))
    (next : bool -> string -> option found) (at_start : bool) (s : string)
  : option found :=
  match atoms with
  | [] => next at_start s
  | (q, k) :: atoms' =>
      q_quant found k
        (fun taken rest =>
           match_atoms atoms' next (at_start && is_empty taken) rest)
        q s
  end.

(** Backtracking match of a pattern at one place of the text. *)
Fixpoint match_items (p : pattern) (at_start : bool) (s : string)
  : option found :=
  match p with
  | [] => Some ([], s)
  | Atom q k :: p' =>
      q_quant found k
        (fun taken rest => match_items p' (at_start && is_empty taken) rest)
        q s
  | Group name q k :: p' =>
      q_quant found k
        (fun taken rest =>
           match match_items p' (at_start && is_empty taken) rest with
           | Some (caps, after) => Some ((name, taken) :: caps, after)
           | None => None
           end)
        q s
  | Bol :: p' => if at_start then match_items p' at_start s else None
  | Eol :: p' => if at_end s then match_items p' at_start s else None
  | Maybe atoms :: p' =>
      match match_atoms atoms (match_items p') at_start s with
      | Some r => Some r
      | None => match_items p' at_start s
      end
  end.

(** The first place, from the left, at which the pattern matches: the text
    before the match, the groups, and the text after the match. *)
Fixpoint search_from (p : pattern) (at_start : bool) (before s : string)
  : option (string * found) :=
  match match_items p at_start s with
  | Some r => Some (before, r)
  | None =>
      match s with
      | EmptyString => None
      | String c s' =>
          search_from p false (before ++ String c EmptyString) s'
      end
  end.

(** [re.search(p, s, flags=re.IGNORECASE)] *)
Definition search (p : pattern) (s : string) : option (string * found) :=
  search_from p true EmptyString s.

(** [re.split(p, s, flags=re.IGNORECASE)] for a pattern without groups
    that matches no empty text: the text before each match, and the text
    after the last.  Every match takes a character, so that as many turns
    as the text has characters suffice. *)
Fixpoint split_from (fuel : nat) (p : pattern) (at_start : bool) (s : string)
  : list string :=
  match fuel with
  | O => [s]
  | S fuel' =>
      match search_from p at_start EmptyString s with
      | Some (before, (_, after)) => before :: split_from fuel' p false after
      | None => [s]
      end
  end.

Definition split (p : pattern) (s : string) : list string :=
  split_from (String.length s) p true s.

(** The characters of a literal word, each matched once. *)
Fixpoint word (w : string) : pattern :=
  match w with
  | EmptyString => []
  | String c w' => Atom Once (Re.Lit c) :: word w'
  end.

End Rx.

(* ================================================================== *)
(** * Question Parsers ([test3.py]) *)
(* ================================================================== *)

(** [s.rstrip("?")] *)
Fixpoint rstrip_question (s : string) : string :=
  match s with
  | EmptyString => EmptyString
  | String c s' =>
      match rstrip_question s' with
      | EmptyString =>
          if Ascii.eqb c "?"%char then EmptyString
          else String c EmptyString
      | r => String c r
      end
  end.

Definition spaces : Rx.item := Rx.Atom Rx.Plus Re.Space.
Definition opt_quote : Rx.item := Rx.Atom Rx.Opt quotes.

(** The head of every pattern, [^\s*], then a word and [\s+]. *)
Definition starts_with (w : string) : Rx.pattern :=
  ([Rx.Bol; Rx.Atom Rx.Star Re.Space] ++ Rx.word w ++ [spaces])%list.

(** [["\']?(?P<name>.+?)["\']?] *)
Definition quoted (name : string) : Rx.pattern :=
  [opt_quote; Rx.Group name Rx.PlusLazy Re.Dot; opt_quote].

(** The tail of every pattern, [\s*$]. *)
Definition to_the_end : Rx.pattern := [Rx.Atom Rx.Star Re.Space; Rx.Eol].

(** [is <title> produced by <artist>], and the same with [was]. *)
Definition produced_by (verb : string) : Rx.pattern :=
  (starts_with verb ++ quoted "title" ++ [spaces] ++ Rx.word "produced"
   ++ [spaces] ++ Rx.word "by" ++ [spaces] ++ quoted "artist"
   ++ to_the_end)%list.

(** [did <artist> produce <title>] *)
Definition did_produce : Rx.pattern :=
  (starts_with "did" ++ quoted "artist" ++ [spaces] ++ Rx.word "produce"
   ++ [spaces] ++ quoted "title" ++ to_the_end)%list.

(** [is <artist> (the )?producer of <title>] *)
Definition is_producer_of : Rx.pattern :=
  (starts_with "is" ++ quoted "artist" ++ [spaces]
   ++ [Rx.Maybe [ (Rx.Once, Re.Lit "t"); (Rx.Once, Re.Lit "h");
                  (Rx.Once, Re.Lit "e"); (Rx.Plus, Re.Space) ]]
   ++ Rx.word "producer" ++ [spaces] ++ Rx.word "of" ++ [spaces]
   ++ quoted "title" ++ to_the_end)%list.

Definition yesno_patterns : list Rx.pattern :=
  [produced_by "is"; produced_by "was"; did_produce; is_producer_of].

(** The dict that the parser returns, with its keys [song] and [artist];
    the second is the field [claimed_producer] here, [artist] being a
    field of the query record of [parse_query]. *)
Record producer_question : Type := {
  song : string;
  claimed_producer : string
}.

(** The [for p in patterns] loop of the yes/no parser. *)
Fixpoint first_found (ps : list Rx.pattern) (s : string)
  : option Re.captures :=
  match ps with
  | [] => None
  | p :: ps' =>
      match Rx.search p s with
      | Some (_, (m, _)) => Some m
      | None => first_found ps' s
      end
  end.

(** The dict of the answer has the keys [song] and [artist]; the second is
    the field [claimed_producer] here. *)
Definition parse_yesno_producer_question (q : string)
  : result (option producer_question) :=
  let s := py_strip (rstrip_question (py_strip q)) in
  match first_found yesno_patterns s with
  | Some m =>
      t <- Re.group m "title" ;;
      a <- Re.group m "artist" ;;
      Ok (Some {| song := py_strip t; claimed_producer := py_strip a |})
  | None => Ok None
  end.

(** [\s+by\s+] *)
Definition by_separator : Rx.pattern :=
  ([spaces] ++ Rx.word "by" ++ [spaces])%list.

Definition split_title_and_perf (maybe_title : string)
  : string * option string :=
  match Rx.split by_separator maybe_title with
  | p0 :: p1 :: _ => (py_strip p0, Some (py_strip p1))
  | _ => (py_strip maybe_title, None)
  end.

(* ================================================================== *)
(** * The vocabulary of the further properties *)
(* ================================================================== *)

(** As above, the definitions of this part are not code of the repository:
    shapes of data, quantities that the properties speak of, and sample
    inputs. *)

(** The scan of [top_scan] on candidates whose scores are known. *)
Fixpoint pick_at (l : list (json * Q)) (i : nat) (best : option (nat * json))
    (best_score : Q) : option (nat * json) :=
  match l with
  | [] => best
  | (r, score) :: l' =>
      if Qgtb score best_score then pick_at l' (S i) (Some (i, r)) score
      else pick_at l' (S i) best best_score
  end.

(** [c], at position [i] of [l], is the first of the best-scoring elements
    of [l]: every element has a score, none scores more than [c], and every
    element before position [i] scores less. *)
Definition first_best (score : json -> result Q) (l : list json) (i : nat)
    (c : json) : Prop :=
  exists s,
    nth_error l i = Some c
    /\ score c = Ok s
    /\ (forall r, In r l -> exists s', score r = Ok s' /\ (s' <= s)%Q)
    /\ (forall j r, (j < i)%nat -> nth_error l j = Some r ->
                    exists s', score r = Ok s' /\ (s' < s)%Q).

(** The shape of a recording in a search result: an object that is not
    empty, whose title is a string (or missing, or null) and whose artist
    credits, if any, are objects with a string for a name (or no name). *)
Definition named_credit (ac : json) : bool :=
  match ac with
  | JObj g =>
      match Py.lookup "name" g with
      | None | Some (JStr _) => true
      | Some _ => false
      end
  | _ => false
  end.

Definition wf_candidate (r : json) : bool :=
  match r with
  | JObj f =>
      Py.truthy r
      && opt_str (Py.lookup "title" f)
      && match Py.lookup "artist-credit" f with
         | None => true
         | Some (JArr l) => forallb named_credit l
         | Some _ => false
         end
  | _ => false
  end.

(** A search result with four recordings. *)
Definition live_take : json :=
  JObj [ ("id", JStr "6f3a1c52");
         ("title", JStr "Bohemian Rhapsody (live)");
         ("artist-credit", JArr [JObj [("name", JStr "Queen")]]) ].
Definition studio_take : json :=
  JObj [ ("id", JStr "b1a9c0e9");
         ("title", JStr "Bohemian Rhapsody");
         ("artist-credit", JArr [JObj [("name", JStr "Queen")]]);
         ("releases", JArr [JObj [("title", JStr "A Night at the Opera");
                                  ("date", JStr "1975-11-21")]]) ].
Definition uncredited_take : json :=
  JObj [ ("id", JStr "0d2e77a4"); ("title", JStr "Bohemian Rhapsody") ].
Definition other_song : json :=
  JObj [ ("id", JStr "93c5e1b0");
         ("title", JStr "Rhapsody");
         ("artist-credit", JArr [JObj [("name", JStr "The Braids")]]) ].
Definition rhapsody_hits : json :=
  JObj [("recordings",
         JArr [live_take; studio_take; uncredited_take; other_song])].

(** A release with a string (or nothing) for title and for date. *)
Definition typed_release (r : json) : bool :=
  match r with
  | JObj f => opt_str (Py.lookup "title" f) && opt_str (Py.lookup "date" f)
  | _ => false
  end.

(** A recording of a search result whose identifier and releases have the
    catalog's types as well. *)
Definition typed_candidate (r : json) : bool :=
  wf_candidate r
  && wf_array typed_release (field r "releases")
  && opt_str (field r "id").

(** The line asks for nothing: it is none of the five answers that the
    chooser knows. *)
Definition invalid_choice (line : string) : bool :=
  let choice := py_lower (py_strip line) in
  negb (existsb (String.eqb choice) [""; "c"; "1"; "2"; "3"]).

(** A relation whose name, when it has one, is a string. *)
Definition typed_relation (rel : json) : bool :=
  wf_relation rel
  && (negb (Py.truthy (rel_name rel)) || is_str (rel_name rel)).

(** An artist credit with a string (or nothing) for a name. *)
Definition typed_credit (ac : json) : bool :=
  match ac with
  | JObj g => opt_str (Py.lookup "name" g)
  | _ => false
  end.

(** A recording entity whose fields have the catalog's types: strings for
    titles, dates and names, a number for the length. *)
Definition typed_entity (e : json) : bool :=
  match e with
  | JObj f =>
      opt_str (Py.lookup "title" f)
      && opt_num (Py.lookup "length" f)
      && match Py.lookup "artist-credit" f with
         | None => true
         | Some (JArr l) => forallb typed_credit l
         | Some _ => false
         end
      && wf_array typed_release (Py.lookup "releases" f)
      && wf_array typed_relation (Py.lookup "relations" f)
      && wf_array typed_relation (Py.lookup "relation-list" f)
  | _ => false
  end.

(** The producer names that the relations of an entity contribute. *)
Definition producer_relations (e : json) : list json :=
  flat_map (contribution is_producer) (relation_list e).

(** What [retrieve_with_choice] makes of a recording [c], the catalog being
    [fetch_recording_relations]: nothing, or the record of the entity
    fetched under the identifier of [c], with that identifier attached. *)
Definition retrieved (fetch_recording_relations : json -> option json)
    (c r : json) : Prop :=
  r = JNull
  \/ exists full info,
      fetch_recording_relations (value (field c "id")) = Some full
      /\ extract_credits full = Ok (JObj info)
      /\ r = JObj (set_item "_mbid" (value (field c "id")) info).

(** A catalog that answers every search with the four recordings above and
    every fetch with the entity [bohemian], and the record that
    [retrieve_with_choice] then returns when the second entry of the
    listing is chosen. *)
Definition sample_search (_ : string) (_ : option string) (_ : nat)
  : option json := Some rhapsody_hits.
Definition sample_fetch (_ : json) : option json := Some bohemian.
Definition sample_record : json :=
  Eval vm_compute in
    match extract_credits bohemian with
    | Ok (JObj info) => JObj (set_item "_mbid" (JStr "0d2e77a4") info)
    | _ => JNull
    end.

(** The title that [format_response] shows for the record of an entity:
    the title of the entity, or the text of Python's [None]. *)
Definition shown_title (e : json) : string :=
  match field e "title" with
  | Some (JStr t) => t
  | _ => "None"
  end.

(** The fields of a record. *)
Definition record_fields (info : json) : list (string * json) :=
  match info with
  | JObj f => f
  | _ => []
  end.

(** Every character of the text satisfies the test. *)
Fixpoint every (P : ascii -> bool) (s : string) : bool :=
  match s with
  | "" => true
  | String c s' => P c && every P s'
  end.

(** The names of the groups of a pattern of the question parsers, in
    order. *)
Definition rx_group_names (p : Rx.pattern) : list string :=
  flat_map (fun it =>
              match it with
              | Rx.Group name _ _ => [name]
              | _ => []
              end) p.

(** The text after a separator that starts the text: white space, the word
    by in either letter case, white space again, each run of white space
    taken whole.  Nothing when the text does not start with a separator. *)
Definition after_by (s : string) : option string :=
  match s with
  | String c1 (String c2 r) =>
      if Re.accepts (Re.Lit "b") c1 then
        if Re.accepts (Re.Lit "y") c2 then
          match r with
          | String d _ => if isspace d then Some (py_lstrip r) else None
          | "" => None
          end
        else None
      else None
  | _ => None
  end.

Definition after_separator (s : string) : option string :=
  match s with
  | String c _ => if isspace c then after_by (py_lstrip s) else None
  | "" => None
  end.

(** A character that is neither a quote nor a line feed. *)
Definition plain_char (c : ascii) : bool :=
  negb (Ascii.eqb c "'"%char || Ascii.eqb c "034"%char
        || Ascii.eqb c "010"%char).

(** No white space of the text is followed by the letter [l], in either
    letter case. *)
Fixpoint no_space_before (l : ascii) (s : string) : bool :=
  match s with
  | String c s' =>
      match s' with
      | String d _ => negb (isspace c && Re.accepts (Re.Lit l) d)
      | "" => true
      end
      && no_space_before l s'
  | "" => true
  end.

(** A name as a question holds it: not empty, trimmed, without quotes and
    line feeds. *)
Definition clean_name (s : string) : bool :=
  nonempty s && String.eqb (py_strip s) s && every plain_char s.

(** The pattern of a question after the title: an optional quote, white
    space, the words produced by, and the producer to the end. *)
Definition after_title : Rx.pattern :=
  (opt_quote :: spaces :: Rx.word "produced" ++ spaces :: Rx.word "by"
   ++ spaces :: quoted "artist" ++ to_the_end)%list.

(* ================================================================== *)
(** * Facts about the string operations *)
(* ================================================================== *)

Section StringFacts.

Lemma append_empty_r (s : string) : s ++ "" = s.
Proof. induction s as [|c s IH]; simpl; [reflexivity | now rewrite IH]. Qed.

Lemma append_assoc (a b c : string) : (a ++ b) ++ c = a ++ (b ++ c).
Proof. induction a as [|x a IH]; simpl; [reflexivity | now rewrite IH]. Qed.

Lemma prefix_append (a r : string) : prefix a (a ++ r) = true.
Proof.
  induction a as [|c a IH]; simpl.
  - now destruct r.
  - destruct (ascii_dec c c) as [_|ne]; [exact IH | now elim ne].
Qed.

Lemma prefix_split (a b : string) :
  prefix a b = true -> exists r, b = a ++ r.
Proof.
  revert b; induction a as [|c a IH]; intros b H.
  - now exists b.
  - destruct b as [|d b]; simpl in H; [discriminate|].
    destruct (ascii_dec c d) as [->|]; [|discriminate].
    destruct (IH b H) as [r ->]. now exists r.
Qed.

Lemma py_in_prefix (needle hay : string) :
  prefix needle hay = true -> py_in needle hay = true.
Proof. intros H. destruct hay; cbn [py_in]; now rewrite H. Qed.

(** [needle in hay] holds exactly when [hay] is [pre ++ needle ++ post]. *)
Lemma py_in_append (pre needle post : string) :
  py_in needle (pre ++ needle ++ post) = true.
Proof.
  induction pre as [|c pre IH].
  - change ("" ++ needle ++ post) with (needle ++ post).
    apply py_in_prefix, prefix_append.
  - simpl. rewrite IH. apply orb_true_r.
Qed.

Lemma py_in_split (needle hay : string) :
  py_in needle hay = true -> exists pre post, hay = pre ++ needle ++ post.
Proof.
  induction hay as [|c hay IH]; cbn [py_in]; intros H.
  - rewrite orb_false_r in H. destruct (prefix_split _ _ H) as [r E].
    now exists "", r.
  - apply orb_true_iff in H as [H|H].
    + destruct (prefix_split _ _ H) as [r E]. now exists "", r.
    + destruct (IH H) as (pre & post & ->). now exists (String c pre), post.
Qed.

Lemma py_lstrip_split (s : string) : exists pre, s = pre ++ py_lstrip s.
Proof.
  induction s as [|c s [pre IH]]; simpl.
  - now exists "".
  - destruct (isspace c).
    + exists (String c pre). simpl. now rewrite <- IH.
    + now exists "".
Qed.

Lemma py_rstrip_split (s : string) : exists post, s = py_rstrip s ++ post.
Proof.
  induction s as [|c s [post IH]]; simpl.
  - now exists "".
  - destruct (py_rstrip s) as [|d r] eqn:E.
    + destruct (isspace c).
      * now exists (String c s).
      * exists post. simpl. now rewrite IH at 1.
    + exists post. simpl. now rewrite IH at 1.
Qed.

(** A string contains its own trimmed form. *)
Lemma py_strip_in (s : string) : py_in (py_strip s) s = true.
Proof.
  unfold py_strip.
  destruct (py_lstrip_split s) as [pre E1].
  destruct (py_rstrip_split (py_lstrip s)) as [post E2].
  rewrite E1 at 2. rewrite E2 at 2. apply py_in_append.
Qed.

Lemma py_rstrip_idem (s : string) : py_rstrip (py_rstrip s) = py_rstrip s.
Proof.
  induction s as [|c s IH]; simpl; [reflexivity|].
  destruct (py_rstrip s) as [|d r] eqn:E.
  - destruct (isspace c) eqn:Hc; simpl; [reflexivity | now rewrite Hc].
  - change (py_rstrip (String c (String d r))) with
      (match py_rstrip (String d r) with
       | "" => if isspace c then "" else String c ""
       | String _ _ as r0 => String c r0
       end).
    now rewrite IH.
Qed.

Lemma py_lstrip_starts (s : string) : starts_nonspace (py_lstrip s) = true.
Proof.
  induction s as [|c s IH]; simpl; [reflexivity|].
  destruct (isspace c) eqn:Hc; [exact IH | simpl; now rewrite Hc].
Qed.

Lemma py_rstrip_starts (s : string) :
  starts_nonspace s = true -> starts_nonspace (py_rstrip s) = true.
Proof.
  destruct s as [|c s]; simpl; [reflexivity|]. intros H.
  destruct (py_rstrip s); [|exact H].
  destruct (isspace c) eqn:Hc; [discriminate | simpl; now rewrite Hc].
Qed.

Lemma py_lstrip_fixed (s : string) :
  starts_nonspace s = true -> py_lstrip s = s.
Proof.
  destruct s as [|c s]; simpl; [reflexivity|].
  now destruct (isspace c).
Qed.

(** [strip] returns a trimmed string: stripping it again changes nothing. *)
Lemma py_strip_idem (s : string) : py_strip (py_strip s) = py_strip s.
Proof.
  unfold py_strip.
  rewrite (py_lstrip_fixed (py_rstrip (py_lstrip s))).
  - apply py_rstrip_idem.
  - apply py_rstrip_starts, py_lstrip_starts.
Qed.

Lemma py_lstrip_blank (s : string) : blank s = true -> py_lstrip s = "".
Proof.
  induction s as [|c s IH]; simpl; [reflexivity|].
  intros H. apply andb_true_iff in H as [-> H]. auto.
Qed.

Lemma py_strip_blank (s : string) : blank s = true -> py_strip s = "".
Proof. intros H. unfold py_strip. now rewrite py_lstrip_blank. Qed.

Lemma py_rstrip_empty (s : string) : py_rstrip s = "" -> blank s = true.
Proof.
  induction s as [|c s IH]; simpl; [reflexivity|].
  destruct (py_rstrip s); [|discriminate].
  destruct (isspace c); [intros _; now apply IH | discriminate].
Qed.

Lemma py_lstrip_blank_inv (s : string) :
  blank (py_lstrip s) = true -> blank s = true.
Proof.
  induction s as [|c s IH]; simpl; [reflexivity|].
  destruct (isspace c) eqn:Hc; simpl; [exact IH | now rewrite Hc].
Qed.

(** The trimmed form is empty exactly for a blank string. *)
Lemma py_strip_empty_iff (s : string) : py_strip s = "" <-> blank s = true.
Proof.
  split; [|apply py_strip_blank].
  intros H. apply py_lstrip_blank_inv, py_rstrip_empty, H.
Qed.

End StringFacts.

(* ================================================================== *)
(** * Facts about the matcher *)
(* ================================================================== *)

Section MatcherFacts.

Variable l : ascii.

Lemma m_quant_lacks (k : Re.cclass)
    (next : string -> string -> option Re.captures) (q : Re.quant) :
  (forall taken rest, lacks l rest = true -> next taken rest = None) ->
  forall s, lacks l s = true -> Re.m_quant k next q s = None.
Proof.
  intros Hnext.
  assert (Honce : forall s, lacks l s = true -> Re.m_once k next s = None).
  { intros [|c s] H; simpl; [reflexivity|].
    simpl in H. apply andb_true_iff in H as [_ H].
    destruct (Re.accepts k c); auto. }
  assert (Hplus : forall s taken, lacks l s = true ->
                                  Re.m_plus k next taken s = None).
  { induction s as [|c s IH]; intros taken H; simpl; [reflexivity|].
    simpl in H. apply andb_true_iff in H as [_ H].
    destruct (Re.accepts k c); [|reflexivity].
    rewrite IH by exact H. auto. }
  assert (Hlazy : forall s taken, lacks l s = true ->
                                  Re.m_plus_lazy k next taken s = None).
  { induction s as [|c s IH]; intros taken H; simpl; [reflexivity|].
    simpl in H. apply andb_true_iff in H as [_ H].
    destruct (Re.accepts k c); [|reflexivity].
    rewrite Hnext by exact H. auto. }
  intros s H. destruct q; simpl; auto.
  unfold Re.m_opt. rewrite Honce by exact H. auto.
Qed.

(** A pattern that asks for a literal fails on a text without it. *)
Lemma match_here_lacks (p : Re.pattern) :
  mentions l p = true ->
  forall s, lacks l s = true -> Re.match_here p s = None.
Proof.
  induction p as [|it p IH]; simpl; [discriminate|].
  intros Hm s Hs. apply orb_true_iff in Hm as [Hm|Hm].
  - destruct it as [[] [c| | |]|]; try discriminate.
    apply Ascii.eqb_eq in Hm; subst c.
    destruct s as [|c s]; simpl; [reflexivity|].
    simpl in Hs. apply andb_true_iff in Hs as [Hc _].
    apply negb_true_iff in Hc. simpl in Hc. now rewrite Hc.
  - destruct it as [q k|name q k]; apply m_quant_lacks; auto.
    all: intros taken rest Hr; now rewrite (IH Hm rest Hr).
Qed.

Lemma search_lacks (p : Re.pattern) :
  mentions l p = true ->
  forall s, lacks l s = true -> Re.search p s = None.
Proof.
  intros Hm. induction s as [|c s IH]; intros Hs; simpl.
  - now rewrite (match_here_lacks p Hm "" Hs).
  - rewrite (match_here_lacks p Hm _ Hs).
    simpl in Hs. apply andb_true_iff in Hs as [_ Hs]. auto.
Qed.

Lemma first_match_lacks (ps : list Re.pattern) (s : string) :
  forallb (mentions l) ps = true -> lacks l s = true ->
  first_match ps s = None.
Proof.
  induction ps as [|p ps IH]; simpl; [reflexivity|].
  intros H Hs. apply andb_true_iff in H as [Hp Hps].
  now rewrite (search_lacks p Hp s Hs), IH.
Qed.

End MatcherFacts.

Section MatcherGroups.

(** A quantified class that matches hands some text over to what follows. *)
Lemma m_quant_some (k : Re.cclass)
    (next : string -> string -> option Re.captures) (q : Re.quant)
    (s : string) (r : Re.captures) :
  Re.m_quant k next q s = Some r ->
  exists taken rest, next taken rest = Some r.
Proof.
  assert (Honce : forall u, Re.m_once k next u = Some r ->
                            exists taken rest, next taken rest = Some r).
  { intros [|c u]; simpl; [discriminate|].
    destruct (Re.accepts k c); [eauto | discriminate]. }
  assert (Hplus : forall u taken,
             Re.m_plus k next taken u = Some r ->
             exists taken' rest, next taken' rest = Some r).
  { intros u. induction u as [|c u IH]; intros taken; simpl; [discriminate|].
    destruct (Re.accepts k c); [|discriminate].
    destruct (Re.m_plus k next (taken ++ String c "") u) eqn:E.
    - intros [= ->]. eauto.
    - eauto. }
  assert (Hlazy : forall u taken,
             Re.m_plus_lazy k next taken u = Some r ->
             exists taken' rest, next taken' rest = Some r).
  { intros u. induction u as [|c u IH]; intros taken; simpl; [discriminate|].
    destruct (Re.accepts k c); [|discriminate].
    destruct (next (taken ++ String c "") u) eqn:E.
    - intros [= ->]. eauto.
    - eauto. }
  destruct q; simpl; eauto.
  unfold Re.m_opt. destruct (Re.m_once k next s) eqn:E.
  - intros [= ->]. eauto.
  - eauto.
Qed.

(** A match binds every group of the pattern. *)
Lemma match_here_groups (p : Re.pattern) (s : string) (caps : Re.captures) :
  Re.match_here p s = Some caps -> map fst caps = group_names p.
Proof.
  revert s caps. induction p as [|it p IH]; intros s caps; simpl.
  - now intros [= <-].
  - destruct it as [q k|name q k]; intros H;
      apply m_quant_some in H as (taken & rest & H).
    + exact (IH rest caps H).
    + destruct (Re.match_here p rest) as [c|] eqn:E; [|discriminate].
      injection H as <-. simpl. now rewrite (IH rest c E).
Qed.

Lemma search_groups (p : Re.pattern) (s : string) (caps : Re.captures) :
  Re.search p s = Some caps -> map fst caps = group_names p.
Proof.
  induction s as [|c s IH]; simpl;
    destruct (Re.match_here p _) eqn:E; try discriminate.
  - intros [= <-]. exact (match_here_groups _ _ _ E).
  - intros [= <-]. exact (match_here_groups _ _ _ E).
  - exact IH.
Qed.

Lemma first_match_groups (ps : list Re.pattern) (s : string)
    (caps : Re.captures) :
  first_match ps s = Some caps ->
  exists p, In p ps /\ map fst caps = group_names p.
Proof.
  induction ps as [|p ps IH]; simpl; [discriminate|].
  destruct (Re.search p s) eqn:E.
  - intros [= <-]. exists p. split; [now left | exact (search_groups _ _ _ E)].
  - intros H. destruct (IH H) as (p' & Hin & Hg). exists p'. tauto.
Qed.

(** A match of one of the four patterns has the groups title and artist. *)
Lemma first_match_title_artist (text : string) (m : Re.captures) :
  first_match patterns text = Some m ->
  exists t a, Re.group m "title" = Ok t /\ Re.group m "artist" = Ok a.
Proof.
  intros H. apply first_match_groups in H as (p & Hin & Hg).
  assert (Hp : group_names p = ["title"; "artist"]).
  { simpl in Hin. destruct Hin as [<-|[<-|[<-|[<-|[]]]]]; reflexivity. }
  rewrite Hp in Hg.
  destruct m as [|[n1 t] [|[n2 a] [|x m]]]; try discriminate.
  injection Hg as -> ->. now exists t, a.
Qed.

End MatcherGroups.

(** White space is not a letter b, in either case. *)
Lemma isspace_not_b (c : ascii) :
  isspace c = true -> Ascii.eqb (lower_char c) "b"%char = false.
Proof.
  destruct c as [[] [] [] [] [] [] [] []];
    intros H; try reflexivity; vm_compute in H; discriminate H.
Qed.

Lemma blank_lacks_b (s : string) : blank s = true -> lacks "b" s = true.
Proof.
  induction s as [|c s IH]; simpl; [reflexivity|].
  intros H. apply andb_true_iff in H as [Hc Hs].
  rewrite (IH Hs), andb_true_r.
  apply negb_true_iff. exact (isspace_not_b c Hc).
Qed.

Lemma has_char_append (c : ascii) (a b : string) :
  has_char c (a ++ b) = has_char c a || has_char c b.
Proof.
  induction a as [|d a IH]; simpl; [reflexivity|].
  now rewrite IH, orb_assoc.
Qed.

Lemma blank_lower_no_b (s : string) :
  blank s = true -> has_char "b" (py_lower s) = false.
Proof.
  induction s as [|c s IH]; simpl; [reflexivity|].
  intros H. apply andb_true_iff in H as [Hc Hs].
  now rewrite (isspace_not_b c Hc), IH.
Qed.

Lemma blank_no_separator (s : string) :
  blank s = true -> py_in " by " (py_lower s) = false.
Proof.
  intros H. destruct (py_in " by " (py_lower s)) eqn:E; [|reflexivity].
  apply py_in_split in E as (pre & post & E).
  pose proof (blank_lower_no_b s H) as Hb.
  rewrite E, !has_char_append in Hb. simpl in Hb.
  rewrite orb_true_r in Hb. discriminate.
Qed.

(* ================================================================== *)
(** * Query Parser: the claims *)
(* ================================================================== *)

Example parse_tell_me_about :
  parse_query "Tell me about Bohemian Rhapsody by Queen"
  = Ok {| title := "Bohemian Rhapsody"; artist := Some "Queen" |}.
Proof. reflexivity. Qed.

Example parse_quoted :
  parse_query "tell me about 'Hey Jude' by The Beatles"
  = Ok {| title := "Hey Jude"; artist := Some "The Beatles" |}.
Proof. reflexivity. Qed.

Example parse_title_by_artist :
  parse_query "Shape of You by Ed Sheeran"
  = Ok {| title := "Shape of You"; artist := Some "Ed Sheeran" |}.
Proof. reflexivity. Qed.

Example parse_no_separator :
  parse_query "Nothing Else Matters Metallica"
  = Ok {| title := "Nothing Else Matters Metallica"; artist := None |}.
Proof. reflexivity. Qed.

(** On a blank text no pattern matches and the whole (trimmed) text is the
    title. *)
Lemma parse_query_blank (text : string) :
  blank text = true ->
  parse_query text = Ok {| title := ""; artist := None |}.
Proof.
  intros H. unfold parse_query.
  rewrite (first_match_lacks "b" patterns text eq_refl (blank_lacks_b text H)).
  rewrite (blank_no_separator text H).
  now rewrite (py_strip_blank text H).
Qed.

(** The split finds the separator exactly when the text contains it. *)
Lemma py_split1_none (sep s : string) :
  py_split1 sep s = None <-> py_in sep s = false.
Proof.
  induction s as [|c s IH]; cbn [py_split1 py_in].
  - destruct (prefix sep ""); simpl; split; congruence.
  - destruct (prefix sep (String c s)); simpl; [split; congruence|].
    destruct (py_split1 sep s) as [[a b]|].
    + split; [discriminate|]. intros H. apply IH in H. discriminate.
    + split; [intros _; now apply IH | reflexivity].
Qed.

(** [parse_query] returns a hypothesis, except when no pattern matches and
    the separator occurs in the lower-cased text only: then it raises
    [IndexError]. *)
Lemma parse_query_outcome (text : string) :
  (exists h, parse_query text = Ok h)
  \/ (parse_query text = Raise IndexError
      /\ first_match patterns text = None
      /\ py_in " by " (py_lower text) = true
      /\ py_in " by " text = false).
Proof.
  unfold parse_query.
  destruct (first_match patterns text) as [m|] eqn:E.
  - left. destruct (first_match_title_artist text m E) as (t & a & -> & ->).
    simpl. eauto.
  - destruct (py_in " by " (py_lower text)) eqn:Hin; [|left; eauto].
    destruct (py_split1 " by " text) as [[p0 p1]|] eqn:Hs; [left; eauto|].
    right. repeat split. now apply py_split1_none.
Qed.

Section MatcherParts.

(** A quantified class that matches splits the text into what it consumed
    and the rest; what it consumed is not empty unless the class is
    optional. *)
Lemma m_quant_split (k : Re.cclass)
    (next : string -> string -> option Re.captures) (q : Re.quant)
    (s : string) (r : Re.captures) :
  Re.m_quant k next q s = Some r ->
  exists taken rest,
    s = taken ++ rest
    /\ next taken rest = Some r
    /\ (q <> Re.Opt -> taken <> "").
Proof.
  assert (Honce : forall u, Re.m_once k next u = Some r ->
            exists taken rest,
              u = taken ++ rest /\ next taken rest = Some r /\ taken <> "").
  { intros [|c u]; simpl; [discriminate|].
    destruct (Re.accepts k c); [|discriminate].
    intros H. exists (String c ""), u. now repeat split. }
  assert (Hplus : forall u taken,
            Re.m_plus k next taken u = Some r ->
            exists t rest,
              u = t ++ rest /\ next (taken ++ t) rest = Some r /\ t <> "").
  { intros u. induction u as [|c u IH]; intros taken; simpl; [discriminate|].
    destruct (Re.accepts k c); [|discriminate].
    destruct (Re.m_plus k next (taken ++ String c "") u) eqn:E.
    - intros [= ->]. destruct (IH _ E) as (t & rest & -> & Hn & _).
      exists (String c t), rest. rewrite append_assoc in Hn.
      now repeat split.
    - intros H. exists (String c ""), u. now repeat split. }
  assert (Hlazy : forall u taken,
            Re.m_plus_lazy k next taken u = Some r ->
            exists t rest,
              u = t ++ rest /\ next (taken ++ t) rest = Some r /\ t <> "").
  { intros u. induction u as [|c u IH]; intros taken; simpl; [discriminate|].
    destruct (Re.accepts k c); [|discriminate].
    destruct (next (taken ++ String c "") u) eqn:E.
    - intros [= ->]. exists (String c ""), u. now repeat split.
    - intros H. destruct (IH _ H) as (t & rest & -> & Hn & _).
      exists (String c t), rest. rewrite append_assoc in Hn.
      now repeat split. }
  destruct q; cbn [Re.m_quant]; intros H.
  - destruct (Honce s H) as (t & rest & E & Hn & Ht).
    exists t, rest. now repeat split.
  - unfold Re.m_opt in H. destruct (Re.m_once k next s) eqn:E.
    + injection H as ->. destruct (Honce s E) as (t & rest & E' & Hn & _).
      exists t, rest. repeat split; [exact E' | exact Hn | now intros []].
    + exists "", s. repeat split; [exact H | now intros []].
  - destruct (Hplus s "" H) as (t & rest & E & Hn & Ht).
    exists t, rest. now repeat split.
  - destruct (Hlazy s "" H) as (t & rest & E & Hn & Ht).
    exists t, rest. now repeat split.
Qed.

(** The text of every group of a match is a part of the text matched, and
    it is not empty when no group of the pattern is optional. *)
Lemma match_here_parts (p : Re.pattern) (s : string) (caps : Re.captures) :
  forallb (fun it => match it with
                     | Re.Group _ Re.Opt _ => false
                     | _ => true
                     end) p = true ->
  Re.match_here p s = Some caps ->
  forall n v, In (n, v) caps ->
    v <> "" /\ exists pre post, s = pre ++ v ++ post.
Proof.
  revert s caps. induction p as [|it p IH]; intros s caps Hp; simpl.
  - intros [= <-] n v [].
  - cbn [forallb] in Hp. apply andb_true_iff in Hp as [Hit Hp].
    destruct it as [q k|name q k]; intros H;
      apply m_quant_split in H as (taken & rest & -> & H & Hne).
    + intros n v Hin. destruct (IH rest caps Hp H n v Hin)
        as (Hv & pre & post & ->).
      split; [exact Hv|]. exists (taken ++ pre), post.
      now rewrite append_assoc.
    + destruct (Re.match_here p rest) as [c|] eqn:E; [|discriminate].
      injection H as <-. intros n v [[= <- <-]|Hin].
      * split; [apply Hne; now destruct q | now exists "", rest].
      * destruct (IH rest c Hp E n v Hin) as (Hv & pre & post & ->).
        split; [exact Hv|]. exists (taken ++ pre), post.
        now rewrite append_assoc.
Qed.

Lemma search_parts (p : Re.pattern) (s : string) (caps : Re.captures) :
  forallb (fun it => match it with
                     | Re.Group _ Re.Opt _ => false
                     | _ => true
                     end) p = true ->
  Re.search p s = Some caps ->
  forall n v, In (n, v) caps ->
    v <> "" /\ exists pre post, s = pre ++ v ++ post.
Proof.
  intros Hp. induction s as [|c s IH]; simpl;
    destruct (Re.match_here p _) eqn:E; try discriminate.
  - intros [= <-]. exact (match_here_parts _ _ _ Hp E).
  - intros [= <-]. exact (match_here_parts _ _ _ Hp E).
  - intros H n v Hin. destruct (IH H n v Hin) as (Hv & pre & post & ->).
    split; [exact Hv|]. now exists (String c pre), post.
Qed.

(** The title group of a match of one of the four patterns is a part of
    the text, and it is not empty. *)
Lemma first_match_title_part (text raw : string) (m : Re.captures) :
  first_match patterns text = Some m ->
  Re.group m "title" = Ok raw ->
  raw <> "" /\ exists pre post, text = pre ++ raw ++ post.
Proof.
  intros Hm Hg.
  assert (Hin : In ("title", raw) m).
  { clear Hm. induction m as [|[n v] m IH]; [discriminate|].
    cbn [Re.group] in Hg. destruct (String.eqb n "title") eqn:En.
    - apply String.eqb_eq in En. injection Hg as ->. subst n. now left.
    - right. exact (IH Hg). }
  assert (Hps : forall ps,
            forallb (forallb (fun it => match it with
                                        | Re.Group _ Re.Opt _ => false
                                        | _ => true
                                        end)) ps = true ->
            first_match ps text = Some m ->
            raw <> "" /\ exists pre post, text = pre ++ raw ++ post).
  { clear Hm. induction ps as [|p ps IH]; cbn [first_match forallb];
      [discriminate|].
    intros H. apply andb_true_iff in H as [Hp Hps].
    destruct (Re.search p text) eqn:E.
    - intros [= ->]. exact (search_parts p text m Hp E "title" raw Hin).
    - exact (IH Hps). }
  exact (Hps patterns eq_refl Hm).
Qed.

End MatcherParts.

Lemma drop_append (a r : string) : drop (String.length a) (a ++ r) = r.
Proof. induction a as [|c a IH]; simpl; [now destruct r | exact IH]. Qed.

(** The two parts of a split, put around the separator, are the text. *)
Lemma py_split1_some (sep s a b : string) :
  py_split1 sep s = Some (a, b) -> s = a ++ sep ++ b.
Proof.
  revert a. induction s as [|c s IH]; intros a; cbn [py_split1].
  - destruct (prefix sep "") eqn:E; [|discriminate].
    intros [= <- <-]. destruct (prefix_split _ _ E) as [r Er].
    assert (Hd : drop (String.length sep) "" = r)
      by (rewrite Er; apply drop_append).
    rewrite Hd. exact Er.
  - destruct (prefix sep (String c s)) eqn:E.
    + intros [= <- <-]. destruct (prefix_split _ _ E) as [r Er].
      assert (Hd : drop (String.length sep) (String c s) = r)
        by (rewrite Er; apply drop_append).
      rewrite Hd. exact Er.
    + destruct (py_split1 sep s) as [[a' b']|]; [|discriminate].
      intros [= <- <-]. now rewrite (IH a' eq_refl).
Qed.

(** C2, as the code has it.  Whenever [parse_query] returns a hypothesis,
    its title is a trimmed string; for an empty or white-space-only text the
    title is empty and there is no artist; and a hypothesis without artist
    (no pattern and no separator found) has a non-empty title unless the
    text is blank.  In every case the title is the title text with the
    white space around it removed, the title text being the title group of
    the first pattern that matches (a part of the text that is not empty),
    else the part of the text before the first separator, else the whole
    text: so the title is empty exactly when the title text is empty or
    white space only.  An empty title is not reserved to blank input.  A
    hypothesis is returned for every text but those of C10, on which no
    pattern matches and the separator occurs in another letter case
    only. *)
Theorem parse_query_title (text : string) :
  (forall h, parse_query text = Ok h -> py_strip (title h) = title h)
  /\ (blank text = true ->
      parse_query text = Ok {| title := ""; artist := None |})
  /\ (forall h, parse_query text = Ok h -> artist h = None ->
      blank text = false -> title h <> "")
  /\ (forall h, parse_query text = Ok h ->
      exists raw,
        match first_match patterns text with
        | Some m =>
            Re.group m "title" = Ok raw
            /\ raw <> ""
            /\ exists pre post, text = pre ++ raw ++ post
        | None =>
            if py_in " by " (py_lower text)
            then exists rest,
                py_split1 " by " text = Some (raw, rest)
                /\ text = raw ++ " by " ++ rest
            else raw = text
        end
        /\ title h = py_strip raw
        /\ (title h = "" <-> blank raw = true))
  /\ ((exists h, parse_query text = Ok h)
      \/ (parse_query text = Raise IndexError
          /\ first_match patterns text = None
          /\ py_in " by " (py_lower text) = true
          /\ py_in " by " text = false)).
Proof.
  split; [|split; [|split; [|split; [|apply parse_query_outcome]]]].
  - intros h. unfold parse_query.
    destruct (first_match patterns text) as [m|].
    + destruct (Re.group m "title") as [t| |]; simpl; try discriminate.
      destruct (Re.group m "artist") as [a| |]; simpl; try discriminate.
      intros [= <-]. apply py_strip_idem.
    + destruct (py_in " by " (py_lower text)).
      * destruct (py_split1 " by " text) as [[p0 p1]|]; try discriminate.
        intros [= <-]. apply py_strip_idem.
      * intros [= <-]. apply py_strip_idem.
  - apply parse_query_blank.
  - intros h. unfold parse_query.
    destruct (first_match patterns text) as [m|].
    + destruct (Re.group m "title") as [t| |]; simpl; try discriminate.
      destruct (Re.group m "artist") as [a| |]; simpl; try discriminate.
      intros [= <-]. discriminate.
    + destruct (py_in " by " (py_lower text)).
      * destruct (py_split1 " by " text) as [[p0 p1]|]; try discriminate.
        intros [= <-]. discriminate.
      * intros [= <-] _ Hb. simpl. intros E.
        apply py_strip_empty_iff in E. congruence.
  - intros h. unfold parse_query.
    destruct (first_match patterns text) as [m|] eqn:Em.
    + destruct (Re.group m "title") as [t| |] eqn:Et; simpl;
        try discriminate.
      destruct (Re.group m "artist") as [a| |]; simpl; try discriminate.
      intros [= <-]. exists t. cbn [title].
      destruct (first_match_title_part text t m Em Et) as [Hne Hpart].
      split; [now repeat split|]. split; [reflexivity|].
      apply py_strip_empty_iff.
    + destruct (py_in " by " (py_lower text)).
      * destruct (py_split1 " by " text) as [[p0 p1]|] eqn:Es;
          try discriminate.
        intros [= <-]. exists p0. cbn [title].
        split; [exists p1; split;
                [reflexivity | exact (py_split1_some _ _ _ _ Es)]|].
        split; [reflexivity | apply py_strip_empty_iff].
      * intros [= <-]. exists text. cbn [title].
        split; [reflexivity|].
        split; [reflexivity | apply py_strip_empty_iff].
Qed.

(** C2 as stated fails: these texts are not blank, the second is even
    trimmed, and the title returned for them is empty. *)
Lemma parse_query_empty_title :
  (blank " by x" = false
   /\ parse_query " by x" = Ok {| title := ""; artist := Some "x" |})
  /\ (blank "tell me about   by x" = false
      /\ py_strip "tell me about   by x" = "tell me about   by x"
      /\ parse_query "tell me about   by x"
         = Ok {| title := ""; artist := Some "x" |}).
Proof. repeat split. Qed.

(** C10 on the text [song BY ]: no pattern matches (nothing follows the
    separator), the lower-cased text contains the separator, the text
    itself does not, and [parts[1]] raises. *)
Theorem parse_query_raises :
  first_match patterns "song BY " = None
  /\ py_in " by " (py_lower "song BY ") = true
  /\ py_split1 " by " "song BY " = None
  /\ parse_query "song BY " = Raise IndexError.
Proof. repeat split. Qed.

(* ================================================================== *)
(** * Deterministic Fact Checker: the claims *)
(* ================================================================== *)

Section FactCheckerFacts.

Lemma all_strings_map (l : list json) (names : list string) :
  all_strings l = Some names -> l = map JStr names.
Proof.
  revert names; induction l as [|v l IH]; simpl; intros names H.
  - now injection H as <-.
  - destruct v; try discriminate.
    destruct (all_strings l) as [ss|]; [|discriminate].
    injection H as <-. simpl. now rewrite (IH ss eq_refl).
Qed.

Lemma exact_pass_strings (names : list string) (aq : string) :
  exact_pass (map JStr names) aq = Ok (existsb (exact_match aq) names).
Proof.
  induction names as [|p names IH]; simpl; [reflexivity|].
  unfold exact_match at 1.
  destruct (nonempty p); simpl; [|exact IH].
  destruct (String.eqb (py_strip (py_lower p)) aq); [reflexivity | exact IH].
Qed.

Lemma substring_pass_strings (names : list string) (aq : string) :
  substring_pass (map JStr names) aq = Ok (existsb (substring_match aq) names).
Proof.
  induction names as [|p names IH]; simpl; [reflexivity|].
  unfold substring_match at 1.
  destruct (nonempty p); simpl; [|exact IH].
  destruct (py_in aq (py_lower p)); [reflexivity | exact IH].
Qed.

(** A name that passes the exact test passes the substring test. *)
Lemma exact_match_substring (aq p : string) :
  exact_match aq p = true -> substring_match aq p = true.
Proof.
  unfold exact_match, substring_match. intros H.
  apply andb_true_iff in H as [-> H]. apply String.eqb_eq in H. subst aq.
  apply py_strip_in.
Qed.

Lemma existsb_exact_substring (aq : string) (names : list string) :
  existsb (exact_match aq) names = true ->
  existsb (substring_match aq) names = true.
Proof.
  rewrite !existsb_exists. intros (p & Hin & H).
  exists p. split; [exact Hin | now apply exact_match_substring].
Qed.

(** What the producer list of the function is, on a record. *)
Lemma producers_of_record (f : list (string * json)) (names : list string) :
  producer_credits (JObj f) = Some names ->
  exists l, producers_of (JObj f) = Ok (JArr l) /\ l = map JStr names.
Proof.
  unfold producer_credits, producers_of. simpl.
  destruct (Py.lookup "credits" f) as [[ | | | | |c]|]; try discriminate.
  - simpl. destruct (Py.lookup "producer" c) as [[ | | | |l| ]|];
      try discriminate; simpl.
    + intros [= <-]. now exists [].
    + intros H. apply all_strings_map in H. subst l.
      destruct names; now eexists.
    + intros [= <-]. now exists [].
  - intros [= <-]. now exists [].
Qed.

(** The answer of the checker on a record, as a function of its producer
    names. *)
Lemma check_on_record (info : json) (claim : string) (names : list string) :
  producer_credits info = Some names ->
  deterministic_producer_check info claim =
  Ok (match names with
      | [] => None
      | _ :: _ =>
          Some (existsb (exact_match (py_strip (py_lower claim))) names
                || existsb (substring_match (py_strip (py_lower claim))) names)
      end).
Proof.
  intros H. destruct info as [ | | | | |f]; try discriminate.
  unfold deterministic_producer_check.
  destruct f as [|kv f].
  - simpl in H. injection H as <-. reflexivity.
  - destruct (producers_of_record _ _ H) as (l & -> & ->).
    cbn [Py.truthy negb bind].
    destruct names as [|p names]; [reflexivity|].
    cbn [map Py.truthy negb Py.iter bind].
    change (JStr p :: map JStr names) with (map JStr (p :: names)).
    rewrite exact_pass_strings. cbn [bind].
    destruct (existsb (exact_match _) (p :: names)); [reflexivity|].
    rewrite substring_pass_strings. cbn [bind].
    now destruct (existsb (substring_match _) (p :: names)).
Qed.

End FactCheckerFacts.

Example check_tame_impala :
  deterministic_producer_check skeletons "Tame Impala" = Ok (Some true).
Proof. reflexivity. Qed.

Example check_substring :
  deterministic_producer_check skeletons " impala" = Ok (Some true).
Proof. reflexivity. Qed.

Example check_other :
  deterministic_producer_check skeletons "Mike Dean" = Ok (Some false).
Proof. reflexivity. Qed.

(** C1, as the code has it.  On every record and for every claimed name
    the checker returns; the answer is indeterminate exactly when the
    producer-credit list is empty; otherwise it is true when some non-empty
    producer name, lower-cased and trimmed, equals the lower-cased trimmed
    claim, else true when the lower-cased trimmed claim occurs in some
    lower-cased non-empty producer name, else false.  Empty names in the
    list are passed over by both tests. *)
Theorem deterministic_check_spec (info : json) (claim : string)
    (names : list string) :
  producer_credits info = Some names ->
  let aq := py_strip (py_lower claim) in
  let answer := deterministic_producer_check info claim in
  (answer = Ok None <-> names = [])
  /\ (names <> [] ->
      (exists p, In p names /\ p <> "" /\ py_strip (py_lower p) = aq) ->
      answer = Ok (Some true))
  /\ (names <> [] ->
      (exists p, In p names /\ p <> "" /\ py_in aq (py_lower p) = true) ->
      answer = Ok (Some true))
  /\ (names <> [] ->
      (forall p, In p names -> p <> "" ->
                 py_strip (py_lower p) <> aq
                 /\ py_in aq (py_lower p) = false) ->
      answer = Ok (Some false)).
Proof.
  intros H aq answer. subst answer.
  rewrite (check_on_record info claim names H).
  change (py_strip (py_lower claim)) with aq.
  assert (Hne : forall p, p <> "" -> nonempty p = true)
    by (intros [|c p] Hp; [now elim Hp | reflexivity]).
  destruct names as [|n names].
  - repeat split; intros; congruence.
  - split; [split; discriminate|].
    split; [|split]; intros _.
    + intros (p & Hin & Hp & E).
      assert (existsb (exact_match aq) (n :: names) = true) as ->.
      { apply existsb_exists. exists p. split; [exact Hin|].
        unfold exact_match. rewrite (Hne p Hp). now apply String.eqb_eq. }
      reflexivity.
    + intros (p & Hin & Hp & E).
      assert (existsb (substring_match aq) (n :: names) = true) as ->.
      { apply existsb_exists. exists p. split; [exact Hin|].
        unfold substring_match. now rewrite (Hne p Hp). }
      now rewrite orb_true_r.
    + intros Hno.
      assert (existsb (exact_match aq) (n :: names) = false) as ->.
      { apply not_true_is_false. intros E.
        apply existsb_exists in E as (p & Hin & E).
        unfold exact_match in E. apply andb_true_iff in E as [Hp E].
        apply String.eqb_eq in E.
        destruct p; [discriminate|].
        now destruct (Hno _ Hin ltac:(discriminate)). }
      assert (existsb (substring_match aq) (n :: names) = false) as ->.
      { apply not_true_is_false. intros E.
        apply existsb_exists in E as (p & Hin & E).
        unfold substring_match in E. apply andb_true_iff in E as [Hp E].
        destruct p; [discriminate|].
        destruct (Hno _ Hin ltac:(discriminate)) as [_ Hs]. congruence. }
      reflexivity.
Qed.

Lemma deterministic_check_spec_witness :
  producer_credits skeletons = Some ["Tame Impala"]
  /\ deterministic_producer_check skeletons " TAME IMPALA " = Ok (Some true).
Proof.
  split; [reflexivity|].
  apply (deterministic_check_spec skeletons " TAME IMPALA " ["Tame Impala"]
           eq_refl).
  - discriminate.
  - exists "Tame Impala".
    split; [now left | split; [discriminate | reflexivity]].
Defined.

(** C1 as stated fails on a record whose only producer name is the empty
    string: the list is not empty, that name, lower-cased and trimmed,
    equals the lower-cased trimmed claim and contains it, and the answer is
    false. *)
Lemma deterministic_check_empty_name :
  producer_credits empty_name_record = Some [""]
  /\ py_strip (py_lower "") = py_strip (py_lower "  ")
  /\ py_in (py_strip (py_lower "  ")) (py_lower "") = true
  /\ deterministic_producer_check empty_name_record "  " = Ok (Some false).
Proof. repeat split. Qed.

(** C9.  On every record and for every claim the two-pass checker and the
    single-pass variant give the same answer. *)
Theorem two_pass_same_as_substring_only (info : json) (claim : string)
    (names : list string) :
  producer_credits info = Some names ->
  deterministic_producer_check info claim = substring_only_check info claim.
Proof.
  intros H. rewrite (check_on_record info claim names H).
  destruct info as [ | | | | |f]; try discriminate.
  unfold substring_only_check.
  destruct f as [|kv f].
  - simpl in H. injection H as <-. reflexivity.
  - destruct (producers_of_record _ _ H) as (l & -> & ->).
    cbn [Py.truthy negb bind].
    destruct names as [|p names]; [reflexivity|].
    cbn [map Py.truthy negb Py.iter bind].
    change (JStr p :: map JStr names) with (map JStr (p :: names)).
    rewrite substring_pass_strings. cbn [bind].
    destruct (existsb (exact_match _) (p :: names)) eqn:E.
    + now rewrite (existsb_exact_substring _ _ E).
    + now destruct (existsb (substring_match _) (p :: names)).
Qed.

Lemma two_pass_same_as_substring_only_witness :
  producer_credits skeletons = Some ["Tame Impala"]
  /\ deterministic_producer_check skeletons "tame impala"
     = substring_only_check skeletons "tame impala".
Proof.
  split; [reflexivity|].
  exact (two_pass_same_as_substring_only skeletons "tame impala"
           ["Tame Impala"] eq_refl).
Defined.

(* ================================================================== *)
(** * The order of strings and the sort *)
(* ================================================================== *)

Section StringOrder.

Lemma ascii_compare_refl (c : ascii) : Ascii.compare c c = Eq.
Proof. unfold Ascii.compare. apply N.compare_refl. Qed.

Lemma string_compare_refl (s : string) : String.compare s s = Eq.
Proof.
  induction s as [|c s IH]; simpl; [reflexivity|].
  now rewrite ascii_compare_refl.
Qed.

Lemma string_leb_refl (s : string) : String.leb s s = true.
Proof. unfold String.leb. now rewrite string_compare_refl. Qed.

Lemma ascii_compare_lt_trans (a b c : ascii) :
  Ascii.compare a b = Lt -> Ascii.compare b c = Lt -> Ascii.compare a c = Lt.
Proof.
  unfold Ascii.compare. rewrite !N.compare_lt_iff. apply N.lt_trans.
Qed.

Lemma string_leb_trans (a b c : string) :
  String.leb a b = true -> String.leb b c = true -> String.leb a c = true.
Proof.
  unfold String.leb. revert b c.
  induction a as [|x a IH]; intros [|y b] [|z c]; simpl; try easy.
  destruct (Ascii.compare x y) eqn:Exy; try easy;
    destruct (Ascii.compare y z) eqn:Eyz; try easy.
  - apply Ascii.compare_eq_iff in Exy, Eyz. subst y z.
    rewrite ascii_compare_refl. apply IH.
  - apply Ascii.compare_eq_iff in Exy. subst y. now rewrite Eyz.
  - apply Ascii.compare_eq_iff in Eyz. subst z. now rewrite Exy.
  - now rewrite (ascii_compare_lt_trans x y z Exy Eyz).
Qed.

Lemma string_ltb_leb (a b : string) :
  String.ltb a b = true -> String.leb a b = true.
Proof. unfold String.ltb, String.leb. now destruct (String.compare a b). Qed.

Lemma string_not_ltb_leb (a b : string) :
  String.ltb a b = false -> String.leb b a = true.
Proof.
  unfold String.ltb, String.leb. rewrite (String.compare_antisym b a).
  now destruct (String.compare a b).
Qed.

Lemma py_insert_keys (x : string * json) (l : list (string * json)) :
  Py.insert (jkey x) (map jkey l) = Ok (map jkey (insert_key x l)).
Proof.
  induction l as [|y l IH]; simpl; [reflexivity|].
  destruct (String.ltb (fst y) (fst x)); simpl; [|reflexivity].
  now rewrite IH.
Qed.

(** On string keys [sorted] never raises. *)
Lemma py_sort_keys (l : list (string * json)) :
  Py.sort (map jkey l) = Ok (map jkey (sort_keys l)).
Proof.
  induction l as [|x l IH]; simpl; [reflexivity|].
  rewrite IH. simpl. apply py_insert_keys.
Qed.

(** The head of the sorted list is an element with the smallest key. *)
Lemma sort_keys_head (l : list (string * json)) :
  match sort_keys l with
  | [] => l = []
  | x :: _ =>
      In x l /\ forall y, In y l -> String.leb (fst x) (fst y) = true
  end.
Proof.
  induction l as [|a l IH]; simpl; [reflexivity|].
  destruct (sort_keys l) as [|x r]; simpl.
  - subst l. split; [now left|]. intros y [<-|[]]. apply string_leb_refl.
  - destruct IH as [Hin Hmin].
    destruct (String.ltb (fst x) (fst a)) eqn:E.
    + split; [now right|]. intros y [<-|Hy]; [|now apply Hmin].
      now apply string_ltb_leb.
    + split; [now left|]. intros y [<-|Hy]; [apply string_leb_refl|].
      apply string_leb_trans with (fst x); [|now apply Hmin].
      now apply string_not_ltb_leb.
Qed.

End StringOrder.

Lemma is_digit_nine (c : ascii) :
  is_digit c = true -> Ascii.compare c "9" = Lt \/ c = "9"%char.
Proof.
  destruct c as [[] [] [] [] [] [] [] []];
    intros H; try (vm_compute in H; discriminate H);
    solve [left; reflexivity | right; reflexivity].
Qed.

(** The sentinel sorts after every real date. *)
Lemma sentinel_after_real_date (d : string) :
  real_date d = true -> String.ltb d sentinel = true.
Proof.
  destruct d as [|y1 [|y2 [|y3 [|y4 rest]]]]; try discriminate.
  unfold real_date. rewrite !andb_true_iff.
  intros [[[[H1 H2] H3] H4] Hrest].
  unfold String.ltb, sentinel.
  destruct (is_digit_nine y1 H1) as [E1| ->]; [simpl; now rewrite E1|].
  destruct (is_digit_nine y2 H2) as [E2| ->]; [simpl; now rewrite E2|].
  destruct (is_digit_nine y3 H3) as [E3| ->]; [simpl; now rewrite E3|].
  destruct (is_digit_nine y4 H4) as [E4| ->]; [simpl; now rewrite E4|].
  destruct rest as [|dash [|m1 [|m2 rest']]]; try discriminate; [reflexivity|].
  rewrite !andb_true_iff in Hrest. destruct Hrest as [[[Hd Hm] _] _].
  apply Ascii.eqb_eq in Hd. subst dash.
  apply orb_true_iff in Hm as [Hm|Hm]; apply Ascii.eqb_eq in Hm; subst m1;
    reflexivity.
Qed.

(* ================================================================== *)
(** * Credit Normalizer: what the function computes on an entity *)
(* ================================================================== *)

Section NormalizerFacts.

Lemma get_obj (f : list (string * json)) (key : string) (d : json) :
  Py.get (JObj f) key d
  = Ok (match Py.lookup key f with Some v => v | None => d end).
Proof. reflexivity. Qed.

Lemma get_is_obj (v : json) (key : string) :
  is_obj v = true -> Py.get v key JNull = Ok (value (field v key)).
Proof. destruct v; try discriminate. reflexivity. Qed.

Lemma credited_names_wf (acs : list json) :
  forallb is_obj acs = true ->
  credited_names acs = Ok (filter Py.truthy (map artist_name acs)).
Proof.
  induction acs as [|ac acs IH]; simpl; [reflexivity|].
  intros H. apply andb_true_iff in H as [Hac Hacs].
  rewrite (get_is_obj ac "name" Hac), (IH Hacs). reflexivity.
Qed.

Lemma release_key_wf (r : json) :
  wf_release r = true -> release_key r = Ok (JStr (date_key r)).
Proof.
  destruct r as [ | | | | |f]; try discriminate.
  unfold wf_release, release_key, date_key. simpl.
  destruct (Py.lookup "date" f) as [[ | | |[|c d]| | ]|];
    try discriminate; reflexivity.
Qed.

Lemma keyed_releases (l : list json) :
  forallb wf_release l = true ->
  mapM (fun r => k <- release_key r ;; Ok (k, r)) l
  = Ok (map jkey (map keyed l)).
Proof.
  induction l as [|r l IH]; simpl; [reflexivity|].
  intros H. apply andb_true_iff in H as [Hr Hl].
  now rewrite (release_key_wf r Hr), (IH Hl).
Qed.

Lemma map_snd_jkey (l : list (string * json)) :
  map snd (map jkey l) = map snd l.
Proof. induction l as [|x l IH]; simpl; [reflexivity | now rewrite IH]. Qed.

Lemma sorted_releases_wf (l : list json) :
  forallb wf_release l = true ->
  sorted_releases (JArr l) = Ok (map snd (sort_keys (map keyed l))).
Proof.
  intros H. unfold sorted_releases. simpl.
  rewrite (keyed_releases l H). simpl.
  rewrite py_sort_keys. simpl. now rewrite map_snd_jkey.
Qed.

(** The two release fields of the record. *)
Lemma release_fields_wf (f : list (string * json)) :
  wf_array wf_release (Py.lookup "releases" f) = true ->
  match elements (Py.lookup "releases" f) with
  | [] => release_fields (JObj f) = Ok (JNull, JNull)
  | l =>
      exists r, In r l
        /\ (forall r', In r' l ->
                       String.leb (date_key r) (date_key r') = true)
        /\ release_fields (JObj f)
           = Ok (value (field r "title"), value (field r "date"))
  end.
Proof.
  unfold release_fields. rewrite get_obj.
  destruct (Py.lookup "releases" f) as [[ | | | |[|r0 l]| ]|];
    try discriminate; try (intros _; reflexivity).
  cbn [wf_array elements]. intros H.
  cbn [Py.or_ Py.truthy bind].
  rewrite (sorted_releases_wf _ H). cbn [bind].
  pose proof (sort_keys_head (map keyed (r0 :: l))) as Hhead.
  destruct (sort_keys (map keyed (r0 :: l))) as [|x s]; [discriminate|].
  destruct Hhead as [Hin Hmin].
  apply in_map_iff in Hin as (r & <- & Hr).
  exists r. split; [exact Hr|]. split.
  - intros r' Hr'. apply (Hmin (keyed r')). now apply in_map.
  - cbn [map snd keyed].
    assert (Hobj : is_obj r = true).
    { rewrite forallb_forall in H. specialize (H r Hr).
      destruct r; try discriminate. reflexivity. }
    now rewrite !(get_is_obj r _ Hobj).
Qed.

Lemma relations_of_wf (f : list (string * json)) :
  wf_array wf_relation (Py.lookup "relations" f) = true ->
  wf_array wf_relation (Py.lookup "relation-list" f) = true ->
  relations_of (JObj f) = Ok (JArr (relation_list (JObj f)))
  /\ forallb wf_relation (relation_list (JObj f)) = true.
Proof.
  unfold relations_of, relation_list. rewrite !get_obj. simpl field.
  destruct (Py.lookup "relations" f) as [[ | | | |[|r0 l]| ]|];
    try discriminate; cbn [wf_array elements Py.truthy bind];
    intros H1; try (split; [reflexivity | exact H1]).
  all: destruct (Py.lookup "relation-list" f) as [[ | | | |[|r1 l1]| ]|];
    try discriminate; cbn [wf_array elements]; intros H2;
    split; solve [reflexivity | exact H2].
Qed.

Lemma relation_name_wf (rel : json) :
  wf_relation rel = true -> relation_name rel = Ok (rel_name rel).
Proof.
  destruct rel as [ | | | | |f]; try discriminate.
  unfold wf_relation, relation_name, rel_name, populated. simpl field.
  rewrite !get_obj. intros H. apply andb_true_iff in H as [_ H].
  cbn [bind].
  destruct (Py.lookup "artist" f) as [a|]; cbn [value].
  - destruct (Py.truthy a) eqn:Ta.
    + simpl in H. now apply get_is_obj.
    + destruct (Py.lookup "target-credit" f) as [tc|]; cbn [value].
      * destruct (Py.truthy tc); [reflexivity|].
        destruct (Py.lookup "target" f) as [t|]; cbn [value]; [|reflexivity].
        now destruct (Py.truthy t).
      * cbn [Py.truthy].
        destruct (Py.lookup "target" f) as [t|]; cbn [value]; [|reflexivity].
        now destruct (Py.truthy t).
  - cbn [Py.truthy].
    destruct (Py.lookup "target-credit" f) as [tc|]; cbn [value].
    + destruct (Py.truthy tc); [reflexivity|].
      destruct (Py.lookup "target" f) as [t|]; cbn [value]; [|reflexivity].
      now destruct (Py.truthy t).
    + cbn [Py.truthy].
      destruct (Py.lookup "target" f) as [t|]; cbn [value]; [|reflexivity].
      now destruct (Py.truthy t).
Qed.

Lemma relation_type_wf (rel : json) :
  wf_relation rel = true ->
  (t <- Py.get rel "type" (JStr "") ;; Py.lower t) = Ok (rel_type rel).
Proof.
  destruct rel as [ | | | | |f]; try discriminate.
  unfold wf_relation, rel_type. simpl field. rewrite get_obj.
  intros H. apply andb_true_iff in H as [H _].
  destruct (Py.lookup "type" f) as [[ | | |t| | ]|]; try discriminate;
    reflexivity.
Qed.

(** One turn of the loop on a relation of the right shape. *)
Lemma relation_step_wf (c : credits) (rel : json) :
  wf_relation rel = true ->
  relation_step c rel
  = Ok (if Py.truthy (rel_name rel)
        then classify (rel_type rel) (rel_name rel) c else c).
Proof.
  intros H. unfold relation_step.
  pose proof (relation_type_wf rel H) as Ht.
  destruct (Py.get rel "type" (JStr "")) as [t| |]; try discriminate.
  cbn [bind] in Ht |- *. rewrite Ht. cbn [bind].
  rewrite (relation_name_wf rel H). cbn [bind].
  now destruct (Py.truthy (rel_name rel)).
Qed.

Lemma append_if_contribution (test : string -> bool) (rel : json)
    (l : list json) :
  Py.truthy (rel_name rel) = true ->
  append_if (test (rel_type rel)) l (rel_name rel)
  = (l ++ contribution test rel)%list.
Proof.
  intros H. unfold append_if, contribution. rewrite H. simpl.
  destruct (test (rel_type rel)); [reflexivity | now rewrite app_nil_r].
Qed.

Lemma no_contribution (test : string -> bool) (rel : json) :
  Py.truthy (rel_name rel) = false -> contribution test rel = [].
Proof. intros H. unfold contribution. now rewrite H. Qed.

(** The whole loop: every role list receives, in the order of the
    relations, the contributions of the relations. *)
Lemma relation_loop_wf (rels : list json) (c : credits) :
  forallb wf_relation rels = true ->
  relation_loop rels c = Ok (add_contributions rels c).
Proof.
  revert c; induction rels as [|rel rels IH]; intros c H.
  - simpl. unfold add_contributions. simpl. rewrite !app_nil_r.
    now destruct c.
  - simpl in H. apply andb_true_iff in H as [Hrel Hrels].
    cbn [relation_loop]. rewrite (relation_step_wf c rel Hrel). cbn [bind].
    rewrite (IH _ Hrels). f_equal.
    unfold add_contributions. cbn [flat_map].
    destruct (Py.truthy (rel_name rel)) eqn:T.
    + unfold classify. cbn [composer lyricist producer performer].
      rewrite !(append_if_contribution _ rel _ T), <- !app_assoc.
      reflexivity.
    + rewrite !(no_contribution _ rel T). reflexivity.
Qed.

(** The record that [extract_credits] returns on an entity of the right
    shape. *)
Lemma extract_credits_wf (e : json) :
  wf_entity e = true ->
  exists rel,
    release_fields e = Ok rel
    /\ extract_credits e
       = Ok (JObj [ ("title", value (field e "title"));
                    ("length_ms", value (field e "length"));
                    ("artists",
                     JArr (filter Py.truthy
                             (map artist_name
                                (elements (field e "artist-credit")))));
                    ("release_title", fst rel);
                    ("release_date", snd rel);
                    ("credits",
                     credits_dict
                       (add_contributions (relation_list e) no_credits)) ]).
Proof.
  destruct e as [ | | | | |f]; try discriminate.
  unfold wf_entity. rewrite !andb_true_iff.
  intros [[[Hac Hrel] Hr1] Hr2].
  destruct (relations_of_wf f Hr1 Hr2) as [Hrels Hwf].
  pose proof (release_fields_wf f Hrel) as Hfields.
  assert (exists rel, release_fields (JObj f) = Ok rel) as [rel Erel].
  { destruct (elements (Py.lookup "releases" f)).
    - exists (JNull, JNull). exact Hfields.
    - destruct Hfields as (r & _ & _ & E). eexists. exact E. }
  exists rel. split; [exact Erel|].
  unfold extract_credits. rewrite !get_obj. cbn [bind].
  assert (Hiter :
    (acs <- Py.iter (match Py.lookup "artist-credit" f with
                     | Some v => v | None => JArr [] end) ;;
     credited_names acs)
    = Ok (filter Py.truthy
            (map artist_name (elements (Py.lookup "artist-credit" f))))).
  { destruct (Py.lookup "artist-credit" f) as [[ | | | |l| ]|];
      try discriminate; cbn [Py.iter bind elements].
    - now apply credited_names_wf.
    - reflexivity. }
  destruct (Py.iter _) as [acs| |]; try discriminate.
  cbn [bind] in Hiter |- *. rewrite Hiter. cbn [bind].
  rewrite Erel. cbn [bind]. rewrite Hrels. cbn [bind Py.iter].
  rewrite (relation_loop_wf _ no_credits Hwf). reflexivity.
Qed.

End NormalizerFacts.

(* ================================================================== *)
(** * Credit Normalizer: the claims *)
(* ================================================================== *)

Example extract_bohemian :
  extract_credits bohemian
  = Ok (JObj [ ("title", JStr "Bohemian Rhapsody");
               ("length_ms", JNum 354000);
               ("artists", JArr [JStr "Queen"]);
               ("release_title", JStr "A Night at the Opera");
               ("release_date", JStr "1975-11-21");
               ("credits",
                JObj [ ("composer", JArr [JStr "Freddie Mercury"]);
                       ("lyricist", JArr [JStr "Freddie Mercury"]);
                       ("producer", JArr [JStr "Roy Thomas Baker"]);
                       ("performer", JArr []) ]) ]).
Proof. reflexivity. Qed.

Example extract_bare :
  extract_credits bare_entity
  = Ok (JObj [ ("title", JNull);
               ("length_ms", JNull);
               ("artists", JArr []);
               ("release_title", JNull);
               ("release_date", JNull);
               ("credits",
                JObj [ ("composer", JArr []); ("lyricist", JArr []);
                       ("producer", JArr []); ("performer", JArr []) ]) ]).
Proof. reflexivity. Qed.

(** C5.  On every raw recording entity [extract_credits] returns a record;
    the record has the four credit keys, each bound to a list; its artists
    list has no empty-string and no missing entry; and when length,
    releases and relations are all absent the record has no length, no
    release and four empty lists. *)
Theorem extract_credits_well_formed (e : json) :
  wf_entity e = true ->
  exists info artists credits_,
    extract_credits e = Ok info
    /\ field info "artists" = Some (JArr artists)
    /\ (forall a, In a artists -> a <> JStr "" /\ a <> JNull)
    /\ field info "credits" = Some credits_
    /\ (forall role, In role roles ->
                     exists l, field credits_ role = Some (JArr l))
    /\ (field e "length" = None -> field e "releases" = None ->
        field e "relations" = None -> field e "relation-list" = None ->
        field info "length_ms" = Some JNull
        /\ field info "release_title" = Some JNull
        /\ field info "release_date" = Some JNull
        /\ forall role, In role roles ->
                        field credits_ role = Some (JArr [])).
Proof.
  intros H. destruct (extract_credits_wf e H) as (rel & Erel & E).
  eexists. eexists. eexists. split; [exact E|].
  split; [reflexivity|]. split.
  - intros a Ha. apply filter_In in Ha as [_ Ha].
    split; intros ->; discriminate.
  - split; [reflexivity|]. split.
    + intros role [<-|[<-|[<-|[<-|[]]]]]; eexists; reflexivity.
    + intros Hlen Hrels Hr1 Hr2.
      destruct e as [ | | | | |f]; try discriminate.
      pose proof (release_fields_wf f) as Hf.
      simpl field in *. rewrite Hrels in Hf. cbn [wf_array elements] in Hf.
      rewrite (Hf eq_refl) in Erel. injection Erel as <-.
      unfold relation_list. simpl field. rewrite Hlen, Hr1, Hr2.
      split; [reflexivity|]. split; [reflexivity|]. split; [reflexivity|].
      intros role [<-|[<-|[<-|[<-|[]]]]]; reflexivity.
Qed.

Lemma extract_credits_well_formed_witness :
  wf_entity bare_entity = true
  /\ exists info artists credits_,
      extract_credits bare_entity = Ok info
      /\ field info "artists" = Some (JArr artists)
      /\ (forall a, In a artists -> a <> JStr "" /\ a <> JNull)
      /\ field info "credits" = Some credits_
      /\ (forall role, In role roles ->
                       exists l, field credits_ role = Some (JArr l))
      /\ (field bare_entity "length" = None ->
          field bare_entity "releases" = None ->
          field bare_entity "relations" = None ->
          field bare_entity "relation-list" = None ->
          field info "length_ms" = Some JNull
          /\ field info "release_title" = Some JNull
          /\ field info "release_date" = Some JNull
          /\ forall role, In role roles ->
                          field credits_ role = Some (JArr [])).
Proof.
  split; [reflexivity|].
  exact (extract_credits_well_formed bare_entity eq_refl).
Defined.

(** C7.  When the releases list is not empty the record takes its release
    title and date from a release of the list whose sort key is smallest in
    the order of strings; the key of a release without date is the
    sentinel, which sorts after every real date; when there is no release,
    both fields are [None]. *)
Theorem release_selection (e : json) :
  wf_entity e = true ->
  exists info,
    extract_credits e = Ok info
    /\ match elements (field e "releases") with
       | [] =>
           field info "release_title" = Some JNull
           /\ field info "release_date" = Some JNull
       | l =>
           exists r k,
             In r l
             /\ release_key r = Ok (JStr k)
             /\ field info "release_title" = Some (value (field r "title"))
             /\ field info "release_date" = Some (value (field r "date"))
             /\ forall r', In r' l ->
                  exists k', release_key r' = Ok (JStr k')
                             /\ String.leb k k' = true
       end
    /\ (forall r, is_obj r = true -> field r "date" = None ->
                  release_key r = Ok (JStr sentinel))
    /\ (forall d, real_date d = true -> String.ltb d sentinel = true).
Proof.
  intros H. destruct (extract_credits_wf e H) as (rel & Erel & E).
  eexists. split; [exact E|]. split; [|split].
  - destruct e as [ | | | | |f]; try discriminate.
    assert (Hrel : wf_array wf_release (Py.lookup "releases" f) = true).
    { unfold wf_entity in H. rewrite !andb_true_iff in H. tauto. }
    pose proof (release_fields_wf f Hrel) as Hf. simpl field.
    destruct (elements (Py.lookup "releases" f)) as [|r0 l] eqn:El.
    + rewrite Hf in Erel. injection Erel as <-. split; reflexivity.
    + destruct Hf as (r & Hr & Hmin & Ef).
      rewrite Ef in Erel. injection Erel as <-.
      assert (Hwf : forall x, In x (r0 :: l) -> wf_release x = true).
      { destruct (Py.lookup "releases" f) as [[ | | | |l0| ]|];
          try discriminate. simpl in El. subst l0.
        simpl in Hrel. now apply forallb_forall. }
      exists r, (date_key r). split; [exact Hr|].
      split; [apply release_key_wf, Hwf, Hr|].
      split; [reflexivity|]. split; [reflexivity|].
      intros r' Hr'. exists (date_key r').
      split; [apply release_key_wf, Hwf, Hr' | now apply Hmin].
  - intros [ | | | | |f]; try discriminate. intros _ Hd.
    unfold release_key. rewrite get_obj. simpl in Hd. now rewrite Hd.
  - exact sentinel_after_real_date.
Qed.

Lemma release_selection_witness :
  wf_entity bohemian = true
  /\ exists info,
      extract_credits bohemian = Ok info
      /\ field info "release_title" = Some (JStr "A Night at the Opera")
      /\ field info "release_date" = Some (JStr "1975-11-21").
Proof.
  split; [reflexivity|].
  destruct (release_selection bohemian eq_refl) as (info & E & _).
  exists info. split; [exact E|].
  rewrite extract_bohemian in E. injection E as <-. split; reflexivity.
Defined.

(** C6, as the code has it.  The relation list is [relations], or
    [relation-list] when the first is missing or empty.  The name of a
    relation is taken from the first populated field among the nested
    artist object, the credited name and the target, in that order: when
    the artist object is populated the name is the name of that object and
    the other two fields are not read.  Every role list of the record is,
    in the order of the relations, the names of the relations that have a
    name and whose lower-cased type contains a keyword of the role: a
    relation without name adds to no list, a relation that matches several
    roles adds to each. *)
Theorem relation_classification (e : json) :
  wf_entity e = true ->
  exists info,
    extract_credits e = Ok info
    /\ field info "credits"
       = Some (JObj
                 [ ("composer",
                    JArr (flat_map (contribution is_composer)
                            (relation_list e)));
                   ("lyricist",
                    JArr (flat_map (contribution is_lyricist)
                            (relation_list e)));
                   ("producer",
                    JArr (flat_map (contribution is_producer)
                            (relation_list e)));
                   ("performer",
                    JArr (flat_map (contribution is_performer)
                            (relation_list e))) ])
    /\ (forall rel, In rel (relation_list e) ->
          relation_name rel = Ok (rel_name rel)
          /\ (Py.truthy (rel_name rel) = false ->
              forall test, contribution test rel = [])
          /\ (Py.truthy (rel_name rel) = true ->
              forall test, test (rel_type rel) = true ->
                           contribution test rel = [rel_name rel])).
Proof.
  intros H. destruct (extract_credits_wf e H) as (rel & Erel & E).
  eexists. split; [exact E|]. split; [reflexivity|].
  intros r Hr. split; [|split].
  - destruct e as [ | | | | |f]; try discriminate.
    unfold wf_entity in H. rewrite !andb_true_iff in H.
    destruct H as [[_ Hr1] Hr2].
    destruct (relations_of_wf f Hr1 Hr2) as [_ Hwf].
    rewrite forallb_forall in Hwf. now apply relation_name_wf, Hwf.
  - intros T test. now apply no_contribution.
  - intros T test Ht. unfold contribution. now rewrite T, Ht.
Qed.

Lemma relation_classification_witness :
  wf_entity bohemian = true
  /\ exists info,
      extract_credits bohemian = Ok info
      /\ field info "credits"
         = Some (JObj [ ("composer", JArr [JStr "Freddie Mercury"]);
                        ("lyricist", JArr [JStr "Freddie Mercury"]);
                        ("producer", JArr [JStr "Roy Thomas Baker"]);
                        ("performer", JArr []) ]).
Proof.
  split; [reflexivity|].
  destruct (relation_classification bohemian eq_refl) as (info & E & C & _).
  exists info. split; [exact E | exact C].
Defined.

(** C6 as stated fails on a relation whose artist object has no name: the
    credited-name field holds a name and the type is that of a producer,
    yet no name is resolved and the producer list stays empty. *)
Lemma relation_nameless_artist :
  wf_relation nameless_artist = true
  /\ field (value (field nameless_artist "artist")) "name" = None
  /\ field nameless_artist "target-credit" = Some (JStr "George Martin")
  /\ is_producer (rel_type nameless_artist) = true
  /\ relation_name nameless_artist = Ok JNull
  /\ extract_credits (JObj [ ("title", JStr "Yesterday");
                             ("relations", JArr [nameless_artist]) ])
     = Ok (JObj [ ("title", JStr "Yesterday");
                  ("length_ms", JNull);
                  ("artists", JArr []);
                  ("release_title", JNull);
                  ("release_date", JNull);
                  ("credits",
                   JObj [ ("composer", JArr []); ("lyricist", JArr []);
                          ("producer", JArr []); ("performer", JArr []) ]) ]).
Proof. repeat split. Qed.

(* ================================================================== *)
(** * Context Builder: the claims *)
(* ================================================================== *)

Section BuilderFacts.

Lemma strings_of_map (names : list string) :
  Py.strings (map JStr names) = Ok names.
Proof.
  induction names as [|n names IH]; simpl; [reflexivity | now rewrite IH].
Qed.

Lemma is_str_map (l : list json) :
  forallb is_str l = true -> exists names, l = map JStr names.
Proof.
  induction l as [|v l IH]; simpl; intros H.
  - now exists [].
  - apply andb_true_iff in H as [Hv Hl].
    destruct v; try discriminate. destruct (IH Hl) as [names ->].
    now exists (s :: names).
Qed.

Lemma contains_strings (seen : list string) (v : string) :
  Py.contains (map JStr seen) (JStr v)
  = Ok (existsb (fun x => String.eqb x v) seen).
Proof.
  induction seen as [|x seen IH]; simpl; [reflexivity|].
  destruct (String.eqb x v); [reflexivity | exact IH].
Qed.

(** On strings the de-duplication returns strings. *)
Lemma dedupe_strings (vals out : list string) :
  exists out', dedupe (map JStr vals) (map JStr out) = Ok (map JStr out').
Proof.
  revert out; induction vals as [|v vals IH]; intros out; simpl.
  - now exists out.
  - destruct (nonempty v); [|apply IH].
    rewrite contains_strings. simpl.
    destruct (existsb _ out); [apply IH|].
    change [JStr v] with (map JStr [v]). rewrite <- map_app. apply IH.
Qed.

Lemma truthy_or_empty (v : json) :
  Py.truthy (Py.or_ v (JArr [])) = Py.truthy v.
Proof. unfold Py.or_. now destruct (Py.truthy v) eqn:E. Qed.

Lemma title_line_wf (f : list (string * json)) :
  opt_str (Py.lookup "title" f) = true ->
  exists t,
    title_line (JObj f) = Ok ["Title: " ++ t]
    /\ (populated (Py.lookup "title" f) = false -> t = "Unknown title").
Proof.
  unfold title_line, populated. rewrite get_obj.
  destruct (Py.lookup "title" f) as [[ | | |[|c s]| | ]|];
    try discriminate; intros _; eexists; split;
    solve [reflexivity | discriminate].
Qed.

Lemma artists_line_wf (f : list (string * json)) :
  opt_strings (Py.lookup "artists" f) = true ->
  exists t,
    artists_line (JObj f)
    = Ok (line_if (populated (Py.lookup "artists" f)) FArtists t).
Proof.
  unfold artists_line, populated, opt_strings. rewrite get_obj.
  destruct (Py.lookup "artists" f) as [[ | | | |l| ]|];
    try discriminate; cbn [wf_array]; intros H;
    try (now exists "").
  destruct (is_str_map l H) as [names ->].
  destruct names as [|n names]; [now exists ""|].
  exists (py_join ", " (n :: names)).
  change (map JStr (n :: names)) with (JStr n :: map JStr names).
  cbn [Py.or_ Py.truthy bind value Py.join Py.iter].
  change (JStr n :: map JStr names) with (map JStr (n :: names)).
  now rewrite strings_of_map.
Qed.

Lemma release_line_wf (f : list (string * json)) :
  opt_str (Py.lookup "release_title" f) = true ->
  opt_str (Py.lookup "release_date" f) = true ->
  exists t,
    release_line (JObj f)
    = Ok (line_if (populated (Py.lookup "release_title" f)
                   || populated (Py.lookup "release_date" f)) FRelease t).
Proof.
  unfold release_line, populated. rewrite !get_obj.
  destruct (Py.lookup "release_title" f) as [[ | | |[|c s]| | ]|];
    try discriminate; intros _;
    destruct (Py.lookup "release_date" f) as [[ | | |[|c' s']| | ]|];
    try discriminate; intros _;
    first [now exists "" | eexists; reflexivity].
Qed.

Lemma duration_line_wf (f : list (string * json)) :
  opt_num (Py.lookup "length_ms" f) = true ->
  exists t,
    duration_line (JObj f)
    = Ok (line_if (populated (Py.lookup "length_ms" f)) FDuration t).
Proof.
  unfold duration_line, populated. rewrite get_obj.
  destruct (Py.lookup "length_ms" f) as [[ | |n| | | ]|];
    try discriminate; intros _; try (now exists "").
  cbn [value Py.truthy bind].
  destruct (Z.eqb n 0); cbn [negb];
    first [now exists "" | eexists; reflexivity].
Qed.

Lemma mbid_line_wf (f : list (string * json)) :
  opt_str (Py.lookup "_mbid" f) = true ->
  exists t,
    mbid_line (JObj f)
    = Ok (line_if (populated (Py.lookup "_mbid" f)) FMbid t).
Proof.
  unfold mbid_line, populated. rewrite get_obj.
  destruct (Py.lookup "_mbid" f) as [[ | | |[|c s]| | ]|];
    try discriminate; intros _;
    first [now exists "" | eexists; reflexivity].
Qed.

(** The line of one role, with the label the code computes for it. *)
Lemma role_line_wf (c : list (string * json)) (role : string) :
  opt_strings (Py.lookup role c) = true ->
  exists t,
    role_line (JObj c) role
    = Ok (if populated (Py.lookup role c)
          then [py_capitalize role ++ ": " ++ t] else []).
Proof.
  unfold role_line, populated, opt_strings. rewrite get_obj.
  destruct (Py.lookup role c) as [[ | | | |l| ]|];
    try discriminate; cbn [wf_array]; intros H; try (now exists "").
  destruct (is_str_map l H) as [names ->].
  destruct names as [|n names]; [now exists ""|].
  destruct (dedupe_strings (n :: names) []) as [out E].
  exists (py_join ", " out).
  change (map JStr (n :: names)) with (JStr n :: map JStr names) in *.
  cbn [Py.or_ Py.truthy bind value Py.iter].
  change (@nil json) with (map JStr []) at 1.
  rewrite E. cbn [bind Py.join Py.iter].
  now rewrite strings_of_map.
Qed.

(** A line carries the label of its own field only. *)
Lemma prefix_label (g f : sheet_field) (t : string) :
  prefix (label g) (label f ++ t) = field_eqb g f.
Proof.
  destruct g, f; try reflexivity; apply prefix_append.
Qed.

Lemma has_line_app (g : sheet_field) (l1 l2 : list string) :
  has_line g (l1 ++ l2) = has_line g l1 || has_line g l2.
Proof. apply existsb_app. Qed.

Lemma has_line_if (g f : sheet_field) (b : bool) (t : string) :
  has_line g (line_if b f t) = b && field_eqb g f.
Proof.
  destruct b; simpl; [|reflexivity].
  change (String.append (label f) t) with (label f ++ t).
  now rewrite prefix_label, orb_false_r.
Qed.

Lemma line_if_nonempty (b : bool) (f : sheet_field) (t l : string) :
  In l (line_if b f t) -> l <> "".
Proof.
  destruct b; simpl; [|tauto]. intros [<-|[]]. now destruct f.
Qed.

Lemma length_line_if (b : bool) (f : sheet_field) (t : string) :
  List.length (line_if b f t) = if b then 1 else 0.
Proof. now destruct b. Qed.

End BuilderFacts.

Section BuilderLines.

Lemma credits_object_wf (f : list (string * json)) :
  wf_credits (Py.lookup "credits" f) = true ->
  Py.or_ (match Py.lookup "credits" f with
          | Some v => v | None => JObj [] end) (JObj [])
  = JObj (credits_fields f)
  /\ forallb (fun role => opt_strings (Py.lookup role (credits_fields f)))
       roles = true
  /\ forall role,
      role_data (JObj f) role = populated (Py.lookup role (credits_fields f)).
Proof.
  unfold credits_fields, role_data. simpl field.
  destruct (Py.lookup "credits" f) as [[ | | | | |c]|]; try discriminate;
    cbn [wf_credits]; intros H; try (repeat split; reflexivity).
  split; [now destruct c|]. split; [exact H | reflexivity].
Qed.

(** The lines of the sheet of a record of the right shape: the title line,
    then the line of every optional field that has data. *)
Lemma build_context_lines_wf (info : json) :
  wf_info info = true ->
  exists t a r d c1 c2 c3 c4 m : string,
    build_context_lines info
    = Ok ([("Title: " ++ t)%string]
          ++ line_if (has_data FArtists info) FArtists a
          ++ line_if (has_data FRelease info) FRelease r
          ++ line_if (has_data FDuration info) FDuration d
          ++ (line_if (has_data FComposer info) FComposer c1
              ++ line_if (has_data FLyricist info) FLyricist c2
              ++ line_if (has_data FProducer info) FProducer c3
              ++ line_if (has_data FPerformer info) FPerformer c4 ++ [])
          ++ line_if (has_data FMbid info) FMbid m)%list
    /\ (has_data FTitle info = false -> t = "Unknown title").
Proof.
  destruct info as [ | | | | |f]; try discriminate.
  unfold wf_info. rewrite !andb_true_iff.
  intros [[[[[[Ht Ha] Hrt] Hrd] Hl] Hc] Hm].
  destruct (title_line_wf f Ht) as (t & Et & Hu).
  destruct (artists_line_wf f Ha) as (a & Ea).
  destruct (release_line_wf f Hrt Hrd) as (r & Er).
  destruct (duration_line_wf f Hl) as (d & Ed).
  destruct (mbid_line_wf f Hm) as (m & Em).
  destruct (credits_object_wf f Hc) as (Ec & Hroles & Hdata).
  cbn [forallb roles] in Hroles. rewrite !andb_true_iff in Hroles.
  destruct Hroles as (H1 & H2 & H3 & H4 & _).
  destruct (role_line_wf _ _ H1) as (c1 & E1).
  destruct (role_line_wf _ _ H2) as (c2 & E2).
  destruct (role_line_wf _ _ H3) as (c3 & E3).
  destruct (role_line_wf _ _ H4) as (c4 & E4).
  exists t, a, r, d, c1, c2, c3, c4, m. split; [|exact Hu].
  unfold build_context_lines.
  rewrite Et, Ea, Er, Ed, Em, get_obj. cbn [bind]. rewrite Ec.
  cbn [bind role_lines roles].
  rewrite E1, E2, E3, E4. cbn [bind has_data].
  rewrite !Hdata. reflexivity.
Qed.

End BuilderLines.

Example context_bohemian :
  build_context_lines bohemian_record
  = Ok [ "Title: Bohemian Rhapsody";
         "Artist(s): Queen";
         "Release: A Night at the Opera (1975-11-21)";
         "Duration_seconds: 354";
         "Composer: Freddie Mercury";
         "Lyricist: Freddie Mercury";
         "Producer: Roy Thomas Baker";
         "MBID: b1a9c0e9" ].
Proof. reflexivity. Qed.

(** C4, as the code has it.  The sheet of a normalized record is its lines
    joined by line feeds; no line is empty; every field other than the
    title has a line exactly when the record has data for it, so that the
    sheet has one line per known field besides the title line; the title
    line is always there, and reads [Title: Unknown title] when the record
    has no title. *)
Theorem context_lines_spec (info : json) :
  wf_info info = true ->
  exists lines,
    build_context_lines info = Ok lines
    /\ build_context_from_info info = Ok (py_join newline lines)
    /\ (forall l, In l lines -> l <> "")
    /\ (forall f, In f optional_fields ->
                  has_line f lines = has_data f info)
    /\ List.length lines
       = S (List.length (filter (fun f => has_data f info) optional_fields))
    /\ has_line FTitle lines = true
    /\ (has_data FTitle info = false -> In "Title: Unknown title" lines).
Proof.
  intros H.
  destruct (build_context_lines_wf info H)
    as (t & a & r & d & c1 & c2 & c3 & c4 & m & E & Hu).
  eexists. split; [exact E|].
  split; [unfold build_context_from_info; now rewrite E|].
  split; [|split; [|split; [|split]]].
  - intros l Hl. repeat (apply in_app_or in Hl as [Hl|Hl]);
      try (now apply line_if_nonempty in Hl).
    + destruct Hl as [<-|[]]. simpl. discriminate.
    + contradiction.
  - intros f Hf. rewrite !has_line_app, !has_line_if.
    change (has_line f ["Title: " ++ t])
      with (prefix (label f) (label FTitle ++ t) || false).
    rewrite prefix_label.
    simpl in Hf.
    repeat (destruct Hf as [<-|Hf];
            [destruct (has_data FArtists info), (has_data FRelease info),
               (has_data FDuration info), (has_data FComposer info),
               (has_data FLyricist info), (has_data FProducer info),
               (has_data FPerformer info), (has_data FMbid info);
             reflexivity|]).
    contradiction.
  - rewrite !length_app, !length_line_if. cbn [optional_fields filter].
    destruct (has_data FArtists info), (has_data FRelease info),
      (has_data FDuration info), (has_data FComposer info),
      (has_data FLyricist info), (has_data FProducer info),
      (has_data FPerformer info), (has_data FMbid info); reflexivity.
  - rewrite has_line_app.
    change (has_line FTitle ["Title: " ++ t])
      with (prefix (label FTitle) (label FTitle ++ t) || false).
    now rewrite prefix_label.
  - intros Hno. rewrite (Hu Hno). now left.
Qed.

Lemma context_lines_spec_witness :
  wf_info bohemian_record = true
  /\ exists lines,
      build_context_lines bohemian_record = Ok lines
      /\ has_line FProducer lines = true
      /\ has_line FPerformer lines = false.
Proof.
  split; [reflexivity|].
  destruct (context_lines_spec bohemian_record eq_refl)
    as (lines & E & _ & _ & Hf & _).
  exists lines. split; [exact E|]. split.
  - rewrite (Hf FProducer); [reflexivity | simpl; tauto].
  - rewrite (Hf FPerformer); [reflexivity | simpl; tauto].
Defined.

(** C4 as stated fails for the title: this record has no title, and its
    sheet has a title line, which holds a placeholder. *)
Lemma context_title_placeholder :
  wf_info untitled_record = true
  /\ has_data FTitle untitled_record = false
  /\ build_context_lines untitled_record
     = Ok ["Title: Unknown title"; "MBID: b1a9c0e9"]
  /\ has_line FTitle ["Title: Unknown title"; "MBID: b1a9c0e9"] = true.
Proof. repeat split. Qed.

(* ================================================================== *)
(** * Candidate Scorer: the claims *)
(* ================================================================== *)

Local Open Scope Q_scope.

Section ScorerFacts.

Variable ratio : string -> string -> Q.

Lemma Qgtb_true (x y : Q) : Qgtb x y = true <-> y < x.
Proof.
  unfold Qgtb. rewrite negb_true_iff. split; intros H.
  - apply Qnot_le_lt. intros Hle. apply Qle_bool_iff in Hle. congruence.
  - apply not_true_is_false. intros Hle. apply Qle_bool_iff in Hle.
    now apply (Qlt_not_le y x).
Qed.

Lemma Qgtb_false (x y : Q) : Qgtb x y = false <-> x <= y.
Proof.
  unfold Qgtb. rewrite negb_false_iff. apply Qle_bool_iff.
Qed.

(** The loop is the scan of the scores, when every score is computed. *)
Lemma scan_pick (title : string) (artist : option string)
    (recordings : list json) (best : option json) (best_score : Q) :
  scan ratio title artist recordings best best_score
  = (scores <- mapM (candidate_score ratio title artist) recordings ;;
     Ok (pick (combine recordings scores) best best_score)).
Proof.
  revert best best_score.
  induction recordings as [|r recordings IH]; intros best best_score;
    [reflexivity|].
  cbn [scan mapM].
  destruct (candidate_score ratio title artist r) as [s| |]; cbn [bind];
    try reflexivity.
  rewrite !IH.
  destruct (mapM _ recordings) as [scores| |]; cbn [bind combine pick];
    now destruct (Qgtb s best_score).
Qed.

(** Either no score exceeds [best_score] and [best] stays, or the winner is
    the first candidate with the greatest score, which exceeds
    [best_score]. *)
Lemma pick_spec (l : list (json * Q)) (best : option json) (best_score : Q) :
  (pick l best best_score = best
   /\ forall r s, In (r, s) l -> s <= best_score)
  \/ exists i r s,
      nth_error l i = Some (r, s)
      /\ pick l best best_score = Some r
      /\ best_score < s
      /\ (forall j r' s', (j < i)%nat -> nth_error l j = Some (r', s') ->
                          s' < s)
      /\ (forall r' s', In (r', s') l -> s' <= s).
Proof.
  revert best best_score.
  induction l as [|[r0 s0] l IH]; intros best best_score.
  - left. split; [reflexivity | intros r s []].
  - cbn [pick]. destruct (Qgtb s0 best_score) eqn:G.
    + apply Qgtb_true in G. right.
      destruct (IH (Some r0) s0)
        as [[E Hle]|(i & r & s & Hn & E & Hlt & Hb & Ha)].
      * exists 0%nat, r0, s0. split; [reflexivity|]. split; [exact E|].
        split; [exact G|]. split; [intros j r' s' Hj; inversion Hj|].
        intros r' s' [[= <- <-]|Hin]; [apply Qle_refl | eauto].
      * exists (S i), r, s. split; [exact Hn|]. split; [exact E|].
        split; [now apply Qlt_trans with s0|]. split.
        -- intros [|j] r' s' Hj Hnth.
           ++ injection Hnth as <- <-. exact Hlt.
           ++ apply (Hb j r' s'); [apply PeanoNat.lt_S_n, Hj | exact Hnth].
        -- intros r' s' [[= <- <-]|Hin]; [now apply Qlt_le_weak | eauto].
    + apply Qgtb_false in G.
      destruct (IH best best_score)
        as [[E Hle]|(i & r & s & Hn & E & Hlt & Hb & Ha)].
      * left. split; [exact E|].
        intros r' s' [[= <- <-]|Hin]; [exact G | eauto].
      * right. exists (S i), r, s. split; [exact Hn|]. split; [exact E|].
        split; [exact Hlt|]. split.
        -- intros [|j] r' s' Hj Hnth.
           ++ injection Hnth as <- <-. now apply Qle_lt_trans with best_score.
           ++ apply (Hb j r' s'); [apply PeanoNat.lt_S_n, Hj | exact Hnth].
        -- intros r' s' [[= <- <-]|Hin]; [|eauto].
           apply Qlt_le_weak. now apply Qle_lt_trans with best_score.
Qed.

(** From the start of the function: no winner exactly when no score is
    positive. *)
Lemma pick_none (l : list (json * Q)) :
  pick l None 0 = None <-> forall r s, In (r, s) l -> s <= 0.
Proof.
  destruct (pick_spec l None 0)
    as [[E Hle]|(i & r & s & Hn & E & Hlt & _ & Ha)].
  - split; [intros _; exact Hle | intros _; exact E].
  - split; [rewrite E; discriminate|].
    intros H. apply nth_error_In in Hn. specialize (H r s Hn).
    exfalso. now apply (Qlt_not_le 0 s).
Qed.

Lemma similar_range (a b : json) (x : Q) :
  (forall u v, 0 <= ratio u v <= 1) ->
  similar ratio a b = Ok x -> 0 <= x <= 1.
Proof.
  intros Hr. unfold similar.
  destruct (Py.lower (Py.or_ a (JStr ""))) as [la| |]; try discriminate.
  destruct (Py.lower (Py.or_ b (JStr ""))) as [lb| |]; try discriminate.
  cbn [bind]. intros [= <-]. apply Hr.
Qed.

(** The score is a weighted sum within [0,1] when the ratio is. *)
Lemma candidate_score_range (title : string) (artist : option string)
    (r : json) (s : Q) :
  (forall a b, 0 <= ratio a b <= 1) ->
  candidate_score ratio title artist r = Ok s -> 0 <= s <= 1.
Proof.
  intros Hr. unfold candidate_score.
  destruct (Py.get r "title" (JStr "")) as [rt| |]; try discriminate.
  cbn [bind].
  destruct (Py.get r "artist-credit" (JArr [])) as [ac| |]; try discriminate.
  cbn [bind].
  destruct (Py.iter ac) as [acs| |]; try discriminate. cbn [bind].
  destruct (mapM _ acs) as [names| |]; try discriminate. cbn [bind].
  destruct (Py.join " " (JArr names)) as [an| |]; try discriminate.
  cbn [bind].
  destruct (similar ratio (JStr title) rt) as [st| |] eqn:Et;
    try discriminate.
  cbn [bind]. apply (similar_range _ _ _ Hr) in Et.
  destruct artist as [a|]; [destruct (nonempty a)|].
  - destruct (similar ratio (JStr a) (JStr an)) as [sa| |] eqn:Ea;
      try discriminate.
    cbn [bind]. apply (similar_range _ _ _ Hr) in Ea.
    intros [= <-]. split; lra.
  - intros [= <-]. split; lra.
  - intros [= <-]. split; lra.
Qed.

End ScorerFacts.

(** What [choose_best_recording] returns when every score is computed: the
    first candidate with the greatest score if that score is positive,
    nothing otherwise. *)
Lemma choose_best_from_scores (ratio : string -> string -> Q)
    (results : json) (title : string) (artist : option string)
    (recordings : list json) (scores : list Q) :
  field results "recordings" = Some (JArr recordings) ->
  mapM (candidate_score ratio title artist) recordings = Ok scores ->
  choose_best_recording ratio results title artist
  = Ok (pick (combine recordings scores) None 0).
Proof.
  intros Hf Hs. destruct results as [ | | | | |f]; try discriminate.
  unfold choose_best_recording. rewrite get_obj. simpl in Hf. rewrite Hf.
  cbn [bind Py.iter]. now rewrite scan_pick, Hs.
Qed.

(** With no candidate there is no winner. *)
Lemma choose_best_empty (ratio : string -> string -> Q) (title : string)
    (artist : option string) :
  choose_best_recording ratio (JObj [("recordings", JArr [])]) title artist
  = Ok None
  /\ choose_best_recording ratio (JObj []) title artist = Ok None.
Proof. split; reflexivity. Qed.

(** The score of a candidate whose title has ratio 0 with the title asked
    for does not exceed the initial [best_score]. *)
Lemma zero_ratio_no_gain (x : Q) : x == 0 -> Qgtb (0 + (6 # 10) * x) 0 = false.
Proof. intros H. apply Qgtb_false. rewrite H. discriminate. Qed.

(** C3 on a candidate whose title shares no character with the title asked
    for: the ratio of the two titles is 0, the score 0.0 is not greater
    than the initial [best_score], and the function returns nothing although
    the candidate set is not empty. *)
Theorem choose_best_none_for_candidate (ratio : string -> string -> Q) :
  ratio "1979" "nineteen seventy-nine" == 0 ->
  field one_candidate "recordings" = Some (JArr [spelled_out])
  /\ choose_best_recording ratio one_candidate "1979" None = Ok None.
Proof.
  intros H. split; [reflexivity|].
  rewrite (choose_best_from_scores ratio one_candidate "1979" None
             [spelled_out]
             [0 + (6 # 10) * ratio "1979" "nineteen seventy-nine"]
             eq_refl eq_refl).
  cbn [combine pick]. now rewrite (zero_ratio_no_gain _ H).
Qed.

Lemma choose_best_none_for_candidate_witness :
  Difflib.ratio "1979" "nineteen seventy-nine" == 0
  /\ choose_best_recording Difflib.ratio one_candidate "1979" None = Ok None.
Proof.
  split; [reflexivity|].
  apply (choose_best_none_for_candidate Difflib.ratio). reflexivity.
Defined.

(** C8 on two candidates with identical scores: both titles have ratio 0
    with the title asked for, both scores are the same 0.0, and neither the
    earlier nor the later candidate wins. *)
Theorem choose_best_tie_at_zero (ratio : string -> string -> Q) :
  ratio "1979" "nineteen seventy-nine" == 0 ->
  candidate_score ratio "1979" None spelled_out
  = candidate_score ratio "1979" None spelled_out'
  /\ choose_best_recording ratio two_candidates "1979" None = Ok None.
Proof.
  intros H. split; [reflexivity|].
  rewrite (choose_best_from_scores ratio two_candidates "1979" None
             [spelled_out; spelled_out']
             [0 + (6 # 10) * ratio "1979" "nineteen seventy-nine";
              0 + (6 # 10) * ratio "1979" "nineteen seventy-nine"]
             eq_refl eq_refl).
  cbn [combine pick]. now rewrite !(zero_ratio_no_gain _ H).
Qed.

Lemma choose_best_tie_at_zero_witness :
  Difflib.ratio "1979" "nineteen seventy-nine" == 0
  /\ choose_best_recording Difflib.ratio two_candidates "1979" None = Ok None.
Proof.
  split; [reflexivity|].
  apply (choose_best_tie_at_zero Difflib.ratio). reflexivity.
Defined.

(** Apart from that case the scan is as C8 says: with a positive score
    somewhere, the winner is the first candidate with the greatest score,
    so that of two candidates with identical scores the later one never
    wins.  The scores are the exact ones of the embedding; the code
    compares their roundings. *)
Lemma choose_best_first_greatest (ratio : string -> string -> Q)
    (results : json) (title : string) (artist : option string)
    (recordings : list json) (scores : list Q) :
  field results "recordings" = Some (JArr recordings) ->
  mapM (candidate_score ratio title artist) recordings = Ok scores ->
  (exists s, In s scores /\ 0 < s) ->
  exists i r s,
    choose_best_recording ratio results title artist = Ok (Some r)
    /\ nth_error recordings i = Some r
    /\ nth_error scores i = Some s
    /\ (forall j s', (j < i)%nat -> nth_error scores j = Some s' -> s' < s)
    /\ (forall s', In s' scores -> s' <= s).
Proof.
  intros Hf Hs (s0 & Hin & Hpos).
  rewrite (choose_best_from_scores _ _ _ _ _ _ Hf Hs).
  assert (Hlen : List.length recordings = List.length scores).
  { clear Hf Hin. revert scores Hs.
    induction recordings as [|r recordings IH]; intros scores Hs.
    - now injection Hs as <-.
    - cbn [mapM] in Hs.
      destruct (candidate_score ratio title artist r); try discriminate.
      cbn [bind] in Hs.
      destruct (mapM _ recordings) as [ss| |]; try discriminate.
      injection Hs as <-. simpl. now rewrite (IH ss eq_refl). }
  assert (Hcomb : forall j s', nth_error scores j = Some s' ->
            exists r', nth_error (combine recordings scores) j = Some (r', s')).
  { clear -Hlen. revert scores Hlen.
    induction recordings as [|r recordings IH]; intros [|s scores] Hlen;
      try discriminate; intros [|j] s' Hn; try discriminate.
    - injection Hn as <-. now exists r.
    - injection Hlen as Hlen. exact (IH scores Hlen j s' Hn). }
  destruct (pick_spec (combine recordings scores) None 0)
    as [[_ Hle]|(i & r & s & Hn & E & _ & Hb & Ha)].
  - exfalso. apply In_nth_error in Hin as [j Hj].
    destruct (Hcomb j s0 Hj) as [r' Hr'].
    apply nth_error_In in Hr'. apply (Qlt_not_le 0 s0 Hpos).
    exact (Hle r' s0 Hr').
  - exists i, r, s. split; [now rewrite E|].
    assert (Hrs : nth_error recordings i = Some r
                  /\ nth_error scores i = Some s).
    { clear -Hn. revert recordings scores Hn.
      induction i as [|i IH]; intros [|r0 recordings] [|s1 scores] Hn;
        try discriminate.
      - injection Hn as <- <-. now split.
      - exact (IH recordings scores Hn). }
    destruct Hrs as [Hr Hsc]. split; [exact Hr|]. split; [exact Hsc|]. split.
    + intros j s' Hj Hs'. destruct (Hcomb j s' Hs') as [r' Hr'].
      exact (Hb j r' s' Hj Hr').
    + intros s' Hs'. apply In_nth_error in Hs' as [j Hj].
      destruct (Hcomb j s' Hj) as [r' Hr'].
      apply nth_error_In in Hr'. exact (Ha r' s' Hr').
Qed.

Local Close Scope Q_scope.

(* ================================================================== *)
(** * Candidate Lister: further properties *)
(* ================================================================== *)

From Stdlib Require Import Sorted.

Local Open Scope Q_scope.

Section ListerFacts.

Variable title_query : string.
Variable artist_query : option string.

Lemma mapM_length {A B : Type} (f : A -> result B) (l : list A) (bs : list B) :
  mapM f l = Ok bs -> List.length l = List.length bs.
Proof.
  revert bs. induction l as [|a l IH]; intros bs H.
  - now injection H as <-.
  - cbn [mapM] in H. destruct (f a); try discriminate. cbn [bind] in H.
    destruct (mapM f l) as [bs'| |]; try discriminate.
    injection H as <-. simpl. now rewrite (IH bs' eq_refl).
Qed.

Lemma mapM_nth {A B : Type} (f : A -> result B) (l : list A) (bs : list B)
    (i : nat) (a : A) :
  mapM f l = Ok bs -> nth_error l i = Some a ->
  exists b, f a = Ok b /\ nth_error (combine l bs) i = Some (a, b).
Proof.
  revert bs i. induction l as [|a0 l IH]; intros bs i H Hn.
  - destruct i; discriminate.
  - cbn [mapM] in H. destruct (f a0) as [b0| |] eqn:E0; try discriminate.
    cbn [bind] in H. destruct (mapM f l) as [bs'| |]; try discriminate.
    injection H as <-. destruct i as [|i].
    + injection Hn as <-. now exists b0.
    + exact (IH bs' i eq_refl Hn).
Qed.

Lemma combine_nth_fst {A B : Type} (l : list A) (bs : list B) (i : nat)
    (a : A) (b : B) :
  nth_error (combine l bs) i = Some (a, b) -> nth_error l i = Some a.
Proof.
  revert bs i. induction l as [|a0 l IH]; intros [|b0 bs] [|i] H;
    try discriminate.
  - now injection H as <- _.
  - exact (IH bs i H).
Qed.

Lemma title_points_range (rtitle : json) (p : Q) :
  title_points title_query rtitle = Ok p -> 0 <= p <= 7 # 10.
Proof.
  unfold title_points.
  destruct (nonempty title_query && Py.truthy rtitle).
  - destruct (Py.lower rtitle) as [lt| |]; try discriminate. cbn [bind].
    destruct (String.eqb _ lt); [intros [= <-]; split; discriminate|].
    destruct (_ || _); intros [= <-]; split; discriminate.
  - intros [= <-]; split; discriminate.
Qed.

Lemma artist_points_range (names : string) :
  0 <= artist_points artist_query names <= 3 # 10.
Proof.
  unfold artist_points. destruct artist_query as [a|];
    [destruct (nonempty a); [destruct (_ || _)|]|]; split; discriminate.
Qed.

(** A score lies between 0 and 1.01. *)
Lemma presentation_score_range (r : json) (s : Q) :
  presentation_score title_query artist_query r = Ok s ->
  0 <= s <= 101 # 100.
Proof.
  unfold presentation_score.
  destruct (Py.get r "title" (JStr "")) as [rt| |]; try discriminate.
  cbn [bind].
  destruct (artist_names r) as [names| |]; try discriminate. cbn [bind].
  destruct (title_points title_query rt) as [p| |] eqn:Ep; try discriminate.
  cbn [bind]. apply title_points_range in Ep.
  pose proof (artist_points_range names) as Ha.
  destruct (Py.get r "releases" JNull) as [rel| |]; try discriminate.
  cbn [bind]. destruct (Py.truthy rel); intros [= <-]; split; lra.
Qed.

(** The inner loop is the scan of the scores, when every score is
    computed. *)
Lemma top_scan_pick (l : list json) (i : nat) (best : option (nat * json))
    (best_score : Q) :
  top_scan title_query artist_query l i best best_score
  = (scores <- mapM (presentation_score title_query artist_query) l ;;
     Ok (pick_at (combine l scores) i best best_score)).
Proof.
  revert i best best_score.
  induction l as [|r l IH]; intros i best best_score; [reflexivity|].
  cbn [top_scan mapM].
  destruct (presentation_score title_query artist_query r) as [s| |];
    cbn [bind]; try reflexivity.
  rewrite !IH.
  destruct (mapM _ l) as [scores| |]; cbn [bind combine pick_at];
    now destruct (Qgtb s best_score).
Qed.

(** Either no score exceeds [best_score] and [best] stays, or the winner is
    the first candidate with the greatest score. *)
Lemma pick_at_spec (l : list (json * Q)) (i0 : nat)
    (best : option (nat * json)) (best_score : Q) :
  (pick_at l i0 best best_score = best
   /\ forall r s, In (r, s) l -> s <= best_score)
  \/ exists i r s,
      nth_error l i = Some (r, s)
      /\ pick_at l i0 best best_score = Some ((i0 + i)%nat, r)
      /\ best_score < s
      /\ (forall j r' s', (j < i)%nat -> nth_error l j = Some (r', s') ->
                          s' < s)
      /\ (forall r' s', In (r', s') l -> s' <= s).
Proof.
  revert i0 best best_score.
  induction l as [|[r0 s0] l IH]; intros i0 best best_score.
  - left. split; [reflexivity | intros r s []].
  - cbn [pick_at]. destruct (Qgtb s0 best_score) eqn:G.
    + apply Qgtb_true in G. right.
      destruct (IH (S i0) (Some (i0, r0)) s0)
        as [[E Hle]|(i & r & s & Hn & E & Hlt & Hb & Ha)].
      * exists 0%nat, r0, s0. split; [reflexivity|].
        rewrite Nat.add_0_r. split; [exact E|].
        split; [exact G|]. split; [intros j r' s' Hj; inversion Hj|].
        intros r' s' [[= <- <-]|Hin]; [apply Qle_refl | eauto].
      * exists (S i), r, s. split; [exact Hn|].
        rewrite Nat.add_succ_r. split; [exact E|].
        split; [now apply Qlt_trans with s0|]. split.
        -- intros [|j] r' s' Hj Hnth.
           ++ injection Hnth as <- <-. exact Hlt.
           ++ apply (Hb j r' s'); [apply PeanoNat.lt_S_n, Hj | exact Hnth].
        -- intros r' s' [[= <- <-]|Hin]; [now apply Qlt_le_weak | eauto].
    + apply Qgtb_false in G.
      destruct (IH (S i0) best best_score)
        as [[E Hle]|(i & r & s & Hn & E & Hlt & Hb & Ha)].
      * left. split; [exact E|].
        intros r' s' [[= <- <-]|Hin]; [exact G | eauto].
      * right. exists (S i), r, s. split; [exact Hn|].
        rewrite Nat.add_succ_r. split; [exact E|].
        split; [exact Hlt|]. split.
        -- intros [|j] r' s' Hj Hnth.
           ++ injection Hnth as <- <-. now apply Qle_lt_trans with best_score.
           ++ apply (Hb j r' s'); [apply PeanoNat.lt_S_n, Hj | exact Hnth].
        -- intros r' s' [[= <- <-]|Hin]; [|eauto].
           apply Qlt_le_weak. now apply Qle_lt_trans with best_score.
Qed.

(** One pass from the initial state: no [best] for the empty list, the
    first of the best-scoring elements otherwise. *)
Lemma top_scan_first_best (l : list json) (b : option (nat * json)) :
  top_scan title_query artist_query l 0 None (-1) = Ok b ->
  (l = [] /\ b = None)
  \/ exists i c,
      b = Some (i, c)
      /\ first_best (presentation_score title_query artist_query) l i c.
Proof.
  rewrite top_scan_pick.
  destruct (mapM _ l) as [scores| |] eqn:Hs; try discriminate.
  cbn [bind]. intros [= <-].
  destruct l as [|r0 l]; [now left|]. right.
  destruct (pick_at_spec (combine (r0 :: l) scores) 0 None (-1))
    as [[_ Hle]|(i & r & s & Hn & E & _ & Hb & Ha)].
  - exfalso.
    destruct (mapM_nth _ _ _ 0%nat r0 Hs eq_refl) as (s0 & E0 & Hn0).
    apply nth_error_In in Hn0. apply Hle in Hn0.
    apply presentation_score_range in E0. lra.
  - exists i, r. split; [exact E|]. exists s.
    pose proof (combine_nth_fst _ _ _ _ _ Hn) as Hr.
    destruct (mapM_nth _ _ _ i r Hs Hr) as (s1 & E1 & Hn1).
    rewrite Hn in Hn1. injection Hn1 as <-.
    split; [exact Hr|]. split; [exact E1|]. split.
    + intros r' Hin. apply In_nth_error in Hin as [j Hj].
      destruct (mapM_nth _ _ _ j r' Hs Hj) as (s' & E' & Hn').
      exists s'. split; [exact E'|].
      apply nth_error_In in Hn'. exact (Ha r' s' Hn').
    + intros j r' Hj Hnj.
      destruct (mapM_nth _ _ _ j r' Hs Hnj) as (s' & E' & Hn').
      exists s'. split; [exact E'|]. exact (Hb j r' s' Hj Hn').
Qed.

(** Removing at a position of the list takes one element away and leaves
    elements of the list. *)
Lemma remove_spec (i : nat) (best : json) (l : list json) :
  (i < List.length l)%nat ->
  exists l', remove i best l = Ok l'
             /\ List.length l = S (List.length l')
             /\ forall x, In x l' -> In x l.
Proof.
  revert i. induction l as [|x l IH]; intros i Hi; [inversion Hi|].
  destruct i as [|i]; cbn [remove].
  - exists l. split; [reflexivity|]. split; [reflexivity|]. now right.
  - destruct (equal x best).
    + exists l. split; [reflexivity|]. split; [reflexivity|]. now right.
    + destruct (IH i) as (l' & E & Hlen & Hin).
      { simpl in Hi. now apply PeanoNat.lt_S_n. }
      rewrite E. cbn [bind]. exists (x :: l'). split; [reflexivity|].
      split; [simpl; now rewrite Hlen|].
      intros y [<-|Hy]; [now left | right; now apply Hin].
Qed.

(** The candidates found so far are a prefix of the result. *)
Lemma top_loop_acc (n : nat) (l acc : list json) :
  top_loop title_query artist_query n l acc
  = (new <- top_loop title_query artist_query n l [] ;; Ok (acc ++ new)%list).
Proof.
  revert l acc. induction n as [|n IH]; intros l acc; cbn [top_loop].
  - cbn [bind]. now rewrite app_nil_r.
  - destruct (top_scan title_query artist_query l 0 None (-1))
      as [[[i best]|]| |]; cbn [bind]; try reflexivity;
      [|now rewrite app_nil_r].
    destruct (Py.truthy best); [|cbn [bind]; now rewrite app_nil_r].
    destruct (remove i best l) as [l'| |]; cbn [bind]; try reflexivity.
    rewrite (IH l' (acc ++ [best])%list), (IH l' ([] ++ [best])%list).
    destruct (top_loop title_query artist_query n l' []) as [new| |];
      cbn [bind]; try reflexivity.
    now rewrite <- app_assoc.
Qed.

(** One turn of the outer loop: it stops with nothing, or lists the first
    of the best-scoring elements, removes one element and goes on. *)
Lemma top_loop_cases (n : nat) (l cs : list json) :
  top_loop title_query artist_query n l [] = Ok cs ->
  cs = []
  \/ exists n' i c l' cs',
      n = S n'
      /\ first_best (presentation_score title_query artist_query) l i c
      /\ Py.truthy c = true
      /\ remove i c l = Ok l'
      /\ top_loop title_query artist_query n' l' [] = Ok cs'
      /\ cs = c :: cs'.
Proof.
  destruct n as [|n]; cbn [top_loop]; [intros [= <-]; now left|].
  destruct (top_scan title_query artist_query l 0 None (-1))
    as [b| |] eqn:Hscan; try discriminate.
  cbn [bind].
  destruct (top_scan_first_best l b Hscan) as [[_ ->]|(i & c & -> & Hfb)];
    [intros [= <-]; now left|].
  destruct (Py.truthy c) eqn:Ht; [|intros [= <-]; now left].
  destruct (remove i c l) as [l'| |] eqn:Hrm; try discriminate.
  cbn [bind]. rewrite top_loop_acc.
  destruct (top_loop title_query artist_query n l' []) as [cs'| |] eqn:Hl;
    try discriminate.
  cbn [bind]. intros [= <-]. right.
  exists n, i, c, l', cs'. repeat (split; [assumption || reflexivity|]).
  reflexivity.
Qed.

Lemma first_best_position (score : json -> result Q) (l : list json)
    (i : nat) (c : json) :
  first_best score l i c -> (i < List.length l)%nat /\ In c l.
Proof.
  intros (s & Hn & _). split.
  - apply nth_error_Some. now rewrite Hn.
  - now apply nth_error_In in Hn.
Qed.

(** The listing: at most [n] elements of the list, none of them empty. *)
Lemma top_loop_members (n : nat) (l cs : list json) :
  top_loop title_query artist_query n l [] = Ok cs ->
  (List.length cs <= n)%nat
  /\ (List.length cs <= List.length l)%nat
  /\ forall c, In c cs -> In c l /\ Py.truthy c = true.
Proof.
  revert l cs. induction n as [|n IH]; intros l cs H.
  - injection H as <-. repeat split; simpl; try lia; contradiction.
  - destruct (top_loop_cases _ _ _ H)
      as [->|(n' & i & c & l' & cs' & [= <-] & Hfb & Ht & Hrm & Hl & ->)].
    + repeat split; simpl; try lia; contradiction.
    + destruct (first_best_position _ _ _ _ Hfb) as [Hi Hc].
      destruct (remove_spec i c l Hi) as (l'' & E & Hlen & Hin).
      rewrite Hrm in E. injection E as <-.
      destruct (IH l' cs' Hl) as (H1 & H2 & H3).
      split; [simpl; lia|]. split; [simpl; lia|].
      intros x [<-|Hx]; [now split|].
      destruct (H3 x Hx) as [Hx' Hxt]. split; [now apply Hin | exact Hxt].
Qed.

(** The scores of the listing never increase. *)
Lemma top_loop_sorted (n : nat) (l cs : list json) :
  top_loop title_query artist_query n l [] = Ok cs ->
  exists ss,
    mapM (presentation_score title_query artist_query) cs = Ok ss
    /\ StronglySorted (fun x y => y <= x) ss.
Proof.
  revert l cs. induction n as [|n IH]; intros l cs H.
  - injection H as <-. exists []. split; [reflexivity | constructor].
  - destruct (top_loop_cases _ _ _ H)
      as [->|(n' & i & c & l' & cs' & [= <-] & Hfb & Ht & Hrm & Hl & ->)].
    + exists []. split; [reflexivity | constructor].
    + destruct (first_best_position _ _ _ _ Hfb) as [Hi Hc].
      destruct (remove_spec i c l Hi) as (l'' & E & Hlen & Hin).
      rewrite Hrm in E. injection E as <-.
      destruct (IH l' cs' Hl) as (ss & Hss & Hsorted).
      destruct Hfb as (s & Hn & Es & Hmax & _).
      exists (s :: ss). split; [cbn [mapM]; now rewrite Es, Hss|].
      constructor; [exact Hsorted|].
      apply Forall_forall. intros s' Hs'.
      apply In_nth_error in Hs' as [j Hj].
      assert (Hlen' : List.length cs' = List.length ss)
        by exact (mapM_length _ _ _ Hss).
      assert (Hj' : (j < List.length cs')%nat).
      { rewrite Hlen'. apply nth_error_Some. now rewrite Hj. }
      destruct (nth_error cs' j) as [x|] eqn:Hx;
        [|apply nth_error_None in Hx; lia].
      destruct (mapM_nth _ _ _ j x Hss Hx) as (sx & Ex & Hnx).
      assert (sx = s').
      { clear -Hnx Hj. revert ss j Hnx Hj.
        induction cs' as [|a cs' IHc]; intros [|b ss] [|j] Hnx Hj;
          try discriminate.
        - injection Hnx as _ <-. now injection Hj.
        - exact (IHc ss j Hnx Hj). }
      subst sx.
      destruct (top_loop_members _ _ _ Hl) as (_ & _ & Hmem).
      apply nth_error_In in Hx. destruct (Hmem x Hx) as [Hxl' _].
      destruct (Hmax x (Hin x Hxl')) as (s'' & Ex' & Hle).
      rewrite Ex in Ex'. now injection Ex' as <-.
Qed.

(** On a list of recordings the function is the loop. *)
Lemma list_top_candidates_on (search_res : json) (recs : list json) :
  field search_res "recordings" = Some (JArr recs) ->
  list_top_candidates search_res title_query artist_query
  = top_loop title_query artist_query (Nat.min 3 (List.length recs)) recs [].
Proof.
  intros Hf. destruct search_res as [ | | | | |f]; try discriminate.
  unfold list_top_candidates. rewrite get_obj. simpl in Hf. rewrite Hf.
  cbn [bind]. now destruct recs.
Qed.

(** A listing that returns has only listed elements of the [recordings]
    array: a string or a dict under that key makes the first scan fail. *)
Lemma list_top_candidates_ok (search_res : json) (cs : list json) :
  list_top_candidates search_res title_query artist_query = Ok cs ->
  let recs := elements (field search_res "recordings") in
  top_loop title_query artist_query (Nat.min 3 (List.length recs)) recs []
  = Ok cs.
Proof.
  destruct search_res as [ | | | | |f]; try discriminate.
  unfold list_top_candidates. rewrite get_obj. cbn [bind field].
  destruct (Py.lookup "recordings" f) as [[ |b|n|s|l|g]|];
    unfold Py.or_; cbn [Py.truthy elements].
  - intros H; exact H.
  - destruct b; [discriminate | intros H; exact H].
  - destruct (negb (Z.eqb n 0)); [discriminate | intros H; exact H].
  - destruct s as [|c s]; [intros H; exact H|].
    cbn [nonempty Py.iter Py.chars bind List.length].
    change (Nat.min 3 (S ?n)) with (S (Nat.min 2 n)).
    cbn [top_loop top_scan]. unfold presentation_score.
    cbn [Py.get bind]. discriminate.
  - destruct l; intros H; exact H.
  - destruct g as [|[k v] g]; [intros H; exact H|].
    cbn [Py.iter map fst bind List.length].
    change (Nat.min 3 (S ?n)) with (S (Nat.min 2 n)).
    cbn [top_loop top_scan]. unfold presentation_score.
    cbn [Py.get bind]. discriminate.
  - intros H; exact H.
Qed.

Lemma credit_names_wf (l : list json) :
  forallb named_credit l = true ->
  exists ss, mapM (fun a => Py.get a "name" (JStr "")) l = Ok (map JStr ss).
Proof.
  induction l as [|a l IH]; intros H; [now exists []|].
  cbn [forallb] in H. apply andb_true_iff in H as [Ha Hl].
  destruct (IH Hl) as [ss E]. cbn [mapM]. rewrite E.
  destruct a as [ | | | | |g]; try discriminate. rewrite get_obj.
  unfold named_credit in Ha.
  destruct (Py.lookup "name" g) as [[ | | |s| | ]|]; try discriminate;
    cbn [bind].
  - now exists (s :: ss).
  - now exists ("" :: ss)%string.
Qed.

(** A recording of the catalog's shape has a score. *)
Lemma presentation_score_wf (r : json) :
  wf_candidate r = true ->
  exists s, presentation_score title_query artist_query r = Ok s.
Proof.
  destruct r as [ | | | | |f]; try discriminate. unfold wf_candidate.
  intros H. apply andb_true_iff in H as [H Hac].
  apply andb_true_iff in H as [_ Ht].
  unfold presentation_score, artist_names. rewrite !get_obj. cbn [bind].
  assert (Hnames : exists ss,
            (acs <- Py.iter (match Py.lookup "artist-credit" f with
                             | Some v => v | None => JArr [] end) ;;
             names <- mapM (fun a => Py.get a "name" (JStr "")) acs ;;
             Py.join " " (JArr names)) = Ok ss).
  { destruct (Py.lookup "artist-credit" f) as [[ | | | |l| ]|];
      try discriminate; cbn [Py.iter bind].
    - destruct (credit_names_wf l Hac) as [ss ->]. cbn [bind].
      unfold Py.join. cbn [Py.iter bind]. rewrite strings_of_map.
      now eexists.
    - now eexists. }
  destruct Hnames as [names ->]. cbn [bind].
  assert (Htp : exists p,
            title_points title_query
              (match Py.lookup "title" f with
               | Some v => v | None => JStr "" end) = Ok p).
  { unfold title_points.
    destruct (Py.lookup "title" f) as [[ | | |t| | ]|]; try discriminate;
      cbn [Py.truthy Py.lower bind].
    - rewrite andb_false_r. now eexists.
    - destruct (nonempty title_query && nonempty t); [|now eexists].
      destruct (String.eqb _ _); [now eexists|].
      destruct (_ || _); now eexists.
    - rewrite andb_false_r. now eexists. }
  destruct Htp as [p ->]. cbn [bind]. now eexists.
Qed.

Lemma scores_wf (l : list json) :
  forallb wf_candidate l = true ->
  exists ss, mapM (presentation_score title_query artist_query) l = Ok ss.
Proof.
  induction l as [|r l IH]; intros H; [now exists []|].
  cbn [forallb] in H. apply andb_true_iff in H as [Hr Hl].
  destruct (presentation_score_wf r Hr) as [s Es].
  destruct (IH Hl) as [ss Ess]. cbn [mapM]. rewrite Es, Ess. now eexists.
Qed.

(** On recordings of the catalog's shape every turn of the loop lists
    one. *)
Lemma top_loop_wf (n : nat) (l : list json) :
  forallb wf_candidate l = true -> (n <= List.length l)%nat ->
  exists cs, top_loop title_query artist_query n l [] = Ok cs
             /\ List.length cs = n.
Proof.
  revert l. induction n as [|n IH]; intros l Hwf Hn; [now exists []|].
  cbn [top_loop].
  destruct (top_scan title_query artist_query l 0 None (-1)) as [b| |] eqn:Hs.
  - destruct (top_scan_first_best l b Hs) as [[-> _]|(i & c & -> & Hfb)];
      [inversion Hn|].
    destruct (first_best_position _ _ _ _ Hfb) as [Hi Hc].
    assert (Hall : forall x, In x l -> wf_candidate x = true)
      by (now apply forallb_forall).
    assert (Ht : Py.truthy c = true).
    { specialize (Hall c Hc). destruct c; try discriminate.
      unfold wf_candidate in Hall.
      apply andb_true_iff in Hall as [Hall _].
      now apply andb_true_iff in Hall as [Hall _]. }
    cbn [bind]. rewrite Ht.
    destruct (remove_spec i c l Hi) as (l' & -> & Hlen & Hin).
    cbn [bind]. rewrite top_loop_acc.
    destruct (IH l') as (cs & -> & Hcs).
    + apply forallb_forall. intros x Hx. apply Hall, Hin, Hx.
    + lia.
    + cbn [bind]. eexists. split; [reflexivity|]. simpl. now rewrite Hcs.
  - exfalso. rewrite top_scan_pick in Hs.
    destruct (scores_wf l Hwf) as [ss Ess]. rewrite Ess in Hs. discriminate.
  - exfalso. rewrite top_scan_pick in Hs.
    destruct (scores_wf l Hwf) as [ss Ess]. rewrite Ess in Hs. discriminate.
Qed.

End ListerFacts.

(** X1.  Whatever the search result, a listing that [list_top_candidates]
    returns has at most three entries and at most as many as the
    [recordings] array has elements; every entry is an element of that
    array, and none is an empty object. *)
Theorem list_top_candidates_members (search_res : json) (title_query : string)
    (artist_query : option string) (cs : list json) :
  list_top_candidates search_res title_query artist_query = Ok cs ->
  (List.length cs <= 3)%nat
  /\ (List.length cs
      <= List.length (elements (field search_res "recordings")))%nat
  /\ forall c, In c cs ->
       In c (elements (field search_res "recordings"))
       /\ Py.truthy c = true.
Proof.
  intros H. apply list_top_candidates_ok in H. cbv zeta in H.
  destruct (top_loop_members _ _ _ _ _ H) as (H1 & H2 & H3).
  split; [lia|]. split; [exact H2 | exact H3].
Qed.

Lemma list_top_candidates_members_witness :
  (List.length [studio_take; uncredited_take; live_take] <= 3)%nat
  /\ (List.length [studio_take; uncredited_take; live_take]
      <= List.length (elements (field rhapsody_hits "recordings")))%nat
  /\ forall c, In c [studio_take; uncredited_take; live_take] ->
       In c (elements (field rhapsody_hits "recordings"))
       /\ Py.truthy c = true.
Proof.
  exact (list_top_candidates_members rhapsody_hits "bohemian rhapsody"
           (Some "queen") [studio_take; uncredited_take; live_take] eq_refl).
Defined.

(** X2.  On a search result whose recordings have the catalog's shape
    (non-empty objects, string titles, named artist credits)
    [list_top_candidates] returns, and it lists exactly three recordings,
    or all of them when there are fewer: unlike [choose_best_recording], it
    lists recordings that score 0. *)
Theorem list_top_candidates_count (search_res : json) (title_query : string)
    (artist_query : option string) (recs : list json) :
  field search_res "recordings" = Some (JArr recs) ->
  forallb wf_candidate recs = true ->
  exists cs,
    list_top_candidates search_res title_query artist_query = Ok cs
    /\ List.length cs = Nat.min 3 (List.length recs).
Proof.
  intros Hf Hwf. rewrite (list_top_candidates_on _ _ _ _ Hf).
  apply top_loop_wf; [exact Hwf | lia].
Qed.

Lemma list_top_candidates_count_witness :
  exists cs,
    list_top_candidates rhapsody_hits "1979" None = Ok cs
    /\ List.length cs = 3%nat.
Proof.
  exact (list_top_candidates_count rhapsody_hits "1979" None
           [live_take; studio_take; uncredited_take; other_song]
           eq_refl eq_refl).
Defined.

(** X3.  The listing is ranked: the scores of the listed recordings never
    increase from one entry to the next, and the first entry is the first
    of the best-scoring recordings of the search result, every recording
    before it scoring strictly less. *)
Theorem list_top_candidates_ranked (search_res : json) (title_query : string)
    (artist_query : option string) (recs cs : list json) :
  field search_res "recordings" = Some (JArr recs) ->
  list_top_candidates search_res title_query artist_query = Ok cs ->
  (exists ss,
      mapM (presentation_score title_query artist_query) cs = Ok ss
      /\ StronglySorted (fun x y => y <= x) ss)
  /\ forall c cs', cs = c :: cs' ->
       exists i,
         first_best (presentation_score title_query artist_query) recs i c.
Proof.
  intros Hf H. rewrite (list_top_candidates_on _ _ _ _ Hf) in H. split.
  - exact (top_loop_sorted _ _ _ _ _ H).
  - intros c cs' ->.
    destruct (top_loop_cases _ _ _ _ _ H)
      as [E|(n' & i & c' & l' & cs'' & _ & Hfb & _ & _ & _ & E)];
      [discriminate|].
    injection E as <- _. now exists i.
Qed.

Lemma list_top_candidates_ranked_witness :
  (exists ss,
      mapM (presentation_score "bohemian rhapsody" (Some "queen"))
        [studio_take; uncredited_take; live_take] = Ok ss
      /\ StronglySorted (fun x y => y <= x) ss)
  /\ forall c cs', [studio_take; uncredited_take; live_take] = c :: cs' ->
       exists i,
         first_best (presentation_score "bohemian rhapsody" (Some "queen"))
           [live_take; studio_take; uncredited_take; other_song] i c.
Proof.
  exact (list_top_candidates_ranked rhapsody_hits "bohemian rhapsody"
           (Some "queen")
           [live_take; studio_take; uncredited_take; other_song]
           [studio_take; uncredited_take; live_take] eq_refl eq_refl).
Defined.

(** X4.  A recording without artist credit gets the full artist bonus: its
    joined artist names are the empty string, which is a substring of every
    artist asked for, so that it scores 0.3 more than without an artist in
    the query, as a recording credited to exactly that artist does. *)
Theorem uncredited_recording_artist_bonus (title_query a : string)
    (f : list (string * json)) (s : Q) :
  nonempty a = true ->
  Py.lookup "artist-credit" f = None
  \/ Py.lookup "artist-credit" f = Some (JArr []) ->
  presentation_score title_query None (JObj f) = Ok s ->
  exists s',
    presentation_score title_query (Some a) (JObj f) = Ok s'
    /\ s' == s + (3 # 10).
Proof.
  intros Ha Hac. unfold presentation_score, artist_names.
  rewrite !get_obj. cbn [bind].
  assert (E : (acs <- Py.iter (match Py.lookup "artist-credit" f with
                               | Some v => v | None => JArr [] end) ;;
               names <- mapM (fun a => Py.get a "name" (JStr "")) acs ;;
               Py.join " " (JArr names)) = Ok ""%string)
    by (destruct Hac as [-> | ->]; reflexivity).
  rewrite E. cbn [bind].
  destruct (title_points title_query _) as [p| |]; try discriminate.
  cbn [bind]. unfold artist_points. rewrite Ha.
  change (py_lower "") with ""%string.
  assert (Hin : py_in "" (py_lower a) = true) by now destruct (py_lower a).
  rewrite Hin, orb_true_r.
  destruct (Py.truthy _); intros [= <-]; eexists; (split; [reflexivity|]);
    ring.
Qed.

Lemma uncredited_recording_artist_bonus_witness :
  exists s',
    presentation_score "bohemian rhapsody" (Some "queen") uncredited_take
    = Ok s'
    /\ s' == (0 + (7 # 10) + 0) + (3 # 10).
Proof.
  exact (uncredited_recording_artist_bonus "bohemian rhapsody" "queen"
           [("id", JStr "0d2e77a4"); ("title", JStr "Bohemian Rhapsody")]
           (0 + (7 # 10) + 0) eq_refl (or_introl eq_refl) eq_refl).
Defined.

Local Close Scope Q_scope.

(* ================================================================== *)
(** * Candidate Chooser: further properties *)
(* ================================================================== *)

Section ChooserFacts.

Variable em_dash : string.

Lemma typed_release_first (rel : json) :
  typed_release rel = true ->
  exists s,
    (t <- Py.get rel "title" JNull ;;
     d <- Py.get rel "date" JNull ;;
     ts <- Py.str (Py.or_ t (JStr "")) ;;
     if Py.truthy (Py.or_ d (JStr "")) then
       ds <- Py.str (Py.or_ d (JStr "")) ;; Ok (ts ++ " (" ++ ds ++ ")")
     else Ok ts) = Ok s.
Proof.
  destruct rel as [ | | | | |g]; try discriminate. unfold typed_release.
  intros H. apply andb_true_iff in H as [Ht Hd]. rewrite !get_obj.
  cbn [bind].
  destruct (Py.lookup "title" g) as [[ | | |[|c0 t]| | ]|];
    try discriminate;
    destruct (Py.lookup "date" g) as [[ | | |[|c d]| | ]|];
    try discriminate; eexists; reflexivity.
Qed.

(** The line of the menu exists for a recording of the catalog's types. *)
Lemma pretty_candidate_line_typed (idx : Z) (r : json) :
  typed_candidate r = true ->
  exists l, pretty_candidate_line em_dash idx r = Ok l.
Proof.
  unfold typed_candidate. intros H. apply andb_true_iff in H as [H Hid].
  apply andb_true_iff in H as [Hwf Hrel].
  destruct r as [ | | | | |f]; try discriminate.
  unfold wf_candidate in Hwf. apply andb_true_iff in Hwf as [Hwf Hac].
  apply andb_true_iff in Hwf as [_ Ht]. cbn [field] in Hrel, Hid.
  unfold pretty_candidate_line. rewrite !get_obj. cbn [bind]. cbv zeta.
  assert (Hartists : exists s,
            (if Py.truthy (match Py.lookup "artist-credit" f with
                           | Some v => v | None => JArr [] end)
             then
               acs <- Py.iter (match Py.lookup "artist-credit" f with
                               | Some v => v | None => JArr [] end) ;;
               names <- mapM (fun a => Py.get a "name" (JStr "")) acs ;;
               Py.join ", " (JArr names)
             else Ok "Unknown") = Ok s).
  { destruct (Py.lookup "artist-credit" f) as [[ | | | |l| ]|];
      try discriminate; [|now eexists].
    destruct (Py.truthy (JArr l)); [|now eexists]. cbn [Py.iter bind].
    destruct (credit_names_wf l Hac) as [ss ->]. cbn [bind].
    unfold Py.join. cbn [Py.iter bind]. rewrite strings_of_map.
    now eexists. }
  destruct Hartists as [artists ->]. cbn [bind].
  assert (Hrels : exists s,
            (if Py.truthy (Py.or_ (match Py.lookup "releases" f with
                                   | Some v => v | None => JNull end)
                             (JArr []))
             then
               rel <- first_item (Py.or_ (match Py.lookup "releases" f with
                                          | Some v => v | None => JNull end)
                                    (JArr [])) ;;
               t <- Py.get rel "title" JNull ;;
               d <- Py.get rel "date" JNull ;;
               ts <- Py.str (Py.or_ t (JStr "")) ;;
               if Py.truthy (Py.or_ d (JStr "")) then
                 ds <- Py.str (Py.or_ d (JStr "")) ;;
                 Ok (ts ++ " (" ++ ds ++ ")")
               else Ok ts
             else Ok "") = Ok s).
  { destruct (Py.lookup "releases" f) as [[ | | | |[|rel l]| ]|];
      try discriminate; try (now eexists).
    unfold Py.or_. cbn [Py.truthy first_item bind].
    cbn [wf_array forallb] in Hrel. apply andb_true_iff in Hrel as [Hrel _].
    exact (typed_release_first rel Hrel). }
  destruct Hrels as [rel_str ->]. cbn [bind].
  destruct (Py.lookup "title" f) as [[ | | |t| | ]|]; try discriminate;
    destruct (Py.lookup "id" f) as [[ | | |m| | ]|]; try discriminate;
    now eexists.
Qed.

Lemma menu_lines_typed (cs : list json) (i : Z) :
  forallb typed_candidate cs = true ->
  exists ls, menu_lines em_dash i cs = Ok ls.
Proof.
  revert i. induction cs as [|c cs IH]; intros i H; [now exists []|].
  cbn [forallb] in H. apply andb_true_iff in H as [Hc Hcs].
  destruct (pretty_candidate_line_typed i c Hc) as [l El].
  destruct (IH (i + 1)%Z Hcs) as [ls Els].
  cbn [menu_lines]. rewrite El, Els. now eexists.
Qed.

(** The loop returns a candidate or nothing, and what it leaves unread is
    what followed the lines it has read. *)
Lemma choice_loop_sound (cs : list json) (inputs rest : list string)
    (r : result json) :
  cs <> [] ->
  choice_loop cs inputs = Returned r rest ->
  (r = Ok JNull \/ exists c, r = Ok c /\ In c cs)
  /\ exists read, inputs = (read ++ rest)%list.
Proof.
  intros Hcs. induction inputs as [|line inputs IH]; [discriminate|].
  cbn [choice_loop].
  assert (Hskip : choice_loop cs inputs = Returned r rest ->
                  (r = Ok JNull \/ exists c, r = Ok c /\ In c cs)
                  /\ exists read, (line :: inputs) = (read ++ rest)%list).
  { intros H. destruct (IH H) as [Hr [read ->]].
    split; [exact Hr | now exists (line :: read)]. }
  destruct (String.eqb _ "").
  - intros [= <- <-]. split; [|now exists [line]].
    destruct cs as [|c cs]; [contradiction|]. right. exists c.
    split; [reflexivity | now left].
  - destruct (String.eqb _ "c").
    + intros [= <- <-]. split; [now left | now exists [line]].
    + destruct (choice_index _) as [idx|]; [|exact Hskip].
      destruct (nth_error cs idx) as [c|] eqn:Hn; [|exact Hskip].
      intros [= <- <-]. split; [|now exists [line]].
      right. exists c. split; [reflexivity | now apply nth_error_In in Hn].
Qed.

(** An invalid line is read and forgotten. *)
Lemma choice_loop_invalid (cs : list json) (line : string)
    (inputs : list string) :
  invalid_choice line = true ->
  choice_loop cs (line :: inputs) = choice_loop cs inputs.
Proof.
  unfold invalid_choice. cbn [existsb choice_loop]. cbv zeta. intros H.
  apply negb_true_iff in H. rewrite !orb_false_iff in H.
  destruct H as (H0 & Hc & H1 & H2 & H3 & _).
  rewrite H0, Hc. unfold choice_index. now rewrite H1, H2, H3.
Qed.

(** With two typed recordings or more the chooser shows the listing and
    reads the console. *)
Lemma chooser_on_typed (search_res : json) (title : string)
    (artist : option string) (recs : list json) :
  field search_res "recordings" = Some (JArr recs) ->
  forallb typed_candidate recs = true ->
  (2 <= List.length recs)%nat ->
  exists cs,
    list_top_candidates search_res title artist = Ok cs
    /\ List.length cs = Nat.min 3 (List.length recs)
    /\ forall inputs,
         choose_candidate_interactively em_dash search_res title artist
           inputs
         = choice_loop cs inputs.
Proof.
  intros Hf Hty Hlen.
  assert (Hwf : forallb wf_candidate recs = true).
  { apply forallb_forall. intros x Hx.
    pose proof (proj1 (forallb_forall _ _) Hty x Hx) as H.
    unfold typed_candidate in H. apply andb_true_iff in H as [H _].
    now apply andb_true_iff in H as [H _]. }
  rewrite (list_top_candidates_on _ _ _ _ Hf).
  destruct (top_loop_wf title artist (Nat.min 3 (List.length recs)) recs Hwf)
    as (cs & Ecs & Hcs); [lia|].
  exists cs. split; [exact Ecs|]. split; [exact Hcs|]. intros inputs.
  destruct search_res as [ | | | | |f]; try discriminate.
  unfold choose_candidate_interactively. rewrite get_obj.
  simpl in Hf. rewrite Hf. cbn [run].
  destruct recs as [|r0 [|r1 recs]]; [simpl in Hlen; lia..|].
  unfold Py.or_. cbn [Py.truthy negb py_len run List.length Nat.eqb].
  change (list_top_candidates (JObj f) title artist)
    with (r0 <- Py.get (JObj f) "recordings" (JArr []) ;;
          let recs := Py.or_ r0 (JArr []) in
          rec_list <- Py.iter recs ;;
          top_loop title artist (Nat.min 3 (List.length rec_list))
            rec_list []).
  rewrite get_obj, Hf. unfold Py.or_. cbn [Py.truthy bind Py.iter].
  rewrite Ecs. cbn [run].
  destruct cs as [|c cs]; [simpl in Hcs; lia|].
  destruct (menu_lines_typed (c :: cs) 1) as [ls ->]; [|reflexivity].
  apply forallb_forall. intros x Hx.
  destruct (top_loop_members _ _ _ _ _ Ecs) as (_ & _ & Hmem).
  apply (proj1 (forallb_forall _ _) Hty). now apply Hmem.
Qed.

(** The chooser either returns without reading the console, or shows a
    listing of recordings of the search result and reads its lines. *)
Lemma chooser_cases (search_res : json) (title : string)
    (artist : option string) (recs : list json) :
  field search_res "recordings" = Some (JArr recs) ->
  (exists r,
      (forall inputs,
          choose_candidate_interactively em_dash search_res title artist
            inputs
          = Returned r inputs)
      /\ forall c, r = Ok c -> c = JNull \/ In c recs)
  \/ exists cs,
      cs <> []
      /\ (forall c, In c cs -> In c recs)
      /\ forall inputs,
           choose_candidate_interactively em_dash search_res title artist
             inputs
           = choice_loop cs inputs.
Proof.
  intros Hf. destruct search_res as [ | | | | |f]; try discriminate.
  unfold choose_candidate_interactively. rewrite get_obj.
  pose proof Hf as Hf'. simpl in Hf'. rewrite Hf'. cbn [run].
  destruct recs as [|r0 recs].
  { left. exists (Ok JNull). split; [reflexivity|].
    intros c [= <-]. now left. }
  unfold Py.or_. cbn [Py.truthy negb py_len run List.length].
  destruct (Nat.eqb (S (List.length recs)) 1).
  { left. exists (Ok r0). split; [reflexivity|].
    intros c [= <-]. right. now left. }
  rewrite (list_top_candidates_on _ _ _ _ Hf).
  destruct (top_loop title artist _ (r0 :: recs) []) as [cs| |] eqn:Ecs;
    cbn [run].
  - destruct cs as [|c0 cs].
    { left. exists (Ok r0). split; [reflexivity|].
      intros c [= <-]. right. now left. }
    destruct (menu_lines em_dash 1 (c0 :: cs)) as [ls|e|]; cbn [run].
    + right. exists (c0 :: cs). split; [discriminate|].
      split; [|reflexivity].
      destruct (top_loop_members _ _ _ _ _ Ecs) as (_ & _ & Hmem).
      intros c Hc. now apply Hmem.
    + left. exists (Raise e). split; [reflexivity | discriminate].
    + left. exists Unmodelled. split; [reflexivity | discriminate].
  - left. exists (Raise e). split; [reflexivity | discriminate].
  - left. exists Unmodelled. split; [reflexivity | discriminate].
Qed.

End ChooserFacts.

(** X5.  Whatever the user types, a recording that the chooser returns is
    one of the recordings of the search result (or nothing, Python's
    [None]), and the lines that it leaves unread are a tail of the lines
    that it was given. *)
Theorem chooser_returns_a_recording (em_dash : string) (search_res : json)
    (title : string) (artist : option string) (recs : list json)
    (inputs rest : list string) (c : json) :
  field search_res "recordings" = Some (JArr recs) ->
  choose_candidate_interactively em_dash search_res title artist inputs
  = Returned (Ok c) rest ->
  (c = JNull \/ In c recs)
  /\ exists read, inputs = (read ++ rest)%list.
Proof.
  intros Hf H.
  destruct (chooser_cases em_dash search_res title artist recs Hf)
    as [(r & Hr & Hc)|(cs & Hcs & Hmem & Hloop)].
  - rewrite Hr in H. injection H as -> <-.
    split; [now apply Hc | now exists []].
  - rewrite Hloop in H. apply choice_loop_sound in H as [Hr Hread]; [|exact Hcs].
    split; [|exact Hread].
    destruct Hr as [[= <-]|(c' & [= <-] & Hin)]; [now left | right].
    now apply Hmem.
Qed.

Lemma chooser_returns_a_recording_witness :
  (studio_take = JNull
   \/ In studio_take [live_take; studio_take; uncredited_take; other_song])
  /\ exists read, ["7"; " 1 "; "c"] = (read ++ ["c"])%list.
Proof.
  exact (chooser_returns_a_recording "-" rhapsody_hits "bohemian rhapsody"
           (Some "queen")
           [live_take; studio_take; uncredited_take; other_song]
           ["7"; " 1 "; "c"] ["c"] studio_take eq_refl eq_refl).
Defined.

(** X6.  With two or more recordings of the catalog's types in the search
    result, the chooser skips every line that is none of its five answers
    (Enter, c, 1, 2, 3, with any white space around and in any letter
    case): it answers as if the lines had not been typed, and when nothing
    else was typed the EOFError of [input()] escapes from it. *)
Theorem chooser_skips_invalid_lines (em_dash : string) (search_res : json)
    (title : string) (artist : option string) (recs : list json)
    (skipped inputs : list string) :
  field search_res "recordings" = Some (JArr recs) ->
  forallb typed_candidate recs = true ->
  (2 <= List.length recs)%nat ->
  forallb invalid_choice skipped = true ->
  choose_candidate_interactively em_dash search_res title artist
    (skipped ++ inputs)
  = choose_candidate_interactively em_dash search_res title artist inputs
  /\ choose_candidate_interactively em_dash search_res title artist skipped
     = EndOfInput.
Proof.
  intros Hf Hty Hlen Hskip.
  destruct (chooser_on_typed em_dash search_res title artist recs
              Hf Hty Hlen) as (cs & _ & _ & Hloop).
  rewrite !Hloop. clear Hloop. split.
  - induction skipped as [|line skipped IH]; [reflexivity|].
    cbn [forallb] in Hskip. apply andb_true_iff in Hskip as [Hl Hs].
    change ((line :: skipped) ++ inputs)%list
      with (line :: (skipped ++ inputs))%list.
    rewrite (choice_loop_invalid cs line _ Hl). exact (IH Hs).
  - induction skipped as [|line skipped IH]; [reflexivity|].
    cbn [forallb] in Hskip. apply andb_true_iff in Hskip as [Hl Hs].
    rewrite (choice_loop_invalid cs line _ Hl). exact (IH Hs).
Qed.

Lemma chooser_skips_invalid_lines_witness :
  choose_candidate_interactively "-" rhapsody_hits "bohemian rhapsody"
    (Some "queen") (["yes"; "4"; "1 2"] ++ ["2"; "c"])
  = choose_candidate_interactively "-" rhapsody_hits "bohemian rhapsody"
      (Some "queen") ["2"; "c"]
  /\ choose_candidate_interactively "-" rhapsody_hits "bohemian rhapsody"
       (Some "queen") ["yes"; "4"; "1 2"]
     = EndOfInput.
Proof.
  apply (chooser_skips_invalid_lines "-" rhapsody_hits "bohemian rhapsody"
           (Some "queen")
           [live_take; studio_take; uncredited_take; other_song]);
    [reflexivity | reflexivity | simpl; lia | reflexivity].
Defined.

(** X7.  With two or more recordings of the catalog's types, the chooser
    decides on the first line as follows.  An empty or blank line picks the
    head of the listing, which is the first of the best-scoring recordings
    of the search result; the line c, in either case, cancels and returns
    nothing; a number 1, 2 or 3 picks the entry of that rank in the listing
    of [list_top_candidates], and is skipped as an invalid line when the
    listing is shorter.  The line is the only one read. *)
Theorem chooser_decision (em_dash : string) (search_res : json)
    (title : string) (artist : option string) (recs : list json) :
  field search_res "recordings" = Some (JArr recs) ->
  forallb typed_candidate recs = true ->
  (2 <= List.length recs)%nat ->
  exists c0 cs i,
    list_top_candidates search_res title artist = Ok (c0 :: cs)
    /\ first_best (presentation_score title artist) recs i c0
    /\ forall line inputs,
         let choose :=
           choose_candidate_interactively em_dash search_res title artist in
         (blank line = true ->
          choose (line :: inputs) = Returned (Ok c0) inputs)
         /\ (py_lower (py_strip line) = "c" ->
             choose (line :: inputs) = Returned (Ok JNull) inputs)
         /\ (forall idx,
               choice_index (py_lower (py_strip line)) = Some idx ->
               choose (line :: inputs)
               = match nth_error (c0 :: cs) idx with
                 | Some c => Returned (Ok c) inputs
                 | None => choose inputs
                 end).
Proof.
  intros Hf Hty Hlen.
  destruct (chooser_on_typed em_dash search_res title artist recs
              Hf Hty Hlen) as (cs & Ecs & Hcs & Hloop).
  destruct cs as [|c0 cs]; [cbn [List.length] in Hcs; lia|].
  exists c0, cs.
  pose proof Ecs as Ecs'. rewrite (list_top_candidates_on _ _ _ _ Hf) in Ecs'.
  destruct (top_loop_cases _ _ _ _ _ Ecs')
    as [E|(n' & i & c' & l' & cs' & _ & Hfb & _ & _ & _ & E)];
    [discriminate|].
  injection E as <- _. exists i. split; [exact Ecs|]. split; [exact Hfb|].
  intros line inputs choose. subst choose. rewrite !Hloop.
  cbn [choice_loop]. cbv zeta. split; [|split].
  - intros Hb. apply py_strip_blank in Hb. rewrite Hb. reflexivity.
  - intros ->. reflexivity.
  - intros idx Hidx. unfold choice_index in Hidx |- *.
    destruct (String.eqb _ "1") eqn:E1.
    { apply String.eqb_eq in E1. rewrite E1. injection Hidx as <-.
      reflexivity. }
    destruct (String.eqb _ "2") eqn:E2.
    { apply String.eqb_eq in E2. rewrite E2. injection Hidx as <-.
      reflexivity. }
    destruct (String.eqb _ "3") eqn:E3; [|discriminate].
    apply String.eqb_eq in E3. rewrite E3. injection Hidx as <-.
    reflexivity.
Qed.

Lemma chooser_decision_witness :
  exists c0 cs i,
    list_top_candidates rhapsody_hits "bohemian rhapsody" (Some "queen")
    = Ok (c0 :: cs)
    /\ first_best (presentation_score "bohemian rhapsody" (Some "queen"))
         [live_take; studio_take; uncredited_take; other_song] i c0
    /\ forall line inputs,
         let choose :=
           choose_candidate_interactively "-" rhapsody_hits
             "bohemian rhapsody" (Some "queen") in
         (blank line = true ->
          choose (line :: inputs) = Returned (Ok c0) inputs)
         /\ (py_lower (py_strip line) = "c" ->
             choose (line :: inputs) = Returned (Ok JNull) inputs)
         /\ (forall idx,
               choice_index (py_lower (py_strip line)) = Some idx ->
               choose (line :: inputs)
               = match nth_error (c0 :: cs) idx with
                 | Some c => Returned (Ok c) inputs
                 | None => choose inputs
                 end).
Proof.
  apply (chooser_decision "-" rhapsody_hits "bohemian rhapsody"
           (Some "queen")
           [live_take; studio_take; uncredited_take; other_song]);
    [reflexivity | reflexivity | simpl; lia].
Defined.

(* ================================================================== *)
(** * From the entity to the answer: further properties *)
(* ================================================================== *)

Section PipelineFacts.

Lemma typed_release_wf (r : json) :
  typed_release r = true -> wf_release r = true.
Proof.
  destruct r as [ | | | | |g]; try discriminate. unfold typed_release.
  intros H. apply andb_true_iff in H as [_ H]. exact H.
Qed.

Lemma forallb_impl {A : Type} (P Q : A -> bool) (l : list A) :
  (forall x, P x = true -> Q x = true) ->
  forallb P l = true -> forallb Q l = true.
Proof.
  intros HPQ H. apply forallb_forall. intros x Hx.
  apply HPQ. exact (proj1 (forallb_forall _ _) H x Hx).
Qed.

Lemma wf_array_impl (P Q : json -> bool) (o : option json) :
  (forall x, P x = true -> Q x = true) ->
  wf_array P o = true -> wf_array Q o = true.
Proof.
  intros HPQ. destruct o as [[ | | | |l| ]|]; try discriminate;
    try reflexivity.
  apply forallb_impl, HPQ.
Qed.

Lemma typed_relation_wf (rel : json) :
  typed_relation rel = true -> wf_relation rel = true.
Proof. unfold typed_relation. intros H. now apply andb_true_iff in H. Qed.

Lemma typed_credit_obj (ac : json) : typed_credit ac = true -> is_obj ac = true.
Proof. now destruct ac. Qed.

(** A typed entity has the shape that the normalizer asks for. *)
Lemma typed_entity_wf (e : json) : typed_entity e = true -> wf_entity e = true.
Proof.
  destruct e as [ | | | | |f]; try discriminate.
  unfold typed_entity, wf_entity. rewrite !andb_true_iff.
  intros [[[[[_ _] Hac] Hrel] Hr1] Hr2]. repeat split.
  - destruct (Py.lookup "artist-credit" f) as [[ | | | |l| ]|];
      try discriminate; [|reflexivity].
    exact (forallb_impl _ _ _ typed_credit_obj Hac).
  - exact (wf_array_impl _ _ _ typed_release_wf Hrel).
  - exact (wf_array_impl _ _ _ typed_relation_wf Hr1).
  - exact (wf_array_impl _ _ _ typed_relation_wf Hr2).
Qed.

Lemma opt_str_value (o : option json) :
  opt_str o = true -> opt_str (Some (value o)) = true.
Proof. now destruct o as [[ | | | | | ]|]. Qed.

Lemma opt_num_value (o : option json) :
  opt_num o = true -> opt_num (Some (value o)) = true.
Proof. now destruct o as [[ | | | | | ]|]. Qed.

(** The names of typed artist credits, the empty ones left out, are
    strings. *)
Lemma typed_credit_names (l : list json) :
  forallb typed_credit l = true ->
  forallb is_str (filter Py.truthy (map artist_name l)) = true.
Proof.
  induction l as [|ac l IH]; intros H; [reflexivity|].
  cbn [forallb] in H. apply andb_true_iff in H as [Hac Hl].
  cbn [map filter]. destruct ac as [ | | | | |g]; try discriminate.
  change (artist_name (JObj g)) with (value (Py.lookup "name" g)).
  cbn [typed_credit] in Hac.
  destruct (Py.lookup "name" g) as [[ | | |[|c s]| | ]|]; try discriminate;
    cbn [value Py.truthy nonempty forallb is_str andb]; auto.
Qed.

(** What typed relations contribute to a role are strings. *)
Lemma typed_contributions (test : string -> bool) (rels : list json) :
  forallb typed_relation rels = true ->
  forallb is_str (flat_map (contribution test) rels) = true.
Proof.
  induction rels as [|rel rels IH]; intros H; [reflexivity|].
  cbn [forallb] in H. apply andb_true_iff in H as [Hrel Hrels].
  cbn [flat_map]. rewrite forallb_app, (IH Hrels), andb_true_r.
  unfold typed_relation in Hrel. apply andb_true_iff in Hrel as [_ Hn].
  unfold contribution. destruct (Py.truthy (rel_name rel)); [|reflexivity].
  destruct (test (rel_type rel)); [|reflexivity].
  cbn [andb forallb]. simpl in Hn. now rewrite Hn.
Qed.

Lemma typed_relation_list (f : list (string * json)) :
  wf_array typed_relation (Py.lookup "relations" f) = true ->
  wf_array typed_relation (Py.lookup "relation-list" f) = true ->
  forallb typed_relation (relation_list (JObj f)) = true.
Proof.
  unfold relation_list. cbn [field].
  destruct (Py.lookup "relations" f) as [[ | | | |[|r0 l]| ]|];
    try discriminate; cbn [wf_array elements]; intros H1;
    try (intros _; exact H1).
  all: destruct (Py.lookup "relation-list" f) as [[ | | | |l1| ]|];
    try discriminate; cbn [wf_array elements]; intros H2;
    solve [reflexivity | exact H2].
Qed.

(** The record of a typed entity is a well-formed record. *)
Lemma extract_credits_typed (e : json) :
  typed_entity e = true ->
  exists info c,
    extract_credits e = Ok (JObj info)
    /\ wf_info (JObj info) = true
    /\ Py.lookup "_mbid" info = None
    /\ Py.lookup "credits" info = Some (JObj c)
    /\ Py.lookup "producer" c = Some (JArr (producer_relations e))
    /\ forallb is_str (producer_relations e) = true.
Proof.
  intros Hty. pose proof (typed_entity_wf e Hty) as Hwf.
  destruct (extract_credits_wf e Hwf) as (rel & Erel & ->).
  do 2 eexists. split; [reflexivity|].
  destruct e as [ | | | | |f]; try discriminate.
  unfold typed_entity in Hty. rewrite !andb_true_iff in Hty.
  destruct Hty as [[[[[Ht Hl] Hac] Hrels] Hr1] Hr2].
  pose proof (typed_relation_list f Hr1 Hr2) as Htr.
  split; [|split; [reflexivity|]; split; [reflexivity|];
           split; [reflexivity|]; exact (typed_contributions _ _ Htr)].
  unfold wf_info.
  cbn [Py.lookup String.eqb Ascii.eqb Bool.eqb field value].
  cbn [Py.lookup String.eqb Ascii.eqb Bool.eqb field value] in Erel.
  rewrite (opt_str_value _ Ht).
  rewrite (opt_num_value _ Hl).
  assert (Ha : opt_strings
                 (Some (JArr (filter Py.truthy
                                (map artist_name
                                   (elements (Py.lookup "artist-credit" f))))))
               = true).
  { unfold opt_strings. cbn [wf_array].
    destruct (Py.lookup "artist-credit" f) as [[ | | | |l| ]|];
      try discriminate; cbn [elements]; [|reflexivity].
    now apply typed_credit_names. }
  rewrite Ha.
  assert (Hr : opt_str (Some (fst rel)) = true
               /\ opt_str (Some (snd rel)) = true).
  { pose proof (release_fields_wf f
                  (wf_array_impl _ _ _ typed_release_wf Hrels)) as Hf.
    assert (Hall : forall r, In r (elements (Py.lookup "releases" f)) ->
                             typed_release r = true).
    { destruct (Py.lookup "releases" f) as [[ | | | |l| ]|];
        try discriminate; cbn [elements]; try contradiction.
      intros r Hr. exact (proj1 (forallb_forall _ _) Hrels r Hr). }
    destruct (elements (Py.lookup "releases" f)) as [|r0 l].
    - rewrite Hf in Erel. injection Erel as <-. now split.
    - destruct Hf as (r & Hin & _ & E). rewrite E in Erel.
      injection Erel as <-. specialize (Hall r Hin).
      destruct r as [ | | | | |g]; try discriminate.
      unfold typed_release in Hall. apply andb_true_iff in Hall as [H1 H2].
      cbn [fst snd field]. split; now apply opt_str_value. }
  destruct Hr as [-> ->].
  cbn [andb wf_credits credits_dict forallb roles Py.lookup String.eqb
       Ascii.eqb Bool.eqb opt_strings wf_array add_contributions no_credits
       composer lyricist producer performer app opt_str].
  now rewrite !(typed_contributions _ _ Htr).
Qed.

Lemma lookup_set_item_same (key : string) (v : json)
    (f : list (string * json)) :
  Py.lookup key (set_item key v f) = Some v.
Proof.
  induction f as [|[k x] f IH]; cbn [set_item Py.lookup].
  - now rewrite String.eqb_refl.
  - destruct (String.eqb k key) eqn:E; cbn [Py.lookup]; now rewrite E.
Qed.

Lemma lookup_set_item_other (key k : string) (v : json)
    (f : list (string * json)) :
  String.eqb key k = false ->
  Py.lookup k (set_item key v f) = Py.lookup k f.
Proof.
  intros Hk. induction f as [|[k0 x] f IH]; cbn [set_item Py.lookup].
  - now rewrite Hk.
  - destruct (String.eqb k0 key) eqn:E; cbn [Py.lookup].
    + apply String.eqb_eq in E. subst k0. now rewrite Hk.
    + now rewrite IH.
Qed.

(** Attaching a string identifier keeps the record well formed. *)
Lemma wf_info_set_mbid (m : json) (f : list (string * json)) :
  wf_info (JObj f) = true -> opt_str (Some m) = true ->
  wf_info (JObj (set_item "_mbid" m f)) = true.
Proof.
  unfold wf_info. intros H Hm.
  rewrite !(lookup_set_item_other "_mbid") by reflexivity.
  rewrite lookup_set_item_same, Hm.
  rewrite !andb_true_iff in H |- *. tauto.
Qed.

Lemma all_strings_of_map (names : list string) :
  all_strings (map JStr names) = Some names.
Proof.
  induction names as [|n names IH]; [reflexivity|]. simpl. now rewrite IH.
Qed.

(** The producer credits of a record whose producer list holds strings. *)
Lemma producer_credits_of (f c : list (string * json)) (l : list json) :
  Py.lookup "credits" f = Some (JObj c) ->
  Py.lookup "producer" c = Some (JArr l) ->
  forallb is_str l = true ->
  exists names, l = map JStr names /\ producer_credits (JObj f) = Some names.
Proof.
  intros Hc Hp Hl. destruct (is_str_map l Hl) as [names ->].
  exists names. split; [reflexivity|].
  unfold producer_credits. rewrite Hc, Hp. apply all_strings_of_map.
Qed.

(** The sheet of a well-formed record exists. *)
Lemma build_context_wf (info : json) :
  wf_info info = true -> exists text, build_context_from_info info = Ok text.
Proof.
  intros H.
  destruct (build_context_lines_wf info H)
    as (t & a & r & d & c1 & c2 & c3 & c4 & m & E & _).
  unfold build_context_from_info. rewrite E. now eexists.
Qed.

End PipelineFacts.

(** X8.  From a typed entity to the answer of the fact check: the record
    that [extract_credits] makes of the entity is accepted by
    [deterministic_producer_check], whose answer is indeterminate when no
    relation of the entity contributes a producer name, and otherwise says
    whether the claim, lower-cased and trimmed, occurs in the lower-cased
    form of one of the non-empty names that the producer relations
    contribute. *)
Theorem check_after_extract (e : json) (claim : string) :
  typed_entity e = true ->
  exists info names,
    extract_credits e = Ok info
    /\ producer_relations e = map JStr names
    /\ deterministic_producer_check info claim
       = Ok (match names with
             | [] => None
             | _ :: _ =>
                 Some (existsb
                         (substring_match (py_strip (py_lower claim))) names)
             end).
Proof.
  intros Hty.
  destruct (extract_credits_typed e Hty)
    as (info & c & E & _ & _ & Hc & Hp & Hs).
  destruct (producer_credits_of info c _ Hc Hp Hs) as (names & Hn & Hpc).
  exists (JObj info), names. split; [exact E|]. split; [exact Hn|].
  rewrite (check_on_record _ claim names Hpc).
  destruct names as [|n names]; [reflexivity|].
  destruct (existsb (exact_match _) (n :: names)) eqn:Hex; [|reflexivity].
  now rewrite (existsb_exact_substring _ _ Hex).
Qed.

Lemma check_after_extract_witness :
  exists info names,
    extract_credits bohemian = Ok info
    /\ producer_relations bohemian = map JStr names
    /\ deterministic_producer_check info " Roy THOMAS "
       = Ok (match names with
             | [] => None
             | _ :: _ =>
                 Some (existsb
                         (substring_match
                            (py_strip (py_lower " Roy THOMAS "))) names)
             end).
Proof. exact (check_after_extract bohemian " Roy THOMAS " eq_refl). Defined.

(** X9.  From a typed entity to the fact sheet: the record that
    [extract_credits] makes of the entity is a well-formed record, also
    after [retrieve_with_choice] has attached a string identifier to it,
    and [build_context_from_info] returns a sheet for it. *)
Theorem context_after_extract (e : json) (mbid : string) :
  typed_entity e = true ->
  exists info text,
    extract_credits e = Ok (JObj info)
    /\ wf_info (JObj (set_item "_mbid" (JStr mbid) info)) = true
    /\ Py.lookup "_mbid" (set_item "_mbid" (JStr mbid) info)
       = Some (JStr mbid)
    /\ build_context_from_info (JObj (set_item "_mbid" (JStr mbid) info))
       = Ok text.
Proof.
  intros Hty.
  destruct (extract_credits_typed e Hty) as (info & c & E & Hwf & _).
  pose proof (wf_info_set_mbid (JStr mbid) info Hwf eq_refl) as Hwf'.
  destruct (build_context_wf _ Hwf') as [text Et].
  exists info, text. split; [exact E|]. split; [exact Hwf'|].
  split; [apply lookup_set_item_same | exact Et].
Qed.

Lemma context_after_extract_witness :
  exists info text,
    extract_credits bohemian = Ok (JObj info)
    /\ wf_info (JObj (set_item "_mbid" (JStr "b1a9c0e9") info)) = true
    /\ Py.lookup "_mbid" (set_item "_mbid" (JStr "b1a9c0e9") info)
       = Some (JStr "b1a9c0e9")
    /\ build_context_from_info
         (JObj (set_item "_mbid" (JStr "b1a9c0e9") info))
       = Ok text.
Proof. exact (context_after_extract bohemian "b1a9c0e9" eq_refl). Defined.

Section RetrieverFacts.

Variable em_dash : string.
Variable search_recordings : string -> option string -> nat -> option json.
Variable fetch_recording_relations : json -> option json.

Hypothesis fetch_typed :
  forall mbid full,
    fetch_recording_relations mbid = Some full -> typed_entity full = true.

(** From the chosen recording to the end of the function. *)
Lemma retrieve_chosen_typed (c : json) (unread rest : list string)
    (r : result json) :
  typed_candidate c = true ->
  retrieve_chosen fetch_recording_relations c unread = Returned r rest ->
  rest = unread
  /\ exists v, r = Ok v /\ retrieved fetch_recording_relations c v.
Proof.
  intros Hc. unfold retrieve_chosen.
  destruct c as [ | | | | |f]; try discriminate. rewrite get_obj.
  cbn [run]. change (match Py.lookup "id" f with
                     | Some v => v | None => JNull end)
               with (value (field (JObj f) "id")).
  destruct (fetch_recording_relations _) as [full|] eqn:Ef.
  - destruct (extract_credits_typed full (fetch_typed _ _ Ef))
      as (info & cr & E & _).
    rewrite E. intros [= <- <-]. split; [reflexivity|]. eexists.
    split; [reflexivity|]. right. exists full, info.
    split; [exact Ef|]. split; [exact E | reflexivity].
  - intros [= <- <-]. split; [reflexivity|]. eexists.
    split; [reflexivity | now left].
Qed.

End RetrieverFacts.

(** X10.  On a search result with recordings of the catalog's types, and
    with a catalog whose entities have its types, [retrieve_with_choice]
    does not raise: what it returns is nothing (no recording, a
    cancellation, a failed fetch) or, for one of the recordings of the
    search result, the record that [extract_credits] makes of the entity
    fetched under the identifier of that recording, with the identifier
    attached as [_mbid]; and it leaves a tail of the console lines
    unread. *)
Theorem retrieve_with_choice_record (em_dash : string)
    (search_recordings : string -> option string -> nat -> option json)
    (fetch_recording_relations : json -> option json)
    (title : string) (artist : option string) (search_res : json)
    (recs : list json) (inputs rest : list string) (r : result json) :
  (forall mbid full,
      fetch_recording_relations mbid = Some full ->
      typed_entity full = true) ->
  search_recordings title artist 10%nat = Some search_res ->
  field search_res "recordings" = Some (JArr recs) ->
  forallb typed_candidate recs = true ->
  retrieve_with_choice em_dash search_recordings fetch_recording_relations
    title artist inputs
  = Returned r rest ->
  (exists read, inputs = (read ++ rest)%list)
  /\ exists v,
      r = Ok v
      /\ (v = JNull
          \/ exists c, In c recs /\ retrieved fetch_recording_relations c v).
Proof.
  intros Hfetch Hs Hf Hty. unfold retrieve_with_choice. rewrite Hs.
  destruct search_res as [ | | | | |f]; try discriminate.
  rewrite get_obj. pose proof Hf as Hf'. simpl in Hf'. rewrite Hf'.
  cbn [run].
  assert (Hall : forall c, In c recs -> typed_candidate c = true)
    by (now apply forallb_forall).
  destruct recs as [|r0 recs].
  { cbn. intros [= <- <-]. split; [now exists []|].
    exists JNull. split; [reflexivity | now left]. }
  unfold Py.or_. cbn [Py.truthy negb py_len run List.length].
  destruct (Nat.ltb 1 (S (List.length recs))) eqn:Hn.
  - destruct (chooser_on_typed em_dash (JObj f) title artist (r0 :: recs)
                Hf Hty) as (cs & Ecs & _ & Hloop).
    { apply Nat.ltb_lt in Hn. cbn [List.length]. lia. }
    rewrite Hloop.
    assert (Hcs : cs <> []).
    { destruct cs; [|discriminate]. exfalso.
      rewrite (list_top_candidates_on _ _ _ _ Hf) in Ecs.
      destruct (top_loop_wf title artist
                  (Nat.min 3 (List.length (r0 :: recs))) (r0 :: recs))
        as (cs' & Ecs' & Hlen).
      - apply (forallb_impl typed_candidate); [|exact Hty].
        intros x Hx. unfold typed_candidate in Hx.
        apply andb_true_iff in Hx as [Hx _].
        now apply andb_true_iff in Hx as [Hx _].
      - lia.
      - rewrite Ecs in Ecs'. injection Ecs' as <-.
        cbn [List.length] in Hlen. lia. }
    assert (Hmem : forall c, In c cs -> In c (r0 :: recs)).
    { rewrite (list_top_candidates_on _ _ _ _ Hf) in Ecs.
      destruct (top_loop_members _ _ _ _ _ Ecs) as (_ & _ & Hmem).
      intros c Hc. now apply Hmem. }
    destruct (choice_loop cs inputs) as [[chosen|e|] unread|] eqn:Hchoice;
      cbn [and_then]; try discriminate.
    + apply choice_loop_sound in Hchoice as [Hr [read ->]]; [|exact Hcs].
      destruct (Py.truthy chosen) eqn:Ht; cbn [negb].
      * destruct Hr as [[= ->]|(c & [= <-] & Hin)]; [discriminate|].
        intros H.
        apply (retrieve_chosen_typed fetch_recording_relations Hfetch)
          in H as (-> & v & -> & Hv); [|now apply Hall, Hmem].
        split; [now exists read|]. exists v. split; [reflexivity|].
        right. exists chosen. split; [now apply Hmem | exact Hv].
      * intros [= <- <-]. split; [now exists read|].
        exists JNull. split; [reflexivity | now left].
    + apply choice_loop_sound in Hchoice as [[Hr|(c & Hr & _)] _];
        [discriminate| discriminate | exact Hcs].
    + apply choice_loop_sound in Hchoice as [[Hr|(c & Hr & _)] _];
        [discriminate| discriminate | exact Hcs].
  - cbn [first_item run]. intros H.
    apply (retrieve_chosen_typed fetch_recording_relations Hfetch)
      in H as (-> & v & -> & Hv); [|apply Hall; now left].
    split; [now exists []|]. exists v. split; [reflexivity|].
    right. exists r0. split; [now left | exact Hv].
Qed.

Lemma retrieve_with_choice_record_witness :
  (exists read, ["7"; "2"; "c"] = (read ++ ["c"])%list)
  /\ exists v,
      Ok sample_record = Ok v
      /\ (v = JNull
          \/ exists c,
              In c [live_take; studio_take; uncredited_take; other_song]
              /\ retrieved sample_fetch c v).
Proof.
  apply (retrieve_with_choice_record "-" sample_search sample_fetch
           "bohemian rhapsody" (Some "queen") rhapsody_hits
           [live_take; studio_take; uncredited_take; other_song]
           ["7"; "2"; "c"] ["c"] (Ok sample_record));
    [intros mbid full [= <-]; reflexivity
    | reflexivity | reflexivity | reflexivity | reflexivity].
Defined.

(* ================================================================== *)
(** * Response Formatter: further properties *)
(* ================================================================== *)

Section FormatterFacts.

Variable em_dash : string.

(** On strings the keys of [dict.fromkeys] are strings. *)
Lemma fromkeys_strings (vals keys : list string) :
  exists keys', fromkeys (map JStr vals) (map JStr keys) = Ok (map JStr keys').
Proof.
  revert keys; induction vals as [|v vals IH]; intros keys; simpl.
  - now exists keys.
  - rewrite contains_strings. simpl.
    destruct (existsb _ keys); [apply IH|].
    change [JStr v] with (map JStr [v]). rewrite <- map_app. apply IH.
Qed.

Lemma credit_line_wf (c : list (string * json)) (role label : string) :
  opt_strings (Py.lookup role c) = true ->
  exists lines, credit_line (JObj c) role label = Ok lines.
Proof.
  unfold credit_line. rewrite get_obj. cbn [bind]. unfold opt_strings.
  destruct (Py.lookup role c) as [[ | | | |l| ]|]; try discriminate;
    cbn [wf_array]; try (intros _; now eexists).
  intros Hl. destruct (is_str_map l Hl) as [names ->].
  destruct names as [|n names]; [now eexists|].
  cbn [map Py.truthy Py.iter bind].
  change (JStr n :: map JStr names) with (map JStr (n :: names)).
  destruct (fromkeys_strings (n :: names) []) as [keys E].
  cbn [map] in E |- *. rewrite E. cbn [bind].
  unfold Py.join. cbn [Py.iter bind]. rewrite strings_of_map.
  now eexists.
Qed.

Lemma py_join_cons (sep x : string) (xs : list string) :
  exists rest,
    py_join sep (x :: xs) = x ++ rest
    /\ (rest = "" \/ prefix sep rest = true).
Proof.
  unfold py_join. destruct xs as [|y xs].
  - exists "". split; [simpl; now rewrite append_empty_r | now left].
  - exists (sep ++ concat sep (y :: xs)). split; [reflexivity|].
    right. apply prefix_append.
Qed.

(** The response for a well-formed record whose credits are a dict: it
    starts with the title between asterisks, and what follows is on
    further lines. *)
Lemma format_response_wf (f : list (string * json)) :
  wf_info (JObj f) = true ->
  Py.truthy (JObj f) = true ->
  Py.lookup "credits" f <> Some JNull ->
  exists rest,
    format_response em_dash (JObj f)
    = Ok ("**"
          ++ match Py.lookup "title" f with
             | Some (JStr t) => t
             | Some _ => "None"
             | None => "Unknown title"
             end
          ++ "**" ++ rest)
    /\ (rest = "" \/ prefix newline rest = true).
Proof.
  unfold wf_info. rewrite !andb_true_iff.
  intros [[[[[[Ht Ha] Hrt] Hrd] Hl] Hc] _] Hf Hnull.
  unfold format_response. rewrite Hf. cbn [negb]. rewrite !get_obj.
  cbn [bind].
  assert (Etitle : exists ts,
            Py.str (match Py.lookup "title" f with
                    | Some v => v | None => JStr "Unknown title" end) = Ok ts
            /\ ts = match Py.lookup "title" f with
                    | Some (JStr t) => t
                    | Some _ => "None"
                    | None => "Unknown title"
                    end).
  { destruct (Py.lookup "title" f) as [[ | | |t| | ]|]; try discriminate;
      now eexists. }
  destruct Etitle as (ts & -> & <-). cbn [bind]. cbv zeta.
  assert (Eby : exists l,
            (if Py.truthy (match Py.lookup "artists" f with
                           | Some v => v | None => JNull end)
             then
               j <- Py.join ", " (match Py.lookup "artists" f with
                                  | Some v => v | None => JNull end) ;;
               Ok ["by " ++ j]
             else Ok []) = Ok l).
  { unfold opt_strings in Ha.
    destruct (Py.lookup "artists" f) as [[ | | | |l| ]|]; try discriminate;
      try (now eexists).
    cbn [wf_array] in Ha. destruct (is_str_map l Ha) as [names ->].
    destruct names as [|n names]; [now eexists|].
    cbn [map Py.truthy]. unfold Py.join. cbn [Py.iter bind].
    change (JStr n :: map JStr names) with (map JStr (n :: names)).
    rewrite strings_of_map. now eexists. }
  destruct Eby as [by_line ->]. cbn [bind].
  assert (Erel : exists l,
            (if Py.truthy (match Py.lookup "release_title" f with
                           | Some v => v | None => JNull end)
                || Py.truthy (match Py.lookup "release_date" f with
                              | Some v => v | None => JNull end)
             then
               r <- Py.str (Py.or_ (match Py.lookup "release_title" f with
                                    | Some v => v | None => JNull end)
                              (JStr "")) ;;
               if Py.truthy (Py.or_ (match Py.lookup "release_date" f with
                                     | Some v => v | None => JNull end)
                               (JStr ""))
               then
                 d <- Py.str (Py.or_ (match Py.lookup "release_date" f with
                                      | Some v => v | None => JNull end)
                                (JStr "")) ;;
                 Ok ["Released: " ++ r ++ " (" ++ d ++ ")"]
               else Ok ["Released: " ++ r]
             else Ok []) = Ok l).
  { destruct (Py.lookup "release_title" f) as [[ | | |[|c0 t]| | ]|];
      try discriminate;
      destruct (Py.lookup "release_date" f) as [[ | | |[|c1 d]| | ]|];
      try discriminate; eexists; reflexivity. }
  destruct Erel as [released ->]. cbn [bind].
  assert (Ecredits : exists c,
            match Py.lookup "credits" f with
            | Some v => v | None => JObj [] end = JObj c
            /\ forallb (fun role => opt_strings (Py.lookup role c)) roles
               = true).
  { destruct (Py.lookup "credits" f) as [[ | | | | |c]|]; try discriminate.
    - now elim Hnull.
    - exists c. now split.
    - exists []. now split. }
  destruct Ecredits as (c & -> & Hroles).
  cbn [forallb roles] in Hroles. rewrite !andb_true_iff in Hroles.
  destruct Hroles as (H1 & H2 & H3 & _).
  destruct (credit_line_wf c "composer" "Written by: " H1) as [c1 ->].
  destruct (credit_line_wf c "producer" "Produced by: " H3) as [c2 ->].
  destruct (credit_line_wf c "lyricist" "Lyrics: " H2) as [c3 ->].
  cbn [bind].
  assert (Edur : exists l,
            (if Py.truthy (match Py.lookup "length_ms" f with
                           | Some v => v | None => JNull end)
             then
               secs <- whole_seconds (match Py.lookup "length_ms" f with
                                      | Some v => v | None => JNull end) ;;
               Ok ["Duration: " ++ Py.decimal (secs / 60) ++ ":"
                   ++ pad2 (secs mod 60)]
             else Ok []) = Ok l).
  { destruct (Py.lookup "length_ms" f) as [[ | |n| | | ]|]; try discriminate;
      try (now eexists).
    cbn [Py.truthy whole_seconds]. destruct (negb _); now eexists. }
  destruct Edur as [duration ->]. cbn [bind].
  cbn [app].
  match goal with
  | |- context [py_join newline (?x :: ?xs)] =>
      destruct (py_join_cons newline x xs) as (rest & E & Hrest)
  end.
  rewrite E. exists rest. split; [|exact Hrest].
  now rewrite !append_assoc.
Qed.

End FormatterFacts.

(** X11.  From a typed entity to the response of [format_response]: the
    record that [extract_credits] makes of the entity is accepted, and the
    response starts with the title of the entity between asterisks.  The
    record always holds the key [title], so that the default of
    [info.get('title','Unknown title')] is never used: an entity without
    title is shown as [**None**]. *)
Theorem format_after_extract (em_dash : string) (e : json) :
  typed_entity e = true ->
  exists info rest,
    extract_credits e = Ok info
    /\ format_response em_dash info
       = Ok ("**" ++ shown_title e ++ "**" ++ rest)
    /\ (rest = "" \/ prefix newline rest = true).
Proof.
  intros Hty.
  destruct (extract_credits_typed e Hty)
    as (info & c & E & Hwf & _ & Hc & _).
  pose proof (typed_entity_wf e Hty) as Hshape.
  destruct (extract_credits_wf e Hshape) as (rel & _ & E').
  rewrite E in E'. injection E' as ->.
  destruct (format_response_wf em_dash _ Hwf eq_refl) as (rest & Er & Hr).
  { rewrite Hc. discriminate. }
  eexists. exists rest. split; [exact E|]. split; [|exact Hr].
  rewrite Er. f_equal. f_equal. f_equal.
  cbn [Py.lookup String.eqb Ascii.eqb Bool.eqb]. unfold shown_title.
  destruct e as [ | | | | |f]; try discriminate.
  unfold typed_entity in Hty. rewrite !andb_true_iff in Hty.
  destruct Hty as [[[[[Ht _] _] _] _] _]. cbn [field].
  now destruct (Py.lookup "title" f) as [[ | | |t| | ]|].
Qed.

Lemma format_after_extract_witness :
  exists info rest,
    extract_credits bare_entity = Ok info
    /\ format_response "-" info = Ok ("**" ++ shown_title bare_entity
                                      ++ "**" ++ rest)
    /\ (rest = "" \/ prefix newline rest = true).
Proof. exact (format_after_extract "-" bare_entity eq_refl). Defined.

Section FormatterLines.

Lemma py_join_last (sep y : string) (xs : list string) :
  exists before, py_join sep (xs ++ [y])%list = before ++ y.
Proof.
  unfold py_join. induction xs as [|x xs IH].
  - now exists "".
  - destruct IH as [before E].
    change ((x :: xs) ++ [y])%list with (x :: (xs ++ [y]))%list.
    assert (Hc : concat sep (x :: (xs ++ [y])%list)
                 = x ++ sep ++ concat sep (xs ++ [y])%list)
      by (destruct xs; reflexivity).
    rewrite Hc, E. exists (x ++ sep ++ before).
    now rewrite !append_assoc.
Qed.

(** The seconds of a minute are written with two digits. *)
Lemma pad2_length (s : Z) :
  (0 <= s < 60)%Z -> String.length (pad2 s) = 2%nat.
Proof.
  intros Hs.
  assert (Hall : forallb (fun k => Nat.eqb (String.length
                                    (pad2 (Z.of_nat k))) 2)
                   (seq 0 60) = true) by reflexivity.
  pose proof (proj1 (forallb_forall _ _) Hall (Z.to_nat s)) as H.
  cbv beta in H. rewrite Z2Nat.id in H by lia.
  apply Nat.eqb_eq, H, in_seq. lia.
Qed.

Lemma Ok_inj {A : Type} (a b : A) : Ok a = Ok b -> a = b.
Proof. now intros [= ->]. Qed.

Lemma truthy_of_lookup (f : list (string * json)) (key : string) (v : json) :
  Py.lookup key f = Some v -> Py.truthy (JObj f) = true.
Proof. now destruct f. Qed.

Lemma truthy_set_item (key : string) (v : json) (f : list (string * json)) :
  Py.truthy (JObj (set_item key v f)) = true.
Proof.
  destruct f as [|[k x] f]; [reflexivity|]. cbn [set_item].
  now destruct (String.eqb k key).
Qed.

(** A line of credits does not depend on the other roles. *)
Lemma credit_line_set_item (c : list (string * json)) (key role label : string)
    (v : json) :
  String.eqb key role = false ->
  credit_line (JObj (set_item key v c)) role label
  = credit_line (JObj c) role label.
Proof.
  intros H. unfold credit_line. rewrite !get_obj.
  now rewrite (lookup_set_item_other key role v c H).
Qed.

End FormatterLines.

(** X12.  When the record has a length of [n] milliseconds, [n] not zero,
    a response of [format_response] ends with the line [Duration: m:ss],
    where [m] minutes and [ss] seconds are the whole seconds [n // 1000] of
    the length, and the seconds are below 60 and written with two
    digits. *)
Theorem format_response_duration (em_dash : string) (info : json) (n : Z)
    (text : string) :
  field info "length_ms" = Some (JNum n) ->
  n <> 0%Z ->
  format_response em_dash info = Ok text ->
  exists before m s,
    text = before ++ "Duration: " ++ Py.decimal m ++ ":" ++ pad2 s
    /\ (n / 1000 = 60 * m + s)%Z
    /\ (0 <= s < 60)%Z
    /\ String.length (pad2 s) = 2%nat.
Proof.
  intros Hf Hn. destruct info as [ | | | | |f]; try discriminate.
  cbn [field] in Hf. unfold format_response.
  rewrite (truthy_of_lookup f _ _ Hf). cbn [negb].
  destruct (Py.get (JObj f) "title" _) as [t| |]; try discriminate.
  cbn [bind]. destruct (Py.str t) as [ts| |]; try discriminate.
  cbn [bind]. cbv zeta.
  destruct (Py.get (JObj f) "artists" _) as [a| |]; try discriminate.
  cbn [bind].
  destruct (if Py.truthy a then _ else _) as [by_line| |]; try discriminate.
  cbn [bind].
  destruct (Py.get (JObj f) "release_title" _) as [rt| |]; try discriminate.
  cbn [bind].
  destruct (Py.get (JObj f) "release_date" _) as [rd| |]; try discriminate.
  cbn [bind].
  destruct (if Py.truthy rt || Py.truthy rd then _ else _)
    as [released| |]; try discriminate.
  cbn [bind].
  destruct (Py.get (JObj f) "credits" _) as [cr| |]; try discriminate.
  cbn [bind].
  destruct (credit_line cr "composer" _) as [c1| |]; try discriminate.
  cbn [bind].
  destruct (credit_line cr "producer" _) as [c2| |]; try discriminate.
  cbn [bind].
  destruct (credit_line cr "lyricist" _) as [c3| |]; try discriminate.
  cbn [bind]. rewrite get_obj, Hf. cbn [bind Py.truthy whole_seconds].
  apply Z.eqb_neq in Hn. rewrite Hn. cbn [negb bind].
  set (dline := "Duration: " ++ Py.decimal (n / 1000 / 60) ++ ":"
                ++ pad2 ((n / 1000) mod 60)).
  intros H. apply Ok_inj in H. subst text.
  match goal with
  | |- context [py_join newline (?p ++ ?b ++ ?r ++ ?c ++ [dline])%list] =>
      destruct (py_join_last newline dline (p ++ b ++ r ++ c)%list)
        as [before E];
      replace (p ++ b ++ r ++ c ++ [dline])%list
        with ((p ++ b ++ r ++ c) ++ [dline])%list
        by (now rewrite <- !app_assoc)
  end.
  rewrite E. exists before, (n / 1000 / 60)%Z, ((n / 1000) mod 60)%Z.
  split; [reflexivity|].
  split; [apply Z.div_mod; discriminate|].
  assert (Hs : (0 <= (n / 1000) mod 60 < 60)%Z)
    by (apply Z.mod_pos_bound; reflexivity).
  split; [exact Hs | exact (pad2_length _ Hs)].
Qed.

Lemma format_response_duration_witness :
  exists before m s,
    "**SKELETONS**" ++ newline ++ "by Travis Scott" ++ newline
    ++ "Released: ASTROWORLD (2018-08-03)" ++ newline
    ++ "Produced by: Tame Impala" ++ newline ++ "Duration: 2:25"
    = before ++ "Duration: " ++ Py.decimal m ++ ":" ++ pad2 s
    /\ (145000 / 1000 = 60 * m + s)%Z
    /\ (0 <= s < 60)%Z
    /\ String.length (pad2 s) = 2%nat.
Proof.
  apply (format_response_duration "-" skeletons 145000);
    [reflexivity | discriminate | reflexivity].
Defined.

(** X13.  [format_response] shows neither the performers nor the
    identifier of a record: the response stays the same when the performer
    list of the credits is replaced, and when an identifier is attached to
    the record as [retrieve_with_choice] does. *)
Theorem format_response_ignores_performers (em_dash : string)
    (f c : list (string * json)) (v m : json) :
  Py.lookup "credits" f = Some (JObj c) ->
  format_response em_dash
    (JObj (set_item "credits" (JObj (set_item "performer" v c)) f))
  = format_response em_dash (JObj f)
  /\ format_response em_dash (JObj (set_item "_mbid" m f))
     = format_response em_dash (JObj f).
Proof.
  intros Hc. unfold format_response.
  rewrite !truthy_set_item, (truthy_of_lookup f _ _ Hc). cbn [negb].
  rewrite !get_obj.
  rewrite !(lookup_set_item_other "credits" "title"),
    !(lookup_set_item_other "credits" "artists"),
    !(lookup_set_item_other "credits" "release_title"),
    !(lookup_set_item_other "credits" "release_date"),
    !(lookup_set_item_other "credits" "length_ms") by reflexivity.
  rewrite !(lookup_set_item_other "_mbid" "title"),
    !(lookup_set_item_other "_mbid" "artists"),
    !(lookup_set_item_other "_mbid" "release_title"),
    !(lookup_set_item_other "_mbid" "release_date"),
    !(lookup_set_item_other "_mbid" "credits"),
    !(lookup_set_item_other "_mbid" "length_ms") by reflexivity.
  rewrite lookup_set_item_same, Hc. cbn [bind].
  rewrite !(credit_line_set_item c "performer" "composer"),
    !(credit_line_set_item c "performer" "producer"),
    !(credit_line_set_item c "performer" "lyricist") by reflexivity.
  split; reflexivity.
Qed.

Lemma format_response_ignores_performers_witness :
  format_response "-"
    (JObj (set_item "credits"
             (JObj (set_item "performer" (JArr [JStr "Brian May"])
                      (credits_fields (record_fields skeletons))))
             (record_fields skeletons)))
  = format_response "-" (JObj (record_fields skeletons))
  /\ format_response "-"
       (JObj (set_item "_mbid" (JStr "2c4a6b1e") (record_fields skeletons)))
     = format_response "-" (JObj (record_fields skeletons)).
Proof.
  exact (format_response_ignores_performers "-" (record_fields skeletons)
           (credits_fields (record_fields skeletons))
           (JArr [JStr "Brian May"]) (JStr "2c4a6b1e") eq_refl).
Defined.

(* ================================================================== *)
(** * Facts about the matcher of the question parsers *)
(* ================================================================== *)

Section RxFacts.

Lemma py_lower_app (a b : string) :
  py_lower (a ++ b) = py_lower a ++ py_lower b.
Proof. induction a as [|c a IH]; simpl; [reflexivity | now rewrite IH]. Qed.

Lemma every_app (P : ascii -> bool) (a b : string) :
  every P (a ++ b) = every P a && every P b.
Proof.
  induction a as [|c a IH]; simpl; [reflexivity|].
  now rewrite IH, andb_assoc.
Qed.

(** A quantified class that matches has consumed a prefix of the text, made
    of characters of the class, and handed the rest over. *)
Lemma q_quant_split (R : Type) (k : Re.cclass)
    (next : string -> string -> option R) (q : Rx.quant) (s : string)
    (r : R) :
  Rx.q_quant R k next q s = Some r ->
  exists taken rest,
    s = taken ++ rest
    /\ every (Re.accepts k) taken = true
    /\ next taken rest = Some r.
Proof.
  assert (Honce : forall u, Rx.q_once R k next u = Some r ->
            exists taken rest,
              u = taken ++ rest /\ every (Re.accepts k) taken = true
              /\ next taken rest = Some r).
  { intros [|c u]; simpl; [discriminate|].
    destruct (Re.accepts k c) eqn:Ec; [|discriminate].
    intros H. exists (String c ""), u. simpl. now rewrite Ec. }
  assert (Hplus : forall u taken0,
            Rx.q_plus R k next taken0 u = Some r ->
            exists t rest,
              u = t ++ rest /\ every (Re.accepts k) t = true
              /\ next (taken0 ++ t) rest = Some r).
  { intros u. induction u as [|c u IH]; intros taken0; simpl;
      [discriminate|].
    destruct (Re.accepts k c) eqn:Ec; [|discriminate].
    destruct (Rx.q_plus R k next (taken0 ++ String c "") u) eqn:E.
    - intros [= ->]. destruct (IH _ E) as (t & rest & -> & Ht & Hn).
      exists (String c t), rest. simpl. rewrite Ec, Ht.
      rewrite append_assoc in Hn. now repeat split.
    - intros H. exists (String c ""), u. simpl. now rewrite Ec. }
  assert (Hlazy : forall u taken0,
            Rx.q_plus_lazy R k next taken0 u = Some r ->
            exists t rest,
              u = t ++ rest /\ every (Re.accepts k) t = true
              /\ next (taken0 ++ t) rest = Some r).
  { intros u. induction u as [|c u IH]; intros taken0; simpl;
      [discriminate|].
    destruct (Re.accepts k c) eqn:Ec; [|discriminate].
    destruct (next (taken0 ++ String c "") u) eqn:E.
    - intros [= ->]. exists (String c ""), u. simpl. now rewrite Ec.
    - intros H. destruct (IH _ H) as (t & rest & -> & Ht & Hn).
      exists (String c t), rest. simpl. rewrite Ec, Ht.
      rewrite append_assoc in Hn. now repeat split. }
  destruct q; simpl.
  - apply Honce.
  - unfold Rx.q_opt. destruct (Rx.q_once R k next s) eqn:E.
    + intros [= ->]. now apply Honce.
    + intros H. now exists "", s.
  - unfold Rx.q_star. destruct (Rx.q_plus R k next "" s) eqn:E.
    + intros [= ->]. exact (Hplus s "" E).
    + intros H. now exists "", s.
  - apply Hplus.
  - apply Hlazy.
Qed.

Lemma match_atoms_split (atoms : list (Rx.quant * Re.cclass))
    (next : bool -> string -> option Rx.found) (b : bool) (s : string)
    (r : Rx.found) :
  Rx.match_atoms atoms next b s = Some r ->
  exists pre rest b', s = pre ++ rest /\ next b' rest = Some r.
Proof.
  revert b s. induction atoms as [|[q k] atoms IH]; intros b s; simpl.
  - intros H. now exists "", s, b.
  - intros H. apply q_quant_split in H as (taken & rest & -> & _ & H).
    destruct (IH _ _ H) as (pre & rest' & b' & -> & Hn).
    exists (taken ++ pre), rest', b'. now rewrite append_assoc.
Qed.

(** A match of a sequence of two patterns holds a match of the second. *)
Lemma match_items_app (p1 p2 : Rx.pattern) (b : bool) (s : string)
    (r : Rx.found) :
  Rx.match_items (p1 ++ p2)%list b s = Some r ->
  exists pre rest b' r',
    s = pre ++ rest /\ Rx.match_items p2 b' rest = Some r'.
Proof.
  revert b s r. induction p1 as [|it p1 IH]; intros b s r.
  - intros H. now exists "", s, b, r.
  - change ((it :: p1) ++ p2)%list with (it :: (p1 ++ p2))%list.
    destruct it as [q k|name q k| | |atoms]; cbn [Rx.match_items]; intros H.
    + apply q_quant_split in H as (taken & rest & -> & _ & H).
      destruct (IH _ _ _ H) as (pre & rest' & b' & r' & -> & Hm).
      exists (taken ++ pre), rest', b', r'. now rewrite append_assoc.
    + apply q_quant_split in H as (taken & rest & -> & _ & H).
      destruct (Rx.match_items (p1 ++ p2)%list _ rest) as [[caps after]|] eqn:E;
        [|discriminate].
      destruct (IH _ _ _ E) as (pre & rest' & b' & r' & -> & Hm).
      exists (taken ++ pre), rest', b', r'. now rewrite append_assoc.
    + destruct b; [|discriminate]. exact (IH _ _ _ H).
    + destruct (Rx.at_end s); [|discriminate]. exact (IH _ _ _ H).
    + destruct (Rx.match_atoms atoms _ b s) eqn:E.
      * apply match_atoms_split in E as (pre & rest & b' & -> & E).
        destruct (IH _ _ _ E) as (pre' & rest' & b'' & r' & -> & Hm).
        exists (pre ++ pre'), rest', b'', r'. now rewrite append_assoc.
      * exact (IH _ _ _ H).
Qed.

(** A match of a literal word has read the word, in some letter case. *)
Lemma match_items_word (w : string) (p : Rx.pattern) (b : bool) (s : string)
    (r : Rx.found) :
  Rx.match_items (Rx.word w ++ p)%list b s = Some r ->
  exists mid rest, s = mid ++ rest /\ py_lower mid = py_lower w.
Proof.
  revert b s. induction w as [|c w IH]; intros b s.
  - intros _. now exists "", s.
  - cbn [Rx.word app Rx.match_items Rx.q_quant]. unfold Rx.q_once.
    destruct s as [|c' s]; [discriminate|].
    destruct (Re.accepts (Re.Lit c) c') eqn:Ec; [|discriminate].
    intros H. destruct (IH _ _ H) as (mid & rest & -> & Hl).
    exists (String c' mid), rest. split; [reflexivity|].
    simpl. rewrite Hl. f_equal. simpl in Ec. now apply Ascii.eqb_eq in Ec.
Qed.

Lemma search_from_split (p : Rx.pattern) (b : bool) (before s : string)
    (found_before : string) (r : Rx.found) :
  Rx.search_from p b before s = Some (found_before, r) ->
  exists skipped rest b',
    s = skipped ++ rest
    /\ found_before = before ++ skipped
    /\ Rx.match_items p b' rest = Some r.
Proof.
  revert b before. induction s as [|c s IH]; intros b before;
    cbn [Rx.search_from].
  - destruct (Rx.match_items p b "") eqn:E; [|discriminate].
    intros [= <- <-]. exists "", "", b.
    split; [reflexivity|]. split; [now rewrite append_empty_r | exact E].
  - destruct (Rx.match_items p b (String c s)) eqn:E.
    + intros [= <- <-]. exists "", (String c s), b.
      split; [reflexivity|]. split; [now rewrite append_empty_r | exact E].
    + intros H. destruct (IH _ _ H) as (skipped & rest & b' & -> & -> & Hm).
      exists (String c skipped), rest, b'. rewrite append_assoc.
      now repeat split.
Qed.

(** A text in which a pattern that holds a literal word is found holds the
    word, in some letter case. *)
Lemma search_word (p1 p2 : Rx.pattern) (w : string) (s : string)
    (x : string * Rx.found) :
  Rx.search (p1 ++ Rx.word w ++ p2)%list s = Some x ->
  py_in (py_lower w) (py_lower s) = true.
Proof.
  destruct x as [before r]. unfold Rx.search. intros H.
  apply search_from_split in H as (skipped & rest & b & -> & _ & H).
  apply match_items_app in H as (pre & rest' & b' & r' & -> & H).
  apply match_items_word in H as (mid & rest'' & -> & Hl).
  rewrite !py_lower_app, Hl, <- !append_assoc.
  rewrite (append_assoc (py_lower skipped ++ py_lower pre)).
  apply py_in_append.
Qed.

(** A match binds every group of the pattern. *)
Lemma match_atoms_found (atoms : list (Rx.quant * Re.cclass))
    (next : bool -> string -> option Rx.found) (b : bool) (s : string)
    (r : Rx.found) :
  Rx.match_atoms atoms next b s = Some r ->
  exists b' rest, next b' rest = Some r.
Proof.
  intros H. apply match_atoms_split in H as (pre & rest & b' & _ & H).
  now exists b', rest.
Qed.

Lemma match_items_groups (p : Rx.pattern) (b : bool) (s : string)
    (r : Rx.found) :
  Rx.match_items p b s = Some r -> map fst (fst r) = rx_group_names p.
Proof.
  revert b s r. induction p as [|it p IH]; intros b s r.
  - now intros [= <-].
  - destruct it as [q k|name q k| | |atoms]; cbn [Rx.match_items]; intros H.
    + apply q_quant_split in H as (taken & rest & _ & _ & H).
      exact (IH _ _ _ H).
    + apply q_quant_split in H as (taken & rest & _ & _ & H).
      destruct (Rx.match_items p _ rest) as [[caps after]|] eqn:E;
        [|discriminate].
      injection H as <-. simpl. f_equal. exact (IH _ _ _ E).
    + destruct b; [|discriminate]. exact (IH _ _ _ H).
    + destruct (Rx.at_end s); [|discriminate]. exact (IH _ _ _ H).
    + destruct (Rx.match_atoms atoms _ b s) eqn:E.
      * injection H as <-.
        apply match_atoms_found in E as (b' & rest & E).
        exact (IH _ _ _ E).
      * exact (IH _ _ _ H).
Qed.

Lemma search_groups_rx (p : Rx.pattern) (s : string) (before : string)
    (r : Rx.found) :
  Rx.search p s = Some (before, r) -> map fst (fst r) = rx_group_names p.
Proof.
  unfold Rx.search. intros H.
  apply search_from_split in H as (skipped & rest & b & _ & _ & H).
  exact (match_items_groups _ _ _ _ H).
Qed.

(** What [rstrip("?")] leaves is the head of the text. *)
Lemma rstrip_question_split (s : string) :
  exists post, s = rstrip_question s ++ post.
Proof.
  induction s as [|c s IH]; [now exists ""|].
  destruct IH as [post E]. cbn [rstrip_question].
  destruct (rstrip_question s) as [|d r] eqn:Er.
  - destruct (Ascii.eqb c "?"); [now exists (String c s)|].
    exists s. reflexivity.
  - exists post. simpl. simpl in E. now rewrite <- E.
Qed.

Lemma py_in_within (w b x y : string) :
  py_in w b = true -> py_in w (x ++ b ++ y) = true.
Proof.
  intros H. apply py_in_split in H as (pre & post & ->).
  replace (x ++ (pre ++ w ++ post) ++ y)
    with ((x ++ pre) ++ w ++ (post ++ y))
    by (now rewrite !append_assoc).
  apply py_in_append.
Qed.

Lemma py_in_lower_within (w a b x y : string) :
  a = x ++ b ++ y ->
  py_in w (py_lower b) = true -> py_in w (py_lower a) = true.
Proof.
  intros -> H. rewrite !py_lower_app. now apply py_in_within.
Qed.

Lemma py_strip_within (a : string) : exists x y, a = x ++ py_strip a ++ y.
Proof.
  unfold py_strip.
  destruct (py_lstrip_split a) as [x Ex].
  destruct (py_rstrip_split (py_lstrip a)) as [y Ey].
  exists x, y. now rewrite <- Ey.
Qed.

(** A word found in the text that the parser looks at is in the
    question. *)
Lemma in_stripped_question (w q : string) :
  py_in w (py_lower (py_strip (rstrip_question (py_strip q)))) = true ->
  py_in w (py_lower q) = true.
Proof.
  intros H.
  destruct (py_strip_within q) as (x1 & y1 & E1).
  destruct (rstrip_question_split (py_strip q)) as [y2 E2].
  destruct (py_strip_within (rstrip_question (py_strip q)))
    as (x3 & y3 & E3).
  apply (py_in_lower_within w _ _ _ _ E1).
  apply (py_in_lower_within w _ (rstrip_question (py_strip q)) "" y2);
    [exact E2|].
  exact (py_in_lower_within w _ _ _ _ E3 H).
Qed.

End RxFacts.

(* ================================================================== *)
(** * Question Parsers: further properties *)
(* ================================================================== *)

Section QuestionFacts.

Lemma first_found_in (ps : list Rx.pattern) (s : string) (m : Re.captures) :
  first_found ps s = Some m ->
  exists p before after,
    In p ps /\ Rx.search p s = Some (before, (m, after)).
Proof.
  induction ps as [|p ps IH]; simpl; [discriminate|].
  destruct (Rx.search p s) as [[before [caps after]]|] eqn:E.
  - intros [= <-]. exists p, before, after. split; [now left | exact E].
  - intros H. destruct (IH H) as (p' & b' & a' & Hin & Hs).
    exists p', b', a'. split; [now right | exact Hs].
Qed.

(** Every pattern of the yes/no parser holds the word produce and the two
    groups. *)
Lemma yesno_patterns_shape (p : Rx.pattern) :
  In p yesno_patterns ->
  (exists p1 p2, p = (p1 ++ Rx.word "produce" ++ p2)%list)
  /\ (rx_group_names p = ["title"; "artist"]
      \/ rx_group_names p = ["artist"; "title"]).
Proof.
  intros [<-|[<-|[<-|[<-|[]]]]].
  - split; [|now left].
    exists (starts_with "is" ++ quoted "title" ++ [spaces])%list,
      (Rx.word "d" ++ [spaces] ++ Rx.word "by" ++ [spaces]
       ++ quoted "artist" ++ to_the_end)%list.
    reflexivity.
  - split; [|now left].
    exists (starts_with "was" ++ quoted "title" ++ [spaces])%list,
      (Rx.word "d" ++ [spaces] ++ Rx.word "by" ++ [spaces]
       ++ quoted "artist" ++ to_the_end)%list.
    reflexivity.
  - split; [|now right].
    exists (starts_with "did" ++ quoted "artist" ++ [spaces])%list,
      ([spaces] ++ quoted "title" ++ to_the_end)%list.
    reflexivity.
  - split; [|now right].
    exists (starts_with "is" ++ quoted "artist" ++ [spaces]
            ++ [Rx.Maybe [ (Rx.Once, Re.Lit "t"); (Rx.Once, Re.Lit "h");
                           (Rx.Once, Re.Lit "e"); (Rx.Plus, Re.Space) ]])%list,
      (Rx.word "r" ++ [spaces] ++ Rx.word "of" ++ [spaces]
       ++ quoted "title" ++ to_the_end)%list.
    reflexivity.
Qed.

End QuestionFacts.

(** X14.  [parse_yesno_producer_question] never raises; when it answers
    with a song and a producer, the question holds the word produce, in
    some letter case, and both answers are trimmed.  A question without
    that word is left to the general parser. *)
Theorem yesno_question_outcome (q : string) :
  exists r,
    parse_yesno_producer_question q = Ok r
    /\ forall qu, r = Some qu ->
         py_in "produce" (py_lower q) = true
         /\ py_strip (song qu) = song qu
         /\ py_strip (claimed_producer qu) = claimed_producer qu.
Proof.
  unfold parse_yesno_producer_question. cbv zeta.
  destruct (first_found yesno_patterns _) as [m|] eqn:E.
  - apply first_found_in in E as (p & before & after & Hin & Hs).
    destruct (yesno_patterns_shape p Hin) as [(p1 & p2 & Hp) Hg].
    pose proof (search_groups_rx _ _ _ _ Hs) as Hn. cbn [fst] in Hn.
    assert (Hw : py_in "produce" (py_lower q) = true).
    { apply in_stripped_question. rewrite Hp in Hs.
      exact (search_word p1 p2 "produce" _ _ Hs). }
    assert (Hgroups : exists t a, Re.group m "title" = Ok t
                                  /\ Re.group m "artist" = Ok a).
    { destruct Hg as [Hg|Hg]; rewrite Hg in Hn;
        destruct m as [|[n1 v1] [|[n2 v2] [|x m]]]; try discriminate;
        injection Hn as -> ->; now eexists; eexists. }
    destruct Hgroups as (t & a & -> & ->). cbn [bind].
    eexists. split; [reflexivity|].
    intros qu [= <-]. cbn [song claimed_producer].
    split; [exact Hw|]. split; apply py_strip_idem.
  - exists None. split; [reflexivity | discriminate].
Qed.

Section SeparatorFacts.

(** A greedy run of white space before something that does not start with
    white space: the whole run is taken. *)
Lemma q_plus_space_greedy (R : Type) (next : string -> string -> option R)
    (f : string -> option R) :
  (forall t rest, next t rest = f rest) ->
  (forall c rest, isspace c = true -> f (String c rest) = None) ->
  forall s taken,
    Rx.q_plus R Re.Space next taken s
    = match s with
      | String c _ => if isspace c then f (py_lstrip s) else None
      | "" => None
      end.
Proof.
  intros Hnext Hf. induction s as [|c s IH]; intros taken;
    [reflexivity|].
  cbn [Rx.q_plus Re.accepts py_lstrip].
  destruct (isspace c) eqn:Hc; [|reflexivity].
  rewrite IH, Hnext. destruct s as [|c' s]; [reflexivity|].
  cbn [py_lstrip]. destruct (isspace c') eqn:Hc'; [|reflexivity].
  destruct (f (py_lstrip s)) eqn:E; [reflexivity|].
  now apply Hf.
Qed.

(** A greedy run of white space at the end of a pattern. *)
Lemma q_plus_space_last (R : Type) (next : string -> string -> option R)
    (g : string -> R) :
  (forall t rest, next t rest = Some (g rest)) ->
  forall s taken,
    Rx.q_plus R Re.Space next taken s
    = match s with
      | String c _ => if isspace c then Some (g (py_lstrip s)) else None
      | "" => None
      end.
Proof.
  intros Hnext. induction s as [|c s IH]; intros taken; [reflexivity|].
  cbn [Rx.q_plus Re.accepts py_lstrip].
  destruct (isspace c) eqn:Hc; [|reflexivity].
  rewrite IH, Hnext. destruct s as [|c' s]; [reflexivity|].
  cbn [py_lstrip]. now destruct (isspace c').
Qed.

Lemma isspace_not_by (c : ascii) :
  isspace c = true -> Re.accepts (Re.Lit "b") c = false.
Proof. intros H. exact (isspace_not_b c H). Qed.

(** The match of the separator at the start of a text. *)
Lemma match_separator (b : bool) (s : string) :
  Rx.match_items by_separator b s
  = match after_separator s with
    | Some after => Some ([], after)
    | None => None
    end.
Proof.
  unfold by_separator, spaces.
  cbn [Rx.word app Rx.match_items Rx.q_quant].
  rewrite (q_plus_space_greedy Rx.found _
             (fun rest =>
                match after_by rest with
                | Some after => Some ([], after)
                | None => None
                end)).
  - unfold after_separator. destruct s as [|c s]; [reflexivity|].
    now destruct (isspace c).
  - intros t rest. unfold Rx.q_once, after_by.
    destruct rest as [|c1 [|c2 r]]; try reflexivity.
    + now destruct (Re.accepts (Re.Lit "b") c1).
    + destruct (Re.accepts (Re.Lit "b") c1); [|reflexivity].
      destruct (Re.accepts (Re.Lit "y") c2); [|reflexivity].
      rewrite (q_plus_space_last Rx.found _ (fun rest => ([], rest)));
        [|reflexivity].
      destruct r as [|d r]; [reflexivity|]. now destruct (isspace d).
  - intros c rest Hc. unfold after_by.
    destruct rest as [|c2 r]; [reflexivity|].
    now rewrite (isspace_not_by c Hc).
Qed.

(** The search of the separator does not depend on the place in the
    text. *)
Lemma search_separator_flag (b b' : bool) (before s : string) :
  Rx.search_from by_separator b before s
  = Rx.search_from by_separator b' before s.
Proof.
  revert b b' before. induction s as [|c s IH]; intros b b' before;
    cbn [Rx.search_from]; rewrite !match_separator.
  - reflexivity.
  - destruct (after_separator (String c s)); [reflexivity|]. apply IH.
Qed.

(** No separator is found: none starts at any place of the text. *)
Lemma search_separator_none (b : bool) (before pre u : string) :
  Rx.search_from by_separator b before (pre ++ u) = None ->
  after_separator u = None.
Proof.
  revert b before. induction pre as [|c pre IH]; intros b before H.
  - destruct u as [|c u]; cbn [append Rx.search_from] in H;
      rewrite match_separator in H; [reflexivity|].
    destruct (after_separator (String c u)); [discriminate | reflexivity].
  - cbn [append Rx.search_from] in H. rewrite match_separator in H.
    destruct (after_separator (String c (pre ++ u))); [discriminate|].
    exact (IH _ _ H).
Qed.

(** A trimmed text starts and ends with a character that is not white
    space. *)
Lemma trimmed_both (t : string) :
  py_strip t = t -> py_lstrip t = t /\ py_rstrip t = t.
Proof.
  intros H. assert (Hl : py_lstrip t = t).
  { apply py_lstrip_fixed. rewrite <- H. unfold py_strip.
    apply py_rstrip_starts, py_lstrip_starts. }
  split; [exact Hl|]. unfold py_strip in H. now rewrite Hl in H.
Qed.

Lemma py_rstrip_suffix (pre u : string) :
  py_rstrip (pre ++ u) = pre ++ u -> u <> "" -> py_rstrip u = u.
Proof.
  intros H Hu. induction pre as [|c pre IH]; [exact H|].
  apply IH. cbn [append py_rstrip] in H.
  destruct (py_rstrip (pre ++ u)) as [|d r] eqn:E.
  - exfalso. destruct (isspace c); [discriminate|].
    injection H as H. destruct pre; [now apply Hu | discriminate].
  - now injection H.
Qed.

Lemma py_rstrip_nonspace (u : string) :
  py_rstrip u = u -> u <> "" -> py_lstrip u <> "".
Proof.
  induction u as [|c u IH]; intros H Hu; [contradiction|].
  cbn [py_lstrip]. destruct (isspace c) eqn:Hc; [|discriminate].
  cbn [py_rstrip] in H. destruct (py_rstrip u) as [|d r] eqn:E.
  - rewrite Hc in H. discriminate.
  - injection H as H. apply IH; [exact H|]. rewrite <- H. discriminate.
Qed.

Lemma py_lstrip_app (u x : string) :
  py_lstrip u <> "" -> py_lstrip (u ++ x) = py_lstrip u ++ x.
Proof.
  induction u as [|c u IH]; intros H; [contradiction|].
  cbn [append py_lstrip] in H |- *. destruct (isspace c); [now apply IH|].
  reflexivity.
Qed.

Lemma py_rstrip_lstrip (u : string) :
  py_rstrip u = u -> py_rstrip (py_lstrip u) = py_lstrip u.
Proof.
  intros H. destruct (py_lstrip_split u) as [pre E].
  destruct (py_lstrip u) as [|c v] eqn:El; [reflexivity|].
  apply (py_rstrip_suffix pre); [now rewrite <- E | discriminate].
Qed.

Lemma py_rstrip_last (c : ascii) :
  py_rstrip (String c "") = String c "" -> isspace c = false.
Proof. simpl. now destruct (isspace c). Qed.

(** A separator that starts inside a trimmed title, in the text followed
    by the separator and more, starts in the title followed by a space. *)
Lemma separator_inside (u x : string) :
  py_rstrip u = u -> u <> "" ->
  after_separator (u ++ " ") = None ->
  after_separator (u ++ " by " ++ x) = None.
Proof.
  intros Hr Hu. pose proof (py_rstrip_nonspace u Hr Hu) as Hl.
  pose proof (py_rstrip_lstrip u Hr) as Hrl.
  unfold after_separator.
  destruct u as [|c u]; [contradiction|].
  rewrite (py_lstrip_app (String c u) " " Hl),
    (py_lstrip_app (String c u) (" by " ++ x) Hl).
  cbn [append]. destruct (isspace c); [|reflexivity].
  destruct (py_lstrip (String c u)) as [|c1 [|c2 [|d v]]];
    [contradiction | | |]; cbn [append after_by].
  - apply py_rstrip_last in Hrl.
    destruct (Re.accepts (Re.Lit "b") c1); [|reflexivity].
    reflexivity.
  - destruct (Re.accepts (Re.Lit "b") c1); [|reflexivity].
    destruct (Re.accepts (Re.Lit "y") c2); [|reflexivity].
    discriminate.
  - destruct (Re.accepts (Re.Lit "b") c1); [|reflexivity].
    destruct (Re.accepts (Re.Lit "y") c2); [|reflexivity].
    destruct (isspace d); [discriminate | reflexivity].
Qed.

(** The first separator of a text: after a trimmed title that holds none,
    also when a space follows it. *)
Lemma first_separator (t x : string) (b : bool) (before : string) :
  py_rstrip t = t ->
  Rx.search by_separator (t ++ " ") = None ->
  Rx.search_from by_separator b before (t ++ " by " ++ x)
  = Some (before ++ t, ([], py_lstrip x)).
Proof.
  intros Hr Hs.
  assert (Hall : forall pre u, t = pre ++ u -> u <> "" ->
                               after_separator (u ++ " by " ++ x) = None).
  { intros pre u E Hu. apply separator_inside.
    - apply (py_rstrip_suffix pre); [now rewrite <- E | exact Hu].
    - exact Hu.
    - apply (search_separator_none true "" pre). unfold Rx.search in Hs.
      now rewrite E, append_assoc in Hs. }
  clear Hr Hs. revert b before Hall.
  induction t as [|c t IH]; intros b before Hall.
  - cbn [append Rx.search_from]. rewrite match_separator.
    rewrite append_empty_r. reflexivity.
  - assert (H0 : after_separator (String c t ++ " by " ++ x) = None)
      by (apply (Hall "" (String c t) eq_refl); discriminate).
    change (String c t ++ " by " ++ x) with (String c (t ++ " by " ++ x))
      in H0 |- *.
    cbn [Rx.search_from]. rewrite match_separator, H0.
    rewrite IH.
    + now rewrite append_assoc.
    + intros pre u E Hu. apply (Hall (String c pre) u); [|exact Hu].
      now rewrite E.
Qed.

Lemma length_append (a b : string) :
  String.length (a ++ b) = (String.length a + String.length b)%nat.
Proof. induction a as [|c a IH]; simpl; [reflexivity | now rewrite IH]. Qed.

Lemma two_or_more (m : nat) : (2 <= m)%nat -> exists n, m = S (S n).
Proof. intros H. exists (m - 2)%nat. lia. Qed.

End SeparatorFacts.

(** X15.  [split_title_and_perf] gives back a title and a performer joined
    by the word by: for a trimmed title and a trimmed performer that hold
    no separator (white space, by in either letter case, white space),
    the title neither when a space follows it, the text of the title, the
    word by between two spaces and the performer is split into the two. *)
Theorem split_title_and_perf_round_trip (t p : string) :
  py_strip t = t ->
  py_strip p = p ->
  Rx.search by_separator (t ++ " ") = None ->
  Rx.search by_separator p = None ->
  split_title_and_perf (t ++ " by " ++ p) = (t, Some p).
Proof.
  intros Ht Hp Hst Hsp.
  destruct (trimmed_both t Ht) as [_ Hrt].
  destruct (trimmed_both p Hp) as [Hlp _].
  unfold split_title_and_perf, Rx.split.
  assert (Hlen : exists n,
            String.length (t ++ " by " ++ p) = S (S n)).
  { apply two_or_more. rewrite length_append. cbn [append String.length].
    lia. }
  destruct Hlen as [n ->]. cbn [Rx.split_from].
  rewrite (first_separator t p true "" Hrt Hst), Hlp.
  unfold Rx.search in Hsp.
  rewrite (search_separator_flag false true "" p), Hsp.
  cbn [append]. now rewrite Ht, Hp.
Qed.

Lemma split_title_and_perf_round_trip_witness :
  split_title_and_perf ("Hit Me Baby" ++ " by " ++ "Britney Spears")
  = ("Hit Me Baby", Some "Britney Spears").
Proof.
  apply split_title_and_perf_round_trip; reflexivity.
Defined.

(** X16.  [split_title_and_perf] reads two parts only: when the word by
    stands twice between trimmed parts that hold no separator themselves,
    the first part is the title, the second the performer, and whatever
    follows the second by is dropped. *)
Theorem split_title_and_perf_second_separator (t p z : string) :
  py_strip t = t ->
  py_strip p = p ->
  p <> "" ->
  Rx.search by_separator (t ++ " ") = None ->
  Rx.search by_separator (p ++ " ") = None ->
  split_title_and_perf (t ++ " by " ++ p ++ " by " ++ z) = (t, Some p).
Proof.
  intros Ht Hp Hne Hst Hsp.
  destruct (trimmed_both t Ht) as [_ Hrt].
  destruct (trimmed_both p Hp) as [Hlp Hrp].
  unfold split_title_and_perf, Rx.split.
  assert (Hlen : exists n,
            String.length (t ++ " by " ++ p ++ " by " ++ z) = S (S n)).
  { apply two_or_more. rewrite length_append. cbn [append String.length].
    lia. }
  destruct Hlen as [n ->]. cbn [Rx.split_from].
  rewrite (first_separator t (p ++ " by " ++ z) true "" Hrt Hst).
  rewrite py_lstrip_app by (rewrite Hlp; exact Hne). rewrite Hlp.
  rewrite (first_separator p z false "" Hrp Hsp).
  cbn [append]. now rewrite Ht, Hp.
Qed.

Lemma split_title_and_perf_second_separator_witness :
  split_title_and_perf ("Stand" ++ " by " ++ "Me" ++ " by " ++ "Ben E. King")
  = ("Stand", Some "Me").
Proof.
  apply split_title_and_perf_second_separator;
    [reflexivity | reflexivity | discriminate | reflexivity | reflexivity].
Defined.

(** X17.  Both parts that [split_title_and_perf] returns are trimmed; it
    returns a performer only for a text that holds the word by, in some
    letter case, and without a performer the title is the whole text,
    trimmed. *)
Theorem split_title_and_perf_outcome (s : string) :
  py_strip (fst (split_title_and_perf s)) = fst (split_title_and_perf s)
  /\ match snd (split_title_and_perf s) with
     | None => fst (split_title_and_perf s) = py_strip s
     | Some h => py_strip h = h /\ py_in "by" (py_lower s) = true
     end.
Proof.
  unfold split_title_and_perf.
  destruct (Rx.split by_separator s) as [|p0 [|p1 l]] eqn:E; cbn [fst snd];
    try (split; [apply py_strip_idem | reflexivity]).
  split; [apply py_strip_idem|]. split; [apply py_strip_idem|].
  unfold Rx.split in E. destruct (String.length s) as [|n];
    [discriminate|].
  cbn [Rx.split_from] in E.
  destruct (Rx.search_from by_separator true "" s)
    as [[before [caps after]]|] eqn:Es; [|discriminate].
  exact (search_word [spaces] [spaces] "by" s _ Es).
Qed.

Section LazyGroups.

Lemma is_empty_snoc (t : string) (c : ascii) :
  Rx.is_empty (t ++ String c "") = false.
Proof. now destruct t. Qed.

(** A lazy group takes the shortest text after which the rest of the
    pattern matches. *)
Lemma lazy_group_shortest (name : string) (p : Rx.pattern) (rest : string)
    (caps : Re.captures) (after : string) :
  Rx.match_items p false rest = Some (caps, after) ->
  forall (t taken : string) (b : bool),
    t <> "" ->
    every (Re.accepts Re.Dot) t = true ->
    (forall t1 t2, t = t1 ++ t2 -> t1 <> "" -> t2 <> "" ->
                   Rx.match_items p false (t2 ++ rest) = None) ->
    Rx.q_plus_lazy Rx.found Re.Dot
      (fun taken' rest' =>
         match Rx.match_items p (b && Rx.is_empty taken') rest' with
         | Some (caps', after') => Some ((name, taken') :: caps', after')
         | None => None
         end)
      taken (t ++ rest)
    = Some ((name, taken ++ t) :: caps, after).
Proof.
  intros Hrest. induction t as [|c t IH]; intros taken b Hne Hdot Hshort;
    [contradiction|].
  cbn [append Rx.q_plus_lazy]. cbn [every] in Hdot.
  apply andb_true_iff in Hdot as [Hc Hdot]. rewrite Hc.
  rewrite is_empty_snoc, andb_false_r.
  destruct t as [|c' t].
  - cbn [append]. now rewrite Hrest.
  - rewrite (Hshort (String c "") (String c' t) eq_refl) by discriminate.
    rewrite (IH (taken ++ String c "") b); try discriminate; try assumption.
    + now rewrite append_assoc.
    + intros t1 t2 E H1 H2. apply (Hshort (String c t1) t2); try assumption.
      * simpl. now rewrite E.
      * discriminate.
Qed.

Lemma match_lazy_group (name : string) (p : Rx.pattern) (t rest : string)
    (caps : Re.captures) (after : string) (b : bool) :
  Rx.match_items p false rest = Some (caps, after) ->
  t <> "" ->
  every (Re.accepts Re.Dot) t = true ->
  (forall t1 t2, t = t1 ++ t2 -> t1 <> "" -> t2 <> "" ->
                 Rx.match_items p false (t2 ++ rest) = None) ->
  Rx.match_items (Rx.Group name Rx.PlusLazy Re.Dot :: p) b (t ++ rest)
  = Some ((name, t) :: caps, after).
Proof.
  intros Hrest Hne Hdot Hshort. cbn [Rx.match_items Rx.q_quant].
  exact (lazy_group_shortest name p rest caps after Hrest t "" b
           Hne Hdot Hshort).
Qed.

(** An optional quote before a character that is no quote. *)
Lemma match_opt_quote_skip (p : Rx.pattern) (b : bool) (s : string) :
  match s with
  | String c _ => Re.accepts quotes c = false
  | "" => True
  end ->
  Rx.match_items (opt_quote :: p) b s = Rx.match_items p b s.
Proof.
  intros H. unfold opt_quote. cbn [Rx.match_items Rx.q_quant].
  unfold Rx.q_opt, Rx.q_once. destruct s as [|c s].
  - cbn [Rx.is_empty]. now rewrite andb_true_r.
  - rewrite H. cbn [Rx.is_empty]. now rewrite andb_true_r.
Qed.

Lemma plain_not_quote (c : ascii) :
  plain_char c = true -> Re.accepts quotes c = false.
Proof.
  unfold plain_char, quotes. cbn [Re.accepts existsb]. intros H.
  apply negb_true_iff in H. rewrite !orb_false_iff in H.
  destruct H as [[H1 H2] _]. now rewrite H1, H2.
Qed.

Lemma plain_dot (s : string) :
  every plain_char s = true -> every (Re.accepts Re.Dot) s = true.
Proof.
  induction s as [|c s IH]; [reflexivity|]. cbn [every]. intros H.
  apply andb_true_iff in H as [Hc Hs]. rewrite (IH Hs), andb_true_r.
  unfold plain_char in Hc. apply negb_true_iff in Hc.
  rewrite !orb_false_iff in Hc. destruct Hc as [_ Hc].
  cbn [Re.accepts]. now rewrite Hc.
Qed.

(** A run of white space, taken whole, before a pattern that does not
    start with white space. *)
Lemma match_spaces (p : Rx.pattern) (b : bool) (s : string) :
  (forall c rest, isspace c = true ->
                  Rx.match_items p false (String c rest) = None) ->
  Rx.match_items (spaces :: p) b s
  = match s with
    | String c _ =>
        if isspace c then Rx.match_items p false (py_lstrip s) else None
    | "" => None
    end.
Proof.
  intros Hp. unfold spaces. cbn [Rx.match_items Rx.q_quant].
  assert (Hplus : forall u taken,
            Rx.q_plus Rx.found Re.Space
              (fun taken' rest =>
                 Rx.match_items p (b && Rx.is_empty taken') rest)
              taken u
            = match u with
              | String c _ =>
                  if isspace c then Rx.match_items p false (py_lstrip u)
                  else None
              | "" => None
              end).
  { induction u as [|c u IH]; intros taken; [reflexivity|].
    cbn [Rx.q_plus Re.accepts py_lstrip].
    destruct (isspace c) eqn:Hc; [|reflexivity].
    rewrite IH, is_empty_snoc, andb_false_r.
    destruct u as [|c' u]; [reflexivity|].
    cbn [py_lstrip]. destruct (isspace c') eqn:Hc'; [|reflexivity].
    destruct (Rx.match_items p false (py_lstrip u)) eqn:E; [reflexivity|].
    now apply Hp. }
  apply Hplus.
Qed.

Lemma isspace_not_letter (l c : ascii) :
  isspace l = false -> lower_char l = l ->
  isspace c = true -> Re.accepts (Re.Lit l) c = false.
Proof.
  intros Hl Hlow Hc. cbn [Re.accepts]. rewrite Hlow.
  destruct (Ascii.eqb (lower_char c) l) eqn:E; [|reflexivity].
  apply Ascii.eqb_eq in E. subst l.
  revert Hl Hc. destruct c as [[] [] [] [] [] [] [] []];
    vm_compute; congruence.
Qed.

(** A pattern that starts with a letter does not match at white space. *)
Lemma match_letter_space (l : ascii) (p : Rx.pattern) (b : bool) (c : ascii)
    (rest : string) :
  isspace l = false -> lower_char l = l -> isspace c = true ->
  Rx.match_items (Rx.Atom Rx.Once (Re.Lit l) :: p) b (String c rest) = None.
Proof.
  intros Hl Hlow Hc. cbn [Rx.match_items Rx.q_quant]. unfold Rx.q_once.
  now rewrite (isspace_not_letter l c Hl Hlow Hc).
Qed.

Lemma no_space_before_suffix (l : ascii) (t1 t2 : string) :
  no_space_before l (t1 ++ t2) = true -> no_space_before l t2 = true.
Proof.
  induction t1 as [|c t1 IH]; intros H; [exact H|].
  apply IH. cbn [append] in H.
  change (no_space_before l (String c (t1 ++ t2)))
    with (match t1 ++ t2 with
          | String d _ => negb (isspace c && Re.accepts (Re.Lit l) d)
          | "" => true
          end && no_space_before l (t1 ++ t2)) in H.
  now apply andb_true_iff in H as [_ H].
Qed.

(** The first character after a run of white space is not the letter. *)
Lemma no_space_before_lstrip (l c d : ascii) (u r : string) :
  isspace c = true ->
  no_space_before l (String c u) = true ->
  py_lstrip (String c u) = String d r ->
  Re.accepts (Re.Lit l) d = false.
Proof.
  revert c. induction u as [|c' u IH]; intros c Hc Hn El.
  - cbn [py_lstrip] in El. rewrite Hc in El. discriminate.
  - cbn [py_lstrip] in El. rewrite Hc in El.
    change (no_space_before l (String c (String c' u)))
      with (negb (isspace c && Re.accepts (Re.Lit l) c')
            && no_space_before l (String c' u)) in Hn.
    apply andb_true_iff in Hn as [H1 Hn].
    rewrite Hc in H1. cbn [andb] in H1. apply negb_true_iff in H1.
    destruct (isspace c') eqn:Hc'.
    + apply (IH c' Hc' Hn). cbn [py_lstrip]. now rewrite Hc'.
    + now injection El as <- _.
Qed.

End LazyGroups.

Section ProducedBy.

Lemma match_bol (p : Rx.pattern) (s : string) :
  Rx.match_items (Rx.Bol :: p) true s = Rx.match_items p true s.
Proof. reflexivity. Qed.

Lemma match_star_skip (p : Rx.pattern) (b : bool) (s : string) :
  starts_nonspace s = true ->
  Rx.match_items (Rx.Atom Rx.Star Re.Space :: p) b s = Rx.match_items p b s.
Proof.
  intros H. cbn [Rx.match_items Rx.q_quant]. unfold Rx.q_star.
  destruct s as [|c s]; cbn [Rx.q_plus Rx.is_empty];
    [now rewrite andb_true_r|].
  cbn [starts_nonspace] in H. apply negb_true_iff in H.
  cbn [Re.accepts]. rewrite H. cbn [Rx.is_empty]. now rewrite andb_true_r.
Qed.

(** One white space before a text that does not start with white space. *)
Lemma match_one_space (p : Rx.pattern) (b : bool) (c : ascii) (s : string) :
  isspace c = true -> starts_nonspace s = true ->
  Rx.match_items (spaces :: p) b (String c s) = Rx.match_items p false s.
Proof.
  intros Hc Hs. unfold spaces. cbn [Rx.match_items Rx.q_quant Rx.q_plus].
  cbn [Re.accepts]. rewrite Hc.
  assert (E : forall taken,
            Rx.q_plus Rx.found Re.Space
              (fun taken' rest =>
                 Rx.match_items p (b && Rx.is_empty taken') rest)
              taken s = None).
  { intros taken. destruct s as [|c' s]; [reflexivity|].
    cbn [starts_nonspace] in Hs. apply negb_true_iff in Hs.
    cbn [Rx.q_plus Re.accepts]. now rewrite Hs. }
  rewrite E. cbn [append Rx.is_empty]. now rewrite andb_false_r.
Qed.

(** A literal word, read in any letter case. *)
Lemma match_word_ci (w W : string) (p : Rx.pattern) (b : bool) (s : string) :
  py_lower W = py_lower w -> w <> "" ->
  Rx.match_items (Rx.word w ++ p)%list b (W ++ s) = Rx.match_items p false s.
Proof.
  revert W b. induction w as [|c w IH]; intros W b E Hw; [contradiction|].
  destruct W as [|C W]; [discriminate|].
  cbn [py_lower] in E. injection E as Ec E.
  cbn [Rx.word app append Rx.match_items Rx.q_quant]. unfold Rx.q_once.
  cbn [Re.accepts]. rewrite Ec, Ascii.eqb_refl.
  cbn [Rx.is_empty]. rewrite andb_false_r.
  destruct w as [|c' w].
  - destruct W; [reflexivity | discriminate].
  - apply IH; [exact E | discriminate].
Qed.

Lemma at_end_false (u : string) :
  u <> "" -> py_rstrip u = u -> Rx.at_end u = false.
Proof.
  destruct u as [|c [|c' u]]; intros Hu Hr; [contradiction| |reflexivity].
  apply py_rstrip_last in Hr. cbn [Rx.at_end].
  destruct (Ascii.eqb c "010") eqn:E; [|reflexivity].
  apply Ascii.eqb_eq in E. subst c. discriminate.
Qed.

(** What ends a pattern, an optional quote and white space to the end of
    the text, does not match a text that ends with a plain character. *)
Lemma end_fails (u : string) :
  u <> "" -> py_rstrip u = u -> every plain_char u = true ->
  Rx.match_items (opt_quote :: to_the_end) false u = None.
Proof.
  intros Hu Hr Hp. rewrite match_opt_quote_skip.
  2:{ destruct u as [|c u]; [exact I|]. cbn [every] in Hp.
      apply andb_true_iff in Hp as [Hc _]. now apply plain_not_quote. }
  unfold to_the_end. cbn [Rx.match_items Rx.q_quant]. unfold Rx.q_star.
  assert (Hplus : forall v taken,
            v <> "" -> py_rstrip v = v ->
            Rx.q_plus Rx.found Re.Space
              (fun taken' rest =>
                 if Rx.at_end rest then Some ([], rest) else None)
              taken v = None).
  { induction v as [|c v IH]; intros taken Hv Hrv; [contradiction|].
    cbn [Rx.q_plus Re.accepts]. destruct (isspace c) eqn:Hc; [|reflexivity].
    assert (Hv' : v <> "").
    { intros ->. apply py_rstrip_last in Hrv. congruence. }
    assert (Hrv' : py_rstrip v = v)
      by (exact (py_rstrip_suffix (String c "") v Hrv Hv')).
    now rewrite (IH _ Hv' Hrv'), (at_end_false v Hv' Hrv'). }
  rewrite (Hplus u "" Hu Hr). now rewrite (at_end_false u Hu Hr).
Qed.

(** The quoted group of the producer and the end of the pattern, on a
    clean name. *)
Lemma match_artist_end (a : string) (b : bool) :
  clean_name a = true ->
  Rx.match_items (quoted "artist" ++ to_the_end)%list b a
  = Some ([("artist", a)], "").
Proof.
  unfold clean_name. rewrite !andb_true_iff.
  intros [[Hne Htrim] Hplain]. apply String.eqb_eq in Htrim.
  destruct (trimmed_both a Htrim) as [_ Hr].
  assert (Ha : a <> "") by (intros ->; discriminate).
  unfold quoted. cbn [app]. rewrite match_opt_quote_skip.
  2:{ destruct a as [|c a]; [exact I|]. cbn [every] in Hplain.
      apply andb_true_iff in Hplain as [Hc _]. now apply plain_not_quote. }
  rewrite <- (append_empty_r a) at 1.
  rewrite (match_lazy_group "artist" (opt_quote :: to_the_end) a ""
             [] "" b); try reflexivity; try assumption.
  - now apply plain_dot.
  - intros t1 t2 E H1 H2. rewrite append_empty_r. apply end_fails.
    + exact H2.
    + apply (py_rstrip_suffix t1); [now rewrite <- E | exact H2].
    + rewrite E, every_app in Hplain.
      now apply andb_true_iff in Hplain as [_ Hplain].
Qed.

Lemma match_after_title (a : string) :
  clean_name a = true ->
  Rx.match_items after_title false (" produced by " ++ a)
  = Some ([("artist", a)], "").
Proof.
  intros Ha. unfold after_title.
  assert (Hs : starts_nonspace a = true).
  { unfold clean_name in Ha. rewrite !andb_true_iff in Ha.
    destruct Ha as [[_ Htrim] _]. apply String.eqb_eq in Htrim.
    rewrite <- Htrim. unfold py_strip.
    apply py_rstrip_starts, py_lstrip_starts. }
  rewrite match_opt_quote_skip by reflexivity.
  change (" produced by " ++ a) with (String " " ("produced" ++ " by " ++ a)).
  rewrite match_one_space by reflexivity.
  rewrite (match_word_ci "produced" "produced") by (reflexivity || discriminate).
  change (" by " ++ a) with (String " " ("by" ++ String " " a)).
  rewrite match_one_space by reflexivity.
  rewrite (match_word_ci "by" "by") by (reflexivity || discriminate).
  rewrite (match_one_space _ false " " a eq_refl Hs).
  now apply match_artist_end.
Qed.

(** The pattern after the title does not match inside a title in which no
    white space is followed by the letter p. *)
Lemma after_title_fails (t2 x : string) :
  t2 <> "" -> py_rstrip t2 = t2 -> every plain_char t2 = true ->
  no_space_before "p" t2 = true ->
  Rx.match_items after_title false (t2 ++ x) = None.
Proof.
  intros Hne Hr Hplain Hp. unfold after_title.
  destruct t2 as [|c u]; [contradiction|].
  rewrite match_opt_quote_skip.
  2:{ cbn [append every] in Hplain |- *.
      apply andb_true_iff in Hplain as [Hc _]. now apply plain_not_quote. }
  rewrite match_spaces.
  2:{ intros c0 rest Hc0. now apply match_letter_space. }
  cbn [append]. destruct (isspace c) eqn:Hc; [|reflexivity].
  change (String c (u ++ x)) with (String c u ++ x).
  pose proof (py_rstrip_nonspace _ Hr Hne) as Hl.
  rewrite (py_lstrip_app _ _ Hl).
  destruct (py_lstrip (String c u)) as [|d r] eqn:El; [contradiction|].
  pose proof (no_space_before_lstrip "p" c d u r Hc Hp El) as Hd.
  cbn [Rx.word app append Rx.match_items Rx.q_quant]. unfold Rx.q_once.
  now rewrite Hd.
Qed.

(** The first pattern on the question [Is <title> produced by <producer>]. *)
Lemma match_is_produced_by (t a : string) :
  clean_name t = true -> no_space_before "p" t = true ->
  clean_name a = true ->
  Rx.match_items (produced_by "is") true
    ("Is " ++ t ++ " produced by " ++ a)
  = Some ([("title", t); ("artist", a)], "").
Proof.
  intros Ht Hp Ha. pose proof Ht as Ht'.
  unfold clean_name in Ht'. rewrite !andb_true_iff in Ht'.
  destruct Ht' as [[Hne Htrim] Hplain]. apply String.eqb_eq in Htrim.
  destruct (trimmed_both t Htrim) as [Hl Hr].
  assert (Hnet : t <> "") by (intros ->; discriminate).
  assert (Hst : starts_nonspace t = true)
    by (rewrite <- Hl; apply py_lstrip_starts).
  unfold produced_by, starts_with. cbn [app].
  rewrite match_bol, match_star_skip by reflexivity.
  change ("Is " ++ t ++ " produced by " ++ a)
    with ("Is" ++ String " " (t ++ " produced by " ++ a)).
  rewrite <- app_assoc.
  rewrite (match_word_ci "is" "Is") by (reflexivity || discriminate).
  cbn [app]. rewrite match_one_space; [|reflexivity|].
  2:{ destruct t as [|c t]; [contradiction | exact Hst]. }
  unfold quoted at 1. cbn [app]. rewrite match_opt_quote_skip.
  2:{ destruct t as [|c t]; [contradiction|].
      cbn [append every] in Hplain |- *.
      apply andb_true_iff in Hplain as [Hc _]. now apply plain_not_quote. }
  apply (match_lazy_group "title" after_title t (" produced by " ++ a)
           [("artist", a)] "" false).
  - now apply match_after_title.
  - exact Hnet.
  - now apply plain_dot.
  - intros t1 t2 E H1 H2. apply after_title_fails.
    + exact H2.
    + apply (py_rstrip_suffix t1); [now rewrite <- E | exact H2].
    + rewrite E, every_app in Hplain.
      now apply andb_true_iff in Hplain as [_ Hplain].
    + apply (no_space_before_suffix "p" t1). now rewrite <- E.
Qed.

End ProducedBy.

Section QuestionText.

Lemma py_rstrip_app (x y : string) :
  py_rstrip y = y -> y <> "" -> py_rstrip (x ++ y) = x ++ y.
Proof.
  intros Hy Hne. induction x as [|c x IH]; [exact Hy|].
  cbn [append py_rstrip]. rewrite IH.
  destruct (x ++ y) eqn:E; [|reflexivity].
  destruct x; [now elim Hne | discriminate].
Qed.

Lemma rstrip_question_app (x y : string) :
  rstrip_question y = y -> y <> "" -> rstrip_question (x ++ y) = x ++ y.
Proof.
  intros Hy Hne. induction x as [|c x IH]; [exact Hy|].
  cbn [append rstrip_question]. rewrite IH.
  destruct (x ++ y) eqn:E; [|reflexivity].
  destruct x; [now elim Hne | discriminate].
Qed.

Lemma rstrip_question_cons (c : ascii) (s : string) :
  rstrip_question (String c s)
  = match rstrip_question s with
    | "" => if Ascii.eqb c "?" then "" else String c ""
    | r => String c r
    end.
Proof. reflexivity. Qed.

(** The question marks that end a question are taken off. *)
Lemma rstrip_question_mark (s : string) :
  rstrip_question s = s -> s <> "" -> rstrip_question (s ++ "?") = s.
Proof.
  induction s as [|c s IH]; intros Hs Hne; [contradiction|].
  change (String c s ++ "?") with (String c (s ++ "?")).
  rewrite rstrip_question_cons in Hs |- *.
  destruct s as [|c' s].
  - change (rstrip_question ("" ++ "?")) with "".
    change (rstrip_question "") with "" in Hs. exact Hs.
  - destruct (rstrip_question (String c' s)) as [|d r] eqn:E.
    + exfalso. destruct (Ascii.eqb c "?"); discriminate.
    + assert (Hs' : String d r = String c' s) by congruence.
      rewrite (IH Hs'); [reflexivity | discriminate].
Qed.

(** The text that the parser looks at, for the question made of a clean
    title and a clean producer. *)
Lemma question_text (head t a : string) :
  starts_nonspace head = true -> head <> "" ->
  clean_name a = true -> rstrip_question a = a ->
  py_strip (rstrip_question
              (py_strip (head ++ t ++ " produced by " ++ a ++ "?")))
  = head ++ t ++ " produced by " ++ a.
Proof.
  intros Hh Hhne Ha Hq.
  unfold clean_name in Ha. rewrite !andb_true_iff in Ha.
  destruct Ha as [[Hne Htrim] _]. apply String.eqb_eq in Htrim.
  destruct (trimmed_both a Htrim) as [_ Hr].
  assert (Hane : a <> "") by (intros ->; discriminate).
  assert (Hstart : forall x, starts_nonspace (head ++ x) = true)
    by (intros x; destruct head; [contradiction | exact Hh]).
  assert (Estrip : forall x y,
            py_rstrip y = y -> y <> "" ->
            py_strip (head ++ x ++ y) = head ++ x ++ y).
  { intros x y Hy Hyne. unfold py_strip.
    rewrite (py_lstrip_fixed _ (Hstart _)).
    rewrite <- append_assoc. apply py_rstrip_app; assumption. }
  replace (head ++ t ++ " produced by " ++ a ++ "?")
    with (head ++ (t ++ " produced by " ++ a) ++ "?")
    by (now rewrite !append_assoc).
  rewrite (Estrip _ "?") by (reflexivity || discriminate).
  replace (head ++ (t ++ " produced by " ++ a) ++ "?")
    with ((head ++ t ++ " produced by " ++ a) ++ "?")
    by (now rewrite !append_assoc).
  rewrite rstrip_question_mark.
  - replace (head ++ t ++ " produced by " ++ a)
      with (head ++ (t ++ " produced by ") ++ a)
      by (now rewrite !append_assoc).
    now apply Estrip.
  - replace (head ++ t ++ " produced by " ++ a)
      with ((head ++ t ++ " produced by ") ++ a)
      by (now rewrite !append_assoc).
    now apply rstrip_question_app.
  - destruct head; [contradiction | discriminate].
Qed.

End QuestionText.

(** X18.  [parse_yesno_producer_question] reads the question of its own
    example, [Is <title> produced by <producer>?], for every clean title
    and producer (not empty, trimmed, without quotes and line feeds): when
    no white space of the title is followed by a letter p, at which the
    lazy group of the title could stop, and the producer does not end with
    a question mark, the answer is the title and the producer as they
    stand. *)
Theorem yesno_question_round_trip (t a : string) :
  clean_name t = true ->
  no_space_before "p" t = true ->
  clean_name a = true ->
  rstrip_question a = a ->
  parse_yesno_producer_question
    ("Is " ++ t ++ " produced by " ++ a ++ "?")
  = Ok (Some {| song := t; claimed_producer := a |}).
Proof.
  intros Ht Hp Ha Hq. unfold parse_yesno_producer_question. cbv zeta.
  rewrite (question_text "Is " t a eq_refl) by (assumption || discriminate).
  assert (Hfound : first_found yesno_patterns
                     ("Is " ++ t ++ " produced by " ++ a)
                   = Some [("title", t); ("artist", a)]).
  { unfold yesno_patterns. cbn [first_found]. unfold Rx.search.
    change ("Is " ++ t ++ " produced by " ++ a)
      with (String "I" ("s " ++ t ++ " produced by " ++ a)).
    cbn [Rx.search_from].
    change (String "I" ("s " ++ t ++ " produced by " ++ a))
      with ("Is " ++ t ++ " produced by " ++ a).
    now rewrite (match_is_produced_by t a Ht Hp Ha). }
  rewrite Hfound. cbn [Re.group String.eqb Ascii.eqb Bool.eqb bind].
  unfold clean_name in Ht, Ha. rewrite !andb_true_iff in Ht, Ha.
  destruct Ht as [[_ Ht] _]. destruct Ha as [[_ Ha] _].
  apply String.eqb_eq in Ht, Ha. now rewrite Ht, Ha.
Qed.

Lemma yesno_question_round_trip_witness :
  parse_yesno_producer_question
    ("Is " ++ "Skeletons by Travis Scott" ++ " produced by "
     ++ "Tame Impala" ++ "?")
  = Ok (Some {| song := "Skeletons by Travis Scott";
                claimed_producer := "Tame Impala" |}).
Proof.
  apply yesno_question_round_trip; reflexivity.
Defined.
